(** * SynapseScanner: paper model, adapters, cache, connection engine and
      reference traversal, embedded from the Python sources.

    Conventions of the embedding.
    - A Python [str] is a [string] read as the sequence of its code points,
      one character for each code point, every code point below 256 (the
      Latin-1 range of Unicode): the letter U+00E9 is the one character
      [ascii_of_nat 233], not the two bytes of its UTF-8 form.  [lower],
      [split], [strip], [isalnum], [isdigit] are those of Python on that
      range, and [len] counts code points.  Text with a code point from 256
      on is outside the model.
    - A Python [int] is a [Z]; [len] is [Z.of_nat] of a length or a size.
      Where an [int] is handed to SQLite the range of a 64-bit integer
      matters, and the model raises [OverflowError] as the binding does.
    - A Python [set] of strings is a [gset string]; where the source turns a
      set into a list, Python leaves the order open and the model takes the
      order of [elements] or of first occurrence. No statement below depends
      on that order.
    - A [dict] with string keys is a [gmap string _]; the [defaultdict] of
      [find_connections], whose key order decides the pairs, is an
      association list in insertion order. *)

From Stdlib Require Import ZArith Ascii String List Lia Bool Sorted.
From stdpp Require Import base option list gmap strings pretty.

Open Scope Z_scope.

(** ** Python string operations *)

Module PyStr.

Definition code (c : ascii) : nat := nat_of_ascii c.

(** The [str] with the given code points: [''.join(map(chr, l))]. *)
Definition of_codes (l : list nat) : string :=
  foldr (fun n s => String (ascii_of_nat n) s) EmptyString l.

Definition between (lo hi : nat) (c : ascii) : bool :=
  (Nat.leb lo (code c) && Nat.leb (code c) hi)%bool.

(** [c.isspace()]: TAB..CR, FS..US, the blank, NEL (133) and the no-break
    space (160). *)
Definition isspace (c : ascii) : bool :=
  (between 9 13 c || between 28 32 c || between 133 133 c
   || between 160 160 c)%bool.

(** [c.isupper()]: A..Z and the capital letters 192..222 of Latin-1, the
    multiplication sign 215 apart.  These are the characters [lower]
    changes. *)
Definition isupper (c : ascii) : bool :=
  (between 65 90 c || between 192 214 c || between 216 222 c)%bool.

(** [c.isdecimal()], the digits of [int] and of [strptime]: 0..9. *)
Definition isdecimal (c : ascii) : bool := between 48 57 c.

(** [c.isdigit()]: 0..9 and the superscripts two, three (178, 179) and
    one (185). *)
Definition isdigit (c : ascii) : bool :=
  (isdecimal c || between 178 179 c || between 185 185 c)%bool.

(** [c.isalnum()]: the digits, A..Z, a..z, the ordinal indicators 170 and
    186, the micro sign 181, the fractions 188..190 and the letters
    192..255 without the multiplication sign 215 and the division sign
    247. *)
Definition isalnum (c : ascii) : bool :=
  (isdigit c || between 65 90 c || between 97 122 c
   || between 170 170 c || between 181 181 c || between 186 186 c
   || between 188 190 c || between 192 214 c || between 216 246 c
   || between 248 255 c)%bool.

(** [c.lower()]: a capital letter is 32 below its small letter. *)
Definition lower_char (c : ascii) : ascii :=
  if isupper c then ascii_of_nat (code c + 32) else c.

(** [s.lower()] *)
Fixpoint lower (s : string) : string :=
  match s with
  | EmptyString => EmptyString
  | String c r => String (lower_char c) (lower r)
  end.

Definition snoc (s : string) (c : ascii) : string :=
  (s ++ String c EmptyString)%string.

Definition nonempty (s : string) : bool :=
  match s with EmptyString => false | _ => true end.

(** [s.split()]: split on runs of white space, no empty token. *)
Fixpoint split_go (tok s : string) : list string :=
  match s with
  | EmptyString => if nonempty tok then [tok] else []
  | String c r =>
      if isspace c
      then (if nonempty tok then tok :: split_go EmptyString r
            else split_go EmptyString r)
      else split_go (snoc tok c) r
  end.

Definition split (s : string) : list string := split_go EmptyString s.

(** [s.split(sep)] for a one-character separator: never empty. *)
Fixpoint split_on_go (sep : ascii) (tok s : string) : list string :=
  match s with
  | EmptyString => [tok]
  | String c r =>
      if Ascii.eqb c sep then tok :: split_on_go sep EmptyString r
      else split_on_go sep (snoc tok c) r
  end.

Definition split_on (sep : ascii) (s : string) : list string :=
  split_on_go sep EmptyString s.

Fixpoint lstrip (s : string) : string :=
  match s with
  | String c r => if isspace c then lstrip r else s
  | EmptyString => EmptyString
  end.

Fixpoint rstrip (s : string) : string :=
  match s with
  | EmptyString => EmptyString
  | String c r =>
      match rstrip r with
      | EmptyString => if isspace c then EmptyString else String c EmptyString
      | r' => String c r'
      end
  end.

(** [s.strip()] *)
Definition strip (s : string) : string := rstrip (lstrip s).

(** [sep.join(l)] *)
Definition join (sep : string) (l : list string) : string :=
  String.concat sep l.

(** [''.join(c for c in s if keep(c))] *)
Fixpoint filter_chars (keep : ascii -> bool) (s : string) : string :=
  match s with
  | EmptyString => EmptyString
  | String c r =>
      if keep c then String c (filter_chars keep r) else filter_chars keep r
  end.

Fixpoint all_chars (p : ascii -> bool) (s : string) : bool :=
  match s with
  | EmptyString => true
  | String c r => (p c && all_chars p r)%bool
  end.

(** [sub in s] *)
Fixpoint contains (sub s : string) : bool :=
  (String.prefix sub s ||
   match s with
   | EmptyString => false
   | String _ r => contains sub r
   end)%bool.

(** [s.isdigit()]: non-empty and all digits. *)
Definition str_isdigit (s : string) : bool :=
  (nonempty s && all_chars isdigit s)%bool.

(** [len(s)] *)
Definition len (s : string) : Z := Z.of_nat (String.length s).

(** [l[-1]] of a list known to be non-empty ([split_on] results). *)
Definition last_or (d : string) (l : list string) : string :=
  List.last l d.

(** [l[:n]] with Python's reading of a negative bound. *)
Definition slice_to {A} (n : Z) (l : list A) : list A :=
  if 0 <=? n then take (Z.to_nat n) l
  else take (length l - Z.to_nat (- n))%nat l.

(** [s.count(sub)]: the occurrences of [sub] met from left to right, the
    next one sought after the end of the last; [skip] characters of the
    occurrence just counted are still to be passed. *)
Fixpoint count_from (sub : string) (skip : nat) (s : string) : Z :=
  match s with
  | EmptyString => 0
  | String c r =>
      match skip with
      | S k => count_from sub k r
      | O =>
          if String.prefix sub s
          then 1 + count_from sub (String.length sub - 1) r
          else count_from sub 0 r
      end
  end.

Definition count (sub s : string) : Z :=
  if nonempty sub then count_from sub 0 s else len s + 1.

End PyStr.

(** [ORDER BY key DESC] and [sort(key=..., reverse=True)]: a stable
    insertion sort, an element going in front of the first one whose key
    is not larger than its own. *)
Fixpoint insert_desc {A} (key : A -> Z) (x : A) (l : list A) : list A :=
  match l with
  | [] => [x]
  | y :: rest =>
      if key x <? key y then y :: insert_desc key x rest
      else x :: y :: rest
  end.

Definition sort_desc {A} (key : A -> Z) (l : list A) : list A :=
  foldr (insert_desc key) [] l.

(** ** The paper model ([sources/__init__.py]) *)

Record Paper := mkPaper {
  id : string;
  title : string;
  authors : list string;
  abstract : string;
  url : string;
  pdf_url : string;
  published : string;
  source : string;
  citations : Z;
  references : list string;
  keywords : list string
}.

Record Connection := mkConnection {
  paper_a : Paper;
  paper_b : Paper;
  strength : Z;
  reason : string
}.

(** Values held by the dictionary of [to_dict]. *)
Inductive pyval :=
| PStr (s : string)
| PInt (z : Z)
| PList (l : list string).

Definition to_dict (p : Paper) : gmap string pyval :=
  <["id" := PStr (id p)]>
  (<["title" := PStr (title p)]>
  (<["authors" := PList (authors p)]>
  (<["abstract" := PStr (abstract p)]>
  (<["url" := PStr (url p)]>
  (<["pdf_url" := PStr (pdf_url p)]>
  (<["published" := PStr (published p)]>
  (<["source" := PStr (source p)]>
  (<["citations" := PInt (citations p)]>
  (<["references" := PList (references p)]>
  (<["keywords" := PList (keywords p)]> ∅)))))))))).

(** [data.get(key, default)] read at the type of the field it feeds.  A
    dataclass does not check types, so Python would store any value; the
    record cannot, and [None] marks a dictionary outside the typed model. *)
Definition get_str (d : gmap string pyval) (k dflt : string) : option string :=
  match d !! k with
  | None => Some dflt
  | Some (PStr s) => Some s
  | Some _ => None
  end.

Definition get_int (d : gmap string pyval) (k : string) (dflt : Z) : option Z :=
  match d !! k with
  | None => Some dflt
  | Some (PInt z) => Some z
  | Some _ => None
  end.

Definition get_list (d : gmap string pyval) (k : string) : option (list string) :=
  match d !! k with
  | None => Some []
  | Some (PList l) => Some l
  | Some _ => None
  end.

Definition from_dict (d : gmap string pyval) : option Paper :=
  i ← get_str d "id" EmptyString;
  t ← get_str d "title" EmptyString;
  au ← get_list d "authors";
  ab ← get_str d "abstract" EmptyString;
  u ← get_str d "url" EmptyString;
  pu ← get_str d "pdf_url" EmptyString;
  pb ← get_str d "published" EmptyString;
  so ← get_str d "source" EmptyString;
  ci ← get_int d "citations" 0;
  re ← get_list d "references";
  kw ← get_list d "keywords";
  Some (mkPaper i t au ab u pu pb so ci re kw).

(** ** Keyword extraction ([BaseSource._extract_keywords]) *)

Definition keyword_common_words : gset string :=
  list_to_set
    ["the"; "and"; "or"; "a"; "an"; "in"; "on"; "at"; "to"; "for";
     "of"; "with"; "by"; "from"; "as"; "is"; "was"; "are"; "were";
     "be"; "been"; "being"; "have"; "has"; "had"; "do"; "does"; "did";
     "will"; "would"; "could"; "should"; "may"; "might"; "must";
     "this"; "that"; "these"; "those"; "we"; "our"; "us"; "you";
     "they"; "them"; "their"; "it"; "its"; "he"; "she"; "his"; "her";
     "paper"; "study"; "research"; "method"; "methods"; "result";
     "results"; "conclusion"; "conclusions"; "using"; "based"; "new";
     "approach"; "proposed"; "analysis"; "data"; "show"; "shown"].

(** The loop body: [clean] is the word without its non-alphanumeric
    characters, kept when longer than 3 and not a common word. *)
Definition clean_word (word : string) : string :=
  PyStr.filter_chars PyStr.isalnum word.

Definition keep_keyword (clean : string) : bool :=
  (3 <? PyStr.len clean) && bool_decide (clean ∉ keyword_common_words).

Fixpoint collect_keywords (words : list string) (keywords : list string)
  : list string :=
  match words with
  | [] => keywords
  | word :: rest =>
      let clean := clean_word word in
      if keep_keyword clean
      then collect_keywords rest (keywords ++ [clean])
      else collect_keywords rest keywords
  end.

(** [return list(set(keywords))] *)
Definition _extract_keywords (text : string) : list string :=
  let words := PyStr.split (PyStr.lower text) in
  let keywords := collect_keywords words [] in
  elements (list_to_set keywords : gset string).

(** ** The connection engine ([crossref.py]) *)

Definition title_common_words : gset string :=
  list_to_set
    ["the"; "a"; "an"; "and"; "or"; "of"; "in"; "on"; "to"; "for";
     "with"; "by"; "from"; "as"; "is"; "are"; "was"; "were";
     "study"; "analysis"; "research"; "using"; "based"].

(** [{x.lower() for x in l}] *)
Definition lower_set (l : list string) : gset string :=
  list_to_set (PyStr.lower <$> l).

(** [len(s)] of a set *)
Definition set_len (s : gset string) : Z := Z.of_nat (size s).

Definition shared_authors (a b : Paper) : gset string :=
  lower_set (authors a) ∩ lower_set (authors b).

Definition shared_keywords (a b : Paper) : gset string :=
  lower_set (keywords a) ∩ lower_set (keywords b).

Definition title_words (p : Paper) : gset string :=
  list_to_set (PyStr.split (PyStr.lower (title p))) ∖ title_common_words.

Definition shared_title_words (a b : Paper) : gset string :=
  title_words a ∩ title_words b.

(** The function keeps a running [strength] and a list of [reasons]; each
    [if] below is one step on that pair. *)
Definition author_step (a b : Paper) (st : Z * list string) : Z * list string :=
  let sh := shared_authors a b in
  if bool_decide (sh ≠ ∅) then
    let author_strength := Z.min (set_len sh * 3) 7 in
    let author_names := take 3 (elements sh) in
    (st.1 + author_strength,
     st.2 ++ [("Shared authors: " ++ PyStr.join ", " author_names)%string])
  else st.

Definition keyword_step (a b : Paper) (keyword_threshold : Z)
  (st : Z * list string) : Z * list string :=
  let sh := shared_keywords a b in
  if keyword_threshold <=? set_len sh then
    let keyword_strength := Z.min (set_len sh) 5 in
    let keyword_list := take 5 (elements sh) in
    (st.1 + keyword_strength,
     st.2 ++ [("Shared keywords: " ++ PyStr.join ", " keyword_list)%string])
  else st.

Definition title_step (a b : Paper) (st : Z * list string) : Z * list string :=
  let sh := shared_title_words a b in
  if 2 <=? set_len sh then
    let title_strength := Z.min (set_len sh) 3 in
    (st.1 + title_strength,
     st.2 ++ [("Similar topics: " ++ PyStr.join ", " (take 3 (elements sh)))%string])
  else st.

Definition _calculate_connection (a b : Paper) (keyword_threshold : Z)
  : Z * string :=
  let st := title_step a b (keyword_step a b keyword_threshold
                              (author_step a b (0, []))) in
  let strength := Z.min st.1 10 in
  if strength =? 0 then (0, EmptyString)
  else (strength, PyStr.join "; " st.2).

(** [papers_by_source[paper.source].append(paper)] on the insertion-ordered
    dictionary. *)
Fixpoint group_append (d : list (string * list Paper)) (paper : Paper)
  : list (string * list Paper) :=
  match d with
  | [] => [(source paper, [paper])]
  | (s, ps) :: rest =>
      if String.eqb s (source paper) then (s, ps ++ [paper]) :: rest
      else (s, ps) :: group_append rest paper
  end.

Definition group_by_source (papers : list Paper) : list (string * list Paper) :=
  foldl group_append [] papers.

(** [papers_by_source[s]] for a key of the dictionary. *)
Fixpoint group_of (d : list (string * list Paper)) (s : string) : list Paper :=
  match d with
  | [] => []
  | (s', ps) :: rest => if String.eqb s' s then ps else group_of rest s
  end.

(** The two inner loops: every paper of [source_a] against every paper of
    [source_b], a connection appended when the strength is positive. *)
Definition compare_groups (d : list (string * list Paper))
  (keyword_threshold : Z) (source_a source_b : string) : list Connection :=
  paper_a ← group_of d source_a;
  paper_b ← group_of d source_b;
  let '(strength, reason) := _calculate_connection paper_a paper_b keyword_threshold in
  if 0 <? strength then [mkConnection paper_a paper_b strength reason] else [].

(** The two outer loops: [source_a] at position [i], [source_b] ranging
    over [sources[i+1:]]. *)
Fixpoint compare_sources (d : list (string * list Paper))
  (keyword_threshold : Z) (sources : list string) : list Connection :=
  match sources with
  | [] => []
  | source_a :: later =>
      (source_b ← later; compare_groups d keyword_threshold source_a source_b)
      ++ compare_sources d keyword_threshold later
  end.

Definition find_connections (papers : list Paper) (keyword_threshold : Z)
  : list Connection :=
  let papers_by_source := group_by_source papers in
  let sources := papers_by_source.*1 in
  sort_desc strength (compare_sources papers_by_source keyword_threshold sources).

(** [find_citation_trails]: the lookup by (id, source), filled in the order
    of the list by the papers that have an id. *)
Definition index_paper (m : gmap (string * string) Paper) (paper : Paper)
  : gmap (string * string) Paper :=
  if PyStr.nonempty (id paper) then <[(id paper, source paper) := paper]> m
  else m.

Definition index_by_id (papers : list Paper) : gmap (string * string) Paper :=
  foldl index_paper ∅ papers.

(** The innermost loop: the first source under which [ref_id] is known. *)
Fixpoint first_known (paper_by_id : gmap (string * string) Paper)
  (ref_id : string) (sources : list string) : option Paper :=
  match sources with
  | [] => None
  | source :: rest =>
      match paper_by_id !! (ref_id, source) with
      | Some cited => Some cited
      | None => first_known paper_by_id ref_id rest
      end
  end.

Definition find_citation_trails (papers : list Paper) : list (Paper * Paper) :=
  let paper_by_id := index_by_id papers in
  let sources := elements (list_to_set (source <$> papers) : gset string) in
  paper ← papers;
  ref_id ← references paper;
  match first_known paper_by_id ref_id sources with
  | Some cited => [(paper, cited)]
  | None => []
  end.

(** ** Outcomes of calls that may raise *)

Inductive exn :=
| ConnectionError   (* raised by [session.get]: no answer, timeout *)
| HTTPError         (* raised by [raise_for_status] *)
| DecodeError       (* [resp.json()] or [ET.fromstring] on a malformed body *)
| AttributeError    (* a method called on [None] *)
| TypeError         (* [None] concatenated or iterated *)
| OverflowError.    (* an [int] too large for an SQLite INTEGER *)

Inductive outcome (A : Type) :=
| Done (a : A)
| Raised (e : exn).
Arguments Done {A} a.
Arguments Raised {A} e.

Global Instance outcome_ret : MRet outcome := fun A a => Done a.
Global Instance outcome_bind : MBind outcome := fun A B f m =>
  match m with
  | Done a => f a
  | Raised e => Raised e
  end.

(** ** What the upstream services send back

    A body is read at the schema of its endpoint.  [jfield] is a key of a
    JSON object as [dict.get] sees it: absent, [null], or a value of the
    documented type.  Keys whose value the code copies into a [Paper] without
    looking at it (identifiers, links) are either absent or a string. *)

Inductive jfield (A : Type) :=
| Missing
| Null
| Has (a : A).
Arguments Missing {A}.
Arguments Null {A}.
Arguments Has {A} a.

(** [d.get(k, dflt)]: [None] is Python's [None]. *)
Definition jget {A} (f : jfield A) (dflt : A) : option A :=
  match f with
  | Missing => Some dflt
  | Null => None
  | Has a => Some a
  end.

(** [d.get(k, '') or ''] *)
Definition jget_str_or_empty (f : jfield string) : string :=
  match f with
  | Has s => s
  | _ => EmptyString
  end.

(** [a + " " + b] where [a] may be [None]. *)
Definition concat_title (t : option string) (abstract : string) : outcome string :=
  match t with
  | Some t => Done (t ++ " " ++ abstract)%string
  | None => Raised TypeError
  end.

(** An XML element by its [.text] ([None] for an element without text);
    [find] gives [None] when there is no such child. *)
Definition xml_elem := option string.

Record AtomEntry := mkAtomEntry {
  atom_title : option xml_elem;
  atom_summary : option xml_elem;
  atom_id : option xml_elem;
  atom_published : option xml_elem;
  atom_authors : list (option xml_elem);    (* each author: its name child *)
  atom_categories : list (option string)    (* each category: its term attribute *)
}.

Record AuthorJson := mkAuthorJson { author_name : jfield string }.

Record SemItem := mkSemItem {
  sem_paperId : option string;
  sem_title : jfield string;
  sem_abstract : jfield string;
  sem_url : option string;
  sem_openAccessPdf : jfield (option string);   (* the object, by its url key *)
  sem_year : jfield Z;
  sem_authors : jfield (list AuthorJson);
  sem_citationCount : jfield Z
}.

Record RxivItem := mkRxivItem {
  rx_doi : option string;
  rx_title : jfield string;
  rx_abstract : jfield string;
  rx_authors : jfield string;
  rx_date : jfield string
}.

Record ArticleId := mkArticleId {
  aid_idtype : option string;
  aid_value : option string
}.

Record SummaryDoc := mkSummaryDoc {
  doc_title : jfield string;
  doc_authors : jfield (list AuthorJson);
  doc_pubdate : jfield string;
  doc_articleids : jfield (list ArticleId)
}.

Record PubmedArticle := mkPubmedArticle {
  art_pmid : option xml_elem;
  art_abstract : option xml_elem
}.

Inductive Body :=
| AtomFeed (entries : list AtomEntry)
| SemSearchJson (data : jfield (list SemItem))
| SemRefsJson (data : jfield (list (jfield SemItem)))   (* items by citedPaper *)
| RxivJson (collection : jfield (list RxivItem))
| ESearchJson (esearchresult : jfield (jfield (list string)))   (* by idlist *)
| ESummaryJson (result : jfield (gmap string (option SummaryDoc)))   (* [None]: null *)
| EFetchXml (articles : list PubmedArticle)
| Malformed.

Record Request := mkRequest {
  req_url : string;
  req_params : list (string * string)
}.

Inductive Response :=
| NoResponse                               (* [session.get] raises *)
| Resp (status_code : Z) (body : Body).

(** ** The cache tables ([cache.py]) and the outside world

    Time stamps are the ISO strings of [datetime.now().isoformat()], which
    SQLite compares as text; [isoformat] writes the year with four digits,
    so that is the order of the instants, and a time stamp is modelled as a
    number of microseconds. *)

Record PaperRow := mkPaperRow {
  row_title : string;
  row_authors : option (list string);      (* JSON text; [None]: NULL or empty *)
  row_abstract : option string;
  row_url : option string;
  row_pdf_url : option string;
  row_published : option string;
  row_citations : option Z;
  row_references : option (list string);
  row_keywords : option (list string);
  fetched_at : Z
}.

Record QueryRow := mkQueryRow {
  q_query : string;
  q_source : string;
  q_max_results : Z;
  q_timestamp : Z;
  q_result_count : Z
}.

Record World := mkWorld {
  net : nat -> Request -> Response;   (* the answer to the n-th request *)
  clock : nat -> Z;                   (* the n-th reading of [datetime.now()] *)
  requests : list Request;            (* requests issued so far *)
  ticks : nat;                        (* clock readings so far *)
  papers_table : gmap (string * string) PaperRow;   (* key (id, source) *)
  queries_table : list QueryRow       (* append-only, in order of insertion *)
}.

Definition set_requests (w : World) (r : list Request) : World :=
  mkWorld (net w) (clock w) r (ticks w) (papers_table w) (queries_table w).
Definition set_ticks (w : World) (n : nat) : World :=
  mkWorld (net w) (clock w) (requests w) n (papers_table w) (queries_table w).
Definition set_papers_table (w : World) (t : gmap (string * string) PaperRow) : World :=
  mkWorld (net w) (clock w) (requests w) (ticks w) t (queries_table w).
Definition set_queries_table (w : World) (q : list QueryRow) : World :=
  mkWorld (net w) (clock w) (requests w) (ticks w) (papers_table w) q.

(** [datetime.now()] *)
Definition datetime_now (w : World) : Z * World :=
  (clock w (ticks w), set_ticks w (S (ticks w))).

(** [session.get(url, params=..., timeout=...)] *)
Definition session_get (req : Request) (w : World) : outcome (Z * Body) * World :=
  let w' := set_requests w (requests w ++ [req]) in
  match net w (length (requests w)) req with
  | NoResponse => (Raised ConnectionError, w')
  | Resp st b => (Done (st, b), w')
  end.

(** [resp.raise_for_status()] *)
Definition raise_for_status (resp : Z * Body) : outcome unit :=
  if (400 <=? resp.1) && (resp.1 <? 600) then Raised HTTPError else Done ().

Module Cache.

Definition microseconds_per_hour : Z := 3600000000.

Definition paper_row (paper : Paper) (now : Z) : PaperRow :=
  mkPaperRow (title paper) (Some (authors paper)) (Some (abstract paper))
    (Some (url paper)) (Some (pdf_url paper)) (Some (published paper))
    (Some (citations paper)) (Some (references paper)) (Some (keywords paper))
    now.

(** An [int] that can be bound to a parameter of a statement: SQLite holds
    64-bit integers, and the binding of any other raises [OverflowError]. *)
Definition sqlite_int (z : Z) : bool := (- 2 ^ 63 <=? z) && (z <? 2 ^ 63).

(** The loop of [save_papers]: [INSERT OR REPLACE] of each paper, with its
    own reading of the clock.  The tuple of parameters is built, and the
    clock read, before the statement is run; the binding of
    [paper.citations] is what may raise. *)
Fixpoint insert_papers (papers : list Paper) (w : World) : outcome unit * World :=
  match papers with
  | [] => (Done (), w)
  | paper :: rest =>
      let '(now, w) := datetime_now w in
      if sqlite_int (citations paper)
      then insert_papers rest
             (set_papers_table w
                (<[(id paper, source paper) := paper_row paper now]> (papers_table w)))
      else (Raised OverflowError, w)
  end.

(** [with sqlite3.connect(...) as conn]: the rows are committed at the end
    of the loop; an exception leaves the block, which rolls back what the
    loop has inserted. *)
Definition save_papers (papers : list Paper) (w : World) : outcome unit * World :=
  match insert_papers papers w with
  | (Done _, w') => (Done (), w')
  | (Raised e, w') => (Raised e, set_papers_table w' (papers_table w))
  end.

Definition record_query (query source : string) (max_results result_count : Z)
  (w : World) : outcome unit * World :=
  let '(now, w) := datetime_now w in
  if sqlite_int max_results && sqlite_int result_count
  then (Done (),
        set_queries_table w
          (queries_table w ++ [mkQueryRow query source max_results now result_count]))
  else (Raised OverflowError, w).

(** [x or ''], [x or 0], [json.loads(x) if x else []] *)
Definition or_empty (x : option string) : string := default EmptyString x.
Definition or_zero (x : option Z) : Z := default 0 x.
Definition loads_or_empty (x : option (list string)) : list string := default [] x.

Definition _row_to_paper (row : (string * string) * PaperRow) : Paper :=
  let '((row_id, row_source), r) := row in
  mkPaper row_id (row_title r) (loads_or_empty (row_authors r))
    (or_empty (row_abstract r)) (or_empty (row_url r))
    (or_empty (row_pdf_url r)) (or_empty (row_published r)) row_source
    (or_zero (row_citations r)) (loads_or_empty (row_references r))
    (loads_or_empty (row_keywords r)).

(** [WHERE query = ? AND source = ? AND timestamp > ?] *)
Definition query_matches (query source : string) (cutoff : Z) (q : QueryRow) : bool :=
  String.eqb (q_query q) query && String.eqb (q_source q) source
  && (cutoff <? q_timestamp q).

(** [WHERE source = ? AND fetched_at > ?] *)
Definition paper_matches (source : string) (cutoff : Z)
  (row : (string * string) * PaperRow) : bool :=
  String.eqb row.1.2 source && (cutoff <? fetched_at row.2).

Definition select_papers (source : string) (cutoff : Z) (w : World)
  : list ((string * string) * PaperRow) :=
  sort_desc (fun row => fetched_at row.2)
    (List.filter (paper_matches source cutoff) (map_to_list (papers_table w))).

Definition get_cached (query source : string) (max_age_hours : Z) (w : World)
  : option (list Paper) * World :=
  let '(now, w) := datetime_now w in
  let cutoff := now - max_age_hours * microseconds_per_hour in
  if negb (existsb (query_matches query source cutoff) (queries_table w))
  then (None, w)
  else
    match select_papers source cutoff w with
    | [] => (None, w)
    | rows => (Some (_row_to_paper <$> rows), w)
    end.

Definition get_paper_by_id (paper_id source : string) (w : World)
  : option Paper :=
  match papers_table w !! (paper_id, source) with
  | Some row => Some (_row_to_paper ((paper_id, source), row))
  | None => None
  end.

(** [LIMIT ?]: a negative bound is no bound. *)
Definition sql_limit {A} (limit : Z) (rows : list A) : list A :=
  if limit <? 0 then rows else take (Z.to_nat limit) rows.

Definition get_all_papers (limit : Z) (w : World) : outcome (list Paper) :=
  if sqlite_int limit
  then Done (_row_to_paper <$>
               sql_limit limit
                 (sort_desc (fun row => fetched_at row.2)
                    (map_to_list (papers_table w))))
  else Raised OverflowError.

Definition clear_cache (w : World) : World :=
  set_queries_table (set_papers_table w ∅) [].

Record Stats := mkStats {
  total_papers : Z;
  total_queries : Z;
  by_source : gmap string Z;
  db_path : string
}.

(** [SELECT source, COUNT( * ) FROM papers GROUP BY source], row by row. *)
Definition count_row (row : (string * string) * PaperRow) (acc : gmap string Z)
  : gmap string Z :=
  <[row.1.2 := default 0 (acc !! row.1.2) + 1]> acc.

Definition get_stats (self_db_path : string) (w : World) : Stats :=
  mkStats (Z.of_nat (size (papers_table w)))
    (Z.of_nat (length (queries_table w)))
    (foldr count_row ∅ (map_to_list (papers_table w)))
    self_db_path.

End Cache.

(** ** The adapters ([sources/*.py]) *)

(** A [for] loop that parses each item and appends the paper to [papers]:
    an exception leaves the loop, and the papers appended so far stay in
    the list. *)
Fixpoint append_parsed {A} (parse : A -> outcome Paper) (items : list A)
  (papers : list Paper) : list Paper * outcome unit :=
  match items with
  | [] => (papers, Done ())
  | item :: rest =>
      match parse item with
      | Done paper => append_parsed parse rest (papers ++ [paper])
      | Raised e => (papers, Raised e)
      end
  end.

(** [elem.text.strip() if elem is not None else dflt] *)
Definition text_strip_or (e : option xml_elem) (dflt : string) : outcome string :=
  match e with
  | None => Done dflt
  | Some (Some text) => Done (PyStr.strip text)
  | Some None => Raised AttributeError
  end.

(** The authors of a JSON record: [for author in d.get("authors", [])],
    keeping each non-empty [author.get('name', '')]. *)
Definition author_names (f : jfield (list AuthorJson)) : outcome (list string) :=
  match jget f [] with
  | None => Raised TypeError
  | Some l =>
      Done (omap (fun a => match author_name a with
                           | Has n => if PyStr.nonempty n then Some n else None
                           | _ => None
                           end) l)
  end.

Module ArXivSource.

Definition API_URL : string := "https://export.arxiv.org/api/query".

Fixpoint entry_authors (l : list (option xml_elem)) : outcome (list string) :=
  match l with
  | [] => Done []
  | None :: rest => entry_authors rest
  | Some None :: _ => Raised AttributeError
  | Some (Some text) :: rest =>
      names ← entry_authors rest; Done (PyStr.strip text :: names)
  end.

Definition entry_categories (l : list (option string)) : list string :=
  omap (fun term => match term with
                    | Some t => if PyStr.nonempty t then Some (PyStr.lower t) else None
                    | None => None
                    end) l.

Definition _parse_entry (entry : AtomEntry) : outcome Paper :=
  title ← text_strip_or (atom_title entry) "Unknown";
  abstract ← text_strip_or (atom_summary entry) EmptyString;
  url ← text_strip_or (atom_id entry) EmptyString;
  let arxiv_id :=
    if PyStr.nonempty url then PyStr.last_or EmptyString (PyStr.split_on "/" url)
    else EmptyString in
  let arxiv_id :=
    if PyStr.contains "v" arxiv_id
    then List.hd EmptyString (PyStr.split_on "v" arxiv_id)
    else arxiv_id in
  let pdf_url :=
    if PyStr.nonempty arxiv_id
    then ("https://arxiv.org/pdf/" ++ arxiv_id ++ ".pdf")%string
    else EmptyString in
  published ← text_strip_or (atom_published entry) EmptyString;
  authors ← entry_authors (atom_authors entry);
  let keywords := entry_categories (atom_categories entry) in
  let text_keywords := _extract_keywords (title ++ " " ++ abstract) in
  let keywords :=
    keywords ++ List.filter (fun k => bool_decide (k ∉ keywords)) text_keywords in
  Done (mkPaper arxiv_id title authors abstract url pdf_url published
          "arxiv" 0 [] (take 20 keywords)).

Definition search_request (query : string) (limit : Z) : Request :=
  let search_query :=
    if PyStr.nonempty query then ("all:" ++ query)%string else "all" in
  mkRequest API_URL
    [("search_query", search_query); ("start", "0");
     ("max_results", pretty limit); ("sortBy", "submittedDate");
     ("sortOrder", "descending")].

(** [ET.fromstring(resp.text)] and [root.findall("atom:entry", ns)] *)
Definition feed_entries (resp : Z * Body) : outcome (list AtomEntry) :=
  match resp.2 with
  | AtomFeed entries => Done entries
  | _ => Raised DecodeError
  end.

Definition search (query : string) (limit : Z) (w : World)
  : outcome (list Paper) * World :=
  let papers := [] in
  let '(got, w) := session_get (search_request query limit) w in
  match (resp ← got; _ ← raise_for_status resp; feed_entries resp) with
  | Done entries => (Done (append_parsed _parse_entry entries papers).1, w)
  | Raised _ => (Done papers, w)
  end.

Definition fetch_references (paper : Paper) (w : World)
  : outcome (list Paper) * World :=
  (Done [], w).

End ArXivSource.

Module SemanticScholarSource.

Definition BASE_URL : string := "https://api.semanticscholar.org/graph/v1".

(** [if d:] for a JSON object: it has a key. *)
Definition item_nonempty (d : SemItem) : bool :=
  match d with
  | mkSemItem None Missing Missing None Missing Missing Missing Missing => false
  | _ => true
  end.

Definition _parse_paper (data : SemItem) : outcome Paper :=
  let paper_id := default EmptyString (sem_paperId data) in
  let title := jget (sem_title data) "Unknown" in
  let abstract := jget_str_or_empty (sem_abstract data) in
  let url := default EmptyString (sem_url data) in
  let url :=
    if negb (PyStr.nonempty url) && PyStr.nonempty paper_id
    then ("https://www.semanticscholar.org/paper/" ++ paper_id)%string
    else url in
  let pdf_url :=
    match sem_openAccessPdf data with
    | Has (Some u) => u
    | _ => EmptyString
    end in
  let published :=
    match sem_year data with
    | Has year => if year =? 0 then EmptyString else (pretty year ++ "-01-01")%string
    | _ => EmptyString
    end in
  authors ← author_names (sem_authors data);
  let citations :=
    match sem_citationCount data with
    | Has c => c
    | _ => 0
    end in
  text ← concat_title title abstract;
  let keywords := _extract_keywords text in
  Done (mkPaper paper_id (default EmptyString title) authors abstract url
          pdf_url published "semantic_scholar" citations [] (take 20 keywords)).

Definition search_request (query : string) (limit : Z) : Request :=
  mkRequest (BASE_URL ++ "/paper/search")
    [("query", query);
     ("fields", "paperId,title,authors,year,abstract,url,openAccessPdf,citationCount,referenceCount");
     ("limit", pretty limit)].

(** [resp.json()] and [data.get("data", [])] *)
Definition search_items (resp : Z * Body) : outcome (list SemItem) :=
  match resp.2 with
  | SemSearchJson data =>
      match jget data [] with
      | Some items => Done items
      | None => Raised TypeError
      end
  | _ => Raised DecodeError
  end.

Definition search (query : string) (limit : Z) (w : World)
  : outcome (list Paper) * World :=
  let papers := [] in
  let '(got, w) := session_get (search_request query limit) w in
  match got with
  | Done resp =>
      if resp.1 =? 200 then
        match search_items resp with
        | Done items => (Done (append_parsed _parse_paper items papers).1, w)
        | Raised _ => (Done papers, w)
        end
      else (Done papers, w)
  | Raised _ => (Done papers, w)
  end.

Definition refs_request (paper : Paper) : Request :=
  mkRequest (BASE_URL ++ "/paper/" ++ id paper ++ "/references")
    [("fields", "paperId,title,authors,year,abstract,url,openAccessPdf,citationCount");
     ("limit", "20")].

Definition refs_items (resp : Z * Body) : outcome (list (jfield SemItem)) :=
  match resp.2 with
  | SemRefsJson data =>
      match jget data [] with
      | Some items => Done items
      | None => Raised TypeError
      end
  | _ => Raised DecodeError
  end.

(** [cited_paper = item.get("citedPaper")], parsed when it is a non-empty
    object. *)
Fixpoint append_cited (items : list (jfield SemItem)) (papers : list Paper)
  : list Paper * outcome unit :=
  match items with
  | [] => (papers, Done ())
  | Has cited_paper :: rest =>
      if item_nonempty cited_paper then
        match _parse_paper cited_paper with
        | Done parsed => append_cited rest (papers ++ [parsed])
        | Raised e => (papers, Raised e)
        end
      else append_cited rest papers
  | _ :: rest => append_cited rest papers
  end.

Definition fetch_references (paper : Paper) (w : World)
  : outcome (list Paper) * World :=
  if negb (PyStr.nonempty (id paper)) then (Done [], w)
  else
    let papers := [] in
    let '(got, w) := session_get (refs_request paper) w in
    match got with
    | Done resp =>
        if resp.1 =? 200 then
          match refs_items resp with
          | Done items => (Done (append_cited items papers).1, w)
          | Raised _ => (Done papers, w)
          end
        else (Done papers, w)
    | Raised _ => (Done papers, w)
    end.

End SemanticScholarSource.

Module BioRxivSource.

Definition DETAILS_URL : string := "https://api.biorxiv.org/details".

Definition microseconds_per_day : Z := 86400000000.

(** [datetime.strptime(s, "%Y-%m-%d")]: four digits, a month and a day of
    one or two digits (the day also as a blank and a digit), a date of the
    calendar; [None] is [ValueError]. *)
Definition digit_val (c : ascii) : Z := Z.of_nat (PyStr.code c - 48).

Fixpoint digits_val (acc : Z) (s : string) : Z :=
  match s with
  | EmptyString => acc
  | String c r => digits_val (10 * acc + digit_val c) r
  end.

Definition digits_of_length (n : nat) (s : string) : bool :=
  Nat.eqb (String.length s) n && PyStr.all_chars PyStr.isdecimal s.

Definition parse_year (s : string) : option Z :=
  if digits_of_length 4 s then Some (digits_val 0 s) else None.

Definition parse_month (s : string) : option Z :=
  if digits_of_length 1 s || digits_of_length 2 s then
    let v := digits_val 0 s in
    if (1 <=? v) && (v <=? 12) then Some v else None
  else None.

Definition parse_day (s : string) : option Z :=
  let s := match s with
           | String " " (String c EmptyString) => String c EmptyString
           | _ => s
           end in
  if digits_of_length 1 s || digits_of_length 2 s then
    let v := digits_val 0 s in
    if (1 <=? v) && (v <=? 31) then Some v else None
  else None.

Definition is_leap (y : Z) : bool :=
  ((y mod 4 =? 0) && negb (y mod 100 =? 0)) || (y mod 400 =? 0).

Definition days_in_month (y m : Z) : Z :=
  if m =? 2 then (if is_leap y then 29 else 28)
  else if (m =? 4) || (m =? 6) || (m =? 9) || (m =? 11) then 30
  else 31.

Definition strptime_ymd (s : string) : option (Z * Z * Z) :=
  match PyStr.split_on "-" s with
  | [ys; ms; ds] =>
      y ← parse_year ys;
      m ← parse_month ms;
      d ← parse_day ds;
      if (1 <=? y) && (d <=? days_in_month y m) then Some (y, m, d) else None
  | _ => None
  end.

Fixpoint zeros (n : nat) : string :=
  match n with
  | O => EmptyString
  | S k => String "0" (zeros k)
  end.

Definition zero_pad (width : nat) (z : Z) : string :=
  let s := pretty z in
  (zeros (width - String.length s) ++ s)%string.

(** [dt.strftime("%Y-%m-%d")]; the C library of Linux writes a year below
    1000 without leading zeros. *)
Definition strftime_ymd (dt : Z * Z * Z) : string :=
  let '(y, m, d) := dt in
  (pretty y ++ "-" ++ zero_pad 2 m ++ "-" ++ zero_pad 2 d)%string.

Fixpoint stripped_names (l : list string) : list string :=
  match l with
  | [] => []
  | name :: rest =>
      let name := PyStr.strip name in
      if PyStr.nonempty name then name :: stripped_names rest
      else stripped_names rest
  end.

Definition _parse_paper (data : RxivItem) (server : string) : outcome Paper :=
  let doi := default EmptyString (rx_doi data) in
  let title := jget (rx_title data) "Unknown" in
  let abstract := jget_str_or_empty (rx_abstract data) in
  let authors :=
    match rx_authors data with
    | Has author_string =>
        if PyStr.nonempty author_string
        then stripped_names (PyStr.split_on ";" author_string)
        else []
    | _ => []
    end in
  let published :=
    match rx_date data with
    | Has date_str =>
        if PyStr.nonempty date_str then
          match strptime_ymd date_str with
          | Some dt => strftime_ymd dt
          | None => date_str
          end
        else EmptyString
    | _ => EmptyString
    end in
  let url :=
    if PyStr.nonempty doi
    then ("https://www." ++ server ++ ".org/content/" ++ doi)%string
    else EmptyString in
  let pdf_url :=
    if PyStr.nonempty doi
    then ("https://www." ++ server ++ ".org/content/" ++ doi ++ ".full.pdf")%string
    else EmptyString in
  text ← concat_title title abstract;
  let keywords := _extract_keywords text in
  Done (mkPaper doi (default EmptyString title) authors abstract url pdf_url
          published server 0 [] (take 20 keywords)).

(** The filter of the loop: [query_lower not in text] sends the loop to
    [continue]. *)
Definition matches_query (query_lower : string) (item : RxivItem) : outcome bool :=
  let title := jget (rx_title item) EmptyString in
  let abstract := jget_str_or_empty (rx_abstract item) in
  if PyStr.nonempty query_lower then
    text ← concat_title title abstract;
    Done (PyStr.contains query_lower (PyStr.lower text))
  else Done true.

(** The loop of [_fetch_from_server]: [continue] on a filtered item, [break]
    once [len(papers) >= limit] after an append. *)
Fixpoint collect (query_lower server : string) (limit : Z)
  (collection : list RxivItem) (papers : list Paper)
  : list Paper * outcome unit :=
  match collection with
  | [] => (papers, Done ())
  | item :: rest =>
      match matches_query query_lower item with
      | Raised e => (papers, Raised e)
      | Done false => collect query_lower server limit rest papers
      | Done true =>
          match _parse_paper item server with
          | Raised e => (papers, Raised e)
          | Done paper =>
              let papers := papers ++ [paper] in
              if limit <=? Z.of_nat (length papers) then (papers, Done ())
              else collect query_lower server limit rest papers
          end
      end
  end.

(** The path of the request carries the two dates as YYYY-MM-DD; they are
    kept here as the instants they come from. *)
Definition details_request (server : string) (start_date end_date : Z) : Request :=
  mkRequest (DETAILS_URL ++ "/" ++ server)
    [("start", pretty start_date); ("end", pretty end_date)].

Definition details_collection (resp : Z * Body) : outcome (list RxivItem) :=
  match resp.2 with
  | RxivJson collection =>
      match jget collection [] with
      | Some items => Done items
      | None => Raised TypeError
      end
  | _ => Raised DecodeError
  end.

Definition _fetch_from_server (server : string) (start_date end_date : Z)
  (query : string) (limit : Z) (w : World) : list Paper * World :=
  let papers := [] in
  let '(got, w) := session_get (details_request server start_date end_date) w in
  match (resp ← got; _ ← raise_for_status resp; details_collection resp) with
  | Done collection =>
      let query_lower :=
        if PyStr.nonempty query then PyStr.lower query else EmptyString in
      ((collect query_lower server limit collection papers).1, w)
  | Raised _ => (papers, w)
  end.

Definition search (query : string) (limit : Z) (w : World)
  : outcome (list Paper) * World :=
  let papers := [] in
  let '(end_date, w) := datetime_now w in
  let start_date := end_date - 365 * microseconds_per_day in
  let '(found, w) := _fetch_from_server "biorxiv" start_date end_date query limit w in
  let papers := papers ++ found in
  if Z.of_nat (length papers) <? limit then
    let remaining := limit - Z.of_nat (length papers) in
    let '(found, w) :=
      _fetch_from_server "medrxiv" start_date end_date query remaining w in
    (Done (PyStr.slice_to limit (papers ++ found)), w)
  else (Done (PyStr.slice_to limit papers), w).

Definition fetch_references (paper : Paper) (w : World)
  : outcome (list Paper) * World :=
  (Done [], w).

End BioRxivSource.

Module PubMedSource.

Definition ESEARCH_URL : string :=
  "https://eutils.ncbi.nlm.nih.gov/entrez/eutils/esearch.fcgi".
Definition ESUMMARY_URL : string :=
  "https://eutils.ncbi.nlm.nih.gov/entrez/eutils/esummary.fcgi".
Definition EFETCH_URL : string :=
  "https://eutils.ncbi.nlm.nih.gov/entrez/eutils/efetch.fcgi".
Definition tool : string := "synapsescanner".
Definition email : string := "user@synapsescanner.local".

Definition doc_nonempty (d : SummaryDoc) : bool :=
  match d with
  | mkSummaryDoc Missing Missing Missing Missing => false
  | _ => true
  end.

(** The first article id of type doi, by its value. *)
Fixpoint first_doi (l : list ArticleId) : string :=
  match l with
  | [] => EmptyString
  | aid :: rest =>
      if bool_decide (aid_idtype aid = Some "doi")
      then default EmptyString (aid_value aid)
      else first_doi rest
  end.

Definition _parse_paper (pmid : string) (doc : SummaryDoc) (abstract : string)
  : outcome Paper :=
  let title := jget (doc_title doc) "Unknown" in
  authors ← author_names (doc_authors doc);
  let published :=
    match doc_pubdate doc with
    | Has pubdate =>
        match PyStr.split pubdate with
        | year :: _ =>
            if PyStr.str_isdigit year && (PyStr.len year =? 4)
            then (year ++ "-01-01")%string else EmptyString
        | [] => EmptyString
        end
    | _ => EmptyString
    end in
  article_ids ← match jget (doc_articleids doc) [] with
                | Some l => Done l
                | None => Raised TypeError
                end;
  let doi := first_doi article_ids in
  let url := ("https://pubmed.ncbi.nlm.nih.gov/" ++ pmid ++ "/")%string in
  let pdf_url :=
    if PyStr.nonempty doi then ("https://doi.org/" ++ doi)%string
    else EmptyString in
  text ← concat_title title abstract;
  let keywords := _extract_keywords text in
  Done (mkPaper pmid (default EmptyString title) authors abstract url pdf_url
          published "pubmed" 0 [] (take 20 keywords)).

Definition search_request (query : string) (limit : Z) : Request :=
  mkRequest ESEARCH_URL
    [("db", "pubmed"); ("term", query); ("retmax", pretty limit);
     ("retmode", "json"); ("tool", tool); ("email", email)].

Definition summary_request (idlist : list string) : Request :=
  mkRequest ESUMMARY_URL
    [("db", "pubmed"); ("id", PyStr.join "," idlist);
     ("retmode", "json"); ("tool", tool); ("email", email)].

Definition fetch_request (pmids : list string) : Request :=
  mkRequest EFETCH_URL
    [("db", "pubmed"); ("id", PyStr.join "," pmids);
     ("retmode", "xml"); ("tool", tool); ("email", email)].

(** [data.get("esearchresult", {}).get("idlist", [])]; [None] is the value
    [None], which the caller finds empty. *)
Definition search_idlist (resp : Z * Body) : outcome (option (list string)) :=
  match resp.2 with
  | ESearchJson esearchresult =>
      match esearchresult with
      | Missing => Done (Some [])
      | Null => Raised AttributeError
      | Has idlist => Done (jget idlist [])
      end
  | _ => Raised DecodeError
  end.

Definition summary_json (resp : Z * Body)
  : outcome (jfield (gmap string (option SummaryDoc))) :=
  match resp.2 with
  | ESummaryJson result => Done result
  | _ => Raised DecodeError
  end.

(** [summary_data.get("result", {}).get(pmid, {})]: [None] stands for a
    value the caller finds empty. *)
Definition summary_doc (result : jfield (gmap string (option SummaryDoc)))
  (pmid : string) : outcome (option SummaryDoc) :=
  match result with
  | Missing => Done None
  | Null => Raised AttributeError
  | Has docs =>
      match docs !! pmid with
      | Some (Some doc) => Done (if doc_nonempty doc then Some doc else None)
      | _ => Done None
      end
  end.

Definition fetch_articles (resp : Z * Body) : outcome (list PubmedArticle) :=
  match resp.2 with
  | EFetchXml articles => Done articles
  | _ => Raised DecodeError
  end.

(** The loop of [_fetch_abstracts]: an article without PMID element is
    skipped; a non-empty abstract text is stored under the PMID text. *)
Fixpoint collect_abstracts (articles : list PubmedArticle)
  (abstracts : gmap string string) : gmap string string :=
  match articles with
  | [] => abstracts
  | article :: rest =>
      match art_pmid article, art_abstract article with
      | Some (Some pmid), Some (Some text) =>
          if PyStr.nonempty text
          then collect_abstracts rest (<[pmid := text]> abstracts)
          else collect_abstracts rest abstracts
      | _, _ => collect_abstracts rest abstracts
      end
  end.

Definition _fetch_abstracts (pmids : list string) (w : World)
  : gmap string string * World :=
  let abstracts := ∅ in
  let '(got, w) := session_get (fetch_request pmids) w in
  match (resp ← got; _ ← raise_for_status resp; fetch_articles resp) with
  | Done articles => (collect_abstracts articles abstracts, w)
  | Raised _ => (abstracts, w)
  end.

(** The loop over [idlist]: a PMID without a non-empty summary is skipped. *)
Fixpoint append_docs (result : jfield (gmap string (option SummaryDoc)))
  (abstracts : gmap string string) (idlist : list string)
  (papers : list Paper) : list Paper * outcome unit :=
  match idlist with
  | [] => (papers, Done ())
  | pmid :: rest =>
      match summary_doc result pmid with
      | Raised e => (papers, Raised e)
      | Done None => append_docs result abstracts rest papers
      | Done (Some doc) =>
          match _parse_paper pmid doc (default EmptyString (abstracts !! pmid)) with
          | Done paper => append_docs result abstracts rest (papers ++ [paper])
          | Raised e => (papers, Raised e)
          end
      end
  end.

Definition search (query : string) (limit : Z) (w : World)
  : outcome (list Paper) * World :=
  let papers := [] in
  let '(got, w) := session_get (search_request query limit) w in
  match (resp ← got; _ ← raise_for_status resp; search_idlist resp) with
  | Raised _ => (Done papers, w)
  | Done None | Done (Some []) => (Done papers, w)
  | Done (Some idlist) =>
      let '(got, w) := session_get (summary_request idlist) w in
      match (resp ← got; _ ← raise_for_status resp; summary_json resp) with
      | Raised _ => (Done papers, w)
      | Done summary_data =>
          let '(abstracts, w) := _fetch_abstracts idlist w in
          (Done (append_docs summary_data abstracts idlist papers).1, w)
      end
  end.

Definition fetch_references (paper : Paper) (w : World)
  : outcome (list Paper) * World :=
  (Done [], w).

End PubMedSource.

(** ** The adapter interface and the registry *)

Record BaseSource := mkSource {
  name : string;
  search : string -> Z -> World -> outcome (list Paper) * World;
  fetch_references : Paper -> World -> outcome (list Paper) * World
}.

(** The four classes, by their constructors. *)
Definition ArXivSource_class (name : string) : BaseSource :=
  mkSource name ArXivSource.search ArXivSource.fetch_references.
Definition SemanticScholarSource_class (name : string) : BaseSource :=
  mkSource name SemanticScholarSource.search SemanticScholarSource.fetch_references.
Definition PubMedSource_class (name : string) : BaseSource :=
  mkSource name PubMedSource.search PubMedSource.fetch_references.
Definition BioRxivSource_class (name : string) : BaseSource :=
  mkSource name BioRxivSource.search BioRxivSource.fetch_references.

Definition register_source (name : string) (source_class : string -> BaseSource)
  (registry : gmap string (string -> BaseSource))
  : gmap string (string -> BaseSource) :=
  <[name := source_class]> registry.

(** The registry once the four adapter modules have run their last line. *)
Definition SOURCE_REGISTRY : gmap string (string -> BaseSource) :=
  register_source "pubmed" PubMedSource_class
    (register_source "biorxiv" BioRxivSource_class
       (register_source "semantic_scholar" SemanticScholarSource_class
          (register_source "arxiv" ArXivSource_class ∅))).

Definition get_source (registry : gmap string (string -> BaseSource))
  (name : string) : option BaseSource :=
  match registry !! name with
  | Some source_class => Some (source_class name)
  | None => None
  end.

(** [list(SOURCE_REGISTRY.keys())]; Python gives the names in the order of
    registration, the map in its own. *)
Definition list_sources (registry : gmap string (string -> BaseSource))
  : list string :=
  (map_to_list registry).*1.

(** ** The scan ([universal_scanner.py]) *)

(** The modules of the package [synapsescanner] that the guarded imports at
    the top of the file ask for. *)
Definition package_modules : list string :=
  ["synapsescanner.cli_extras"; "synapsescanner.sources";
   "synapsescanner.cache"; "synapsescanner.config";
   "synapsescanner.crossref"; "synapsescanner.ai";
   "synapsescanner.exporters.obsidian"; "synapsescanner.exporters.json"].

(** [from module import ...] succeeds for a module that exists. *)
Definition import_ok (module : string) : bool :=
  bool_decide (module ∈ package_modules).

(** The first [try] block: three imports, then [CACHE_AVAILABLE = True];
    [except ImportError: CACHE_AVAILABLE = False].  The third import names
    the package [synapscescanner], which is not the package of the second
    and does not exist, so the flag is [False] in the module as it is
    written. *)
Definition CACHE_AVAILABLE : bool :=
  import_ok "synapsescanner.sources" && import_ok "synapsescanner.cache"
  && import_ok "synapscescanner.config".

Definition paper_key (p : Paper) : string * string := (id p, source p).

(** The two writes of a scan to the cache, one after the other:
    [cache.save_papers(papers)] and [cache.record_query(query, source_name,
    limit, len(papers))]. *)
Definition cache_writes (query source_name : string) (limit : Z)
  (papers : list Paper) (w : World) : outcome unit * World :=
  match Cache.save_papers papers w with
  | (Done _, w) =>
      Cache.record_query query source_name limit (Z.of_nat (length papers)) w
  | (Raised e, w) => (Raised e, w)
  end.

Section Scanner.

Variable registry : gmap string (string -> BaseSource).

(** The functions read the module global [CACHE_AVAILABLE] when they run;
    they take its value as the parameter [cache_available], so that what a
    scan does can be stated for [CACHE_AVAILABLE], the value the module
    computes, and for [true], the value the calls to the cache are written
    for. *)
Variable cache_available : bool.

Fixpoint fetch_loop (query : string) (limit : Z) (use_cache : bool)
  (sources : list string) (all_papers : list Paper) (w : World)
  : list Paper * World :=
  match sources with
  | [] => (all_papers, w)
  | source_name :: rest =>
      match get_source registry source_name with
      | None => fetch_loop query limit use_cache rest all_papers w
      | Some source =>
          let '(cached, w) :=
            if use_cache && cache_available
            then Cache.get_cached query source_name 24 w
            else (None, w) in
          match cached with
          | Some (paper :: more) =>
              fetch_loop query limit use_cache rest
                (all_papers ++ paper :: more) w
          | _ =>
              (* the [try] block: the search, the writes to the cache, and
                 only then [all_papers.extend(papers)] *)
              match search source query limit w with
              | (Done papers, w) =>
                  let '(written, w) :=
                    if use_cache && cache_available
                    then cache_writes query source_name limit papers w
                    else (Done (), w) in
                  match written with
                  | Done _ =>
                      fetch_loop query limit use_cache rest (all_papers ++ papers) w
                  | Raised _ =>
                      fetch_loop query limit use_cache rest all_papers w
                  end
              | (Raised _, w) =>
                  fetch_loop query limit use_cache rest all_papers w
              end
          end
      end
  end.

Definition fetch_from_sources (query : string) (sources : list string)
  (limit : Z) (use_cache : bool) (w : World) : list Paper * World :=
  fetch_loop query limit use_cache sources [] w.

(** [for ref in refs[:max_per_paper]]: a reference with an unseen key is
    added to [seen_ids] and appended to [new_papers]. *)
Fixpoint add_refs (refs : list Paper) (new_papers : list Paper)
  (seen_ids : gset (string * string))
  : list Paper * gset (string * string) :=
  match refs with
  | [] => (new_papers, seen_ids)
  | ref :: rest =>
      let key := paper_key ref in
      if bool_decide (key ∉ seen_ids)
      then add_refs rest (new_papers ++ [ref]) ({[key]} ∪ seen_ids)
      else add_refs rest new_papers seen_ids
  end.

(** One level: the loop over the papers of the previous level. *)
Fixpoint dig_level (max_per_paper : Z) (papers : list Paper)
  (new_papers : list Paper) (seen_ids : gset (string * string)) (w : World)
  : list Paper * gset (string * string) * World :=
  match papers with
  | [] => (new_papers, seen_ids, w)
  | paper :: rest =>
      match get_source registry (source paper) with
      | None => dig_level max_per_paper rest new_papers seen_ids w
      | Some source =>
          match fetch_references source paper w with
          | (Done refs, w) =>
              let '(new_papers, seen_ids) :=
                add_refs (PyStr.slice_to max_per_paper refs) new_papers seen_ids in
              dig_level max_per_paper rest new_papers seen_ids w
          | (Raised _, w) =>
              dig_level max_per_paper rest new_papers seen_ids w
          end
      end
  end.

(** [for level in range(depth)], with its [break] on an empty level. *)
Fixpoint dig (levels : nat) (max_per_paper : Z) (papers all_papers : list Paper)
  (seen_ids : gset (string * string)) (w : World) : list Paper * World :=
  match levels with
  | O => (all_papers, w)
  | S levels' =>
      let '(new_papers, seen_ids, w) :=
        dig_level max_per_paper papers [] seen_ids w in
      match new_papers with
      | [] => (all_papers, w)
      | _ => dig levels' max_per_paper new_papers (all_papers ++ new_papers)
               seen_ids w
      end
  end.

Definition fetch_references_recursive (papers : list Paper) (depth : Z)
  (max_per_paper : Z) (w : World) : list Paper * World :=
  if depth <=? 0 then (papers, w)
  else
    let all_papers := papers in
    let seen_ids : gset (string * string) := list_to_set (paper_key <$> papers) in
    dig (Z.to_nat depth) max_per_paper papers all_papers seen_ids w.

End Scanner.

(** The text both functions below read: title, a blank and the abstract,
    lowercased. *)
Definition paper_text (paper : Paper) : string :=
  PyStr.lower (title paper ++ " " ++ abstract paper).

Record Pattern := mkPattern {
  pattern : string;
  hint : string;
  cost : string;
  difficulty : string
}.

(** [any(q in txt for q in l)] *)
Definition any_in (l : list string) (txt : string) : bool :=
  existsb (fun q => PyStr.contains q txt) l.

Definition paper_patterns (paper : Paper) : list Pattern :=
  let txt := paper_text paper in
  (if any_in ["quantum"; "entanglement"; "superposition"] txt
   then [mkPattern "Quantum breakthrough"
           "Test quantum erasure with polarized lenses & laser pointer"
           "~$30" "Easy"]
   else [])
  ++ (if any_in ["metamaterial"; "negative index"] txt
      then [mkPattern "Metamaterial lens"
              "Stack microscope slides + oil for negative index demo"
              "~$20" "Easy"]
      else [])
  ++ (if any_in ["time crystal"; "temporal"; "periodic"] txt
      then [mkPattern "Temporal periodicity"
              "555 timer + LED at 1 Hz, observe after-image"
              "~$5" "Easy"]
      else [])
  ++ (if any_in ["neural"; "AI"; "machine learning"] txt
      then [mkPattern "AI physics"
              "Train tiny model on physics data, predict pendulum motion"
              "~$0 (laptop)" "Research"]
      else []).

Definition detect_patterns (papers : list Paper) : list Pattern :=
  paper ← papers; paper_patterns paper.

Definition notable_keywords : list string :=
  ["quantum"; "entanglement"; "superposition"; "metamaterial";
   "neural"; "AI"; "machine learning"; "photon"; "laser";
   "gravitational"; "time crystal"; "topology"; "spin";
   "lattice"; "superconductor"; "plasma"; "dark matter"].

(** [n = txt.count(kw)], and [counter[kw] += n] when [n] is not zero. *)
Definition count_keyword (txt : string) (counter : gmap string Z) (kw : string)
  : gmap string Z :=
  let n := PyStr.count kw txt in
  if n =? 0 then counter
  else <[kw := default 0 (counter !! kw) + n]> counter.

Definition count_paper (counter : gmap string Z) (paper : Paper)
  : gmap string Z :=
  foldl (count_keyword (paper_text paper)) counter notable_keywords.

Definition build_keyword_counter (papers : list Paper) : gmap string Z :=
  foldl count_paper ∅ papers.

(** ** The three signals as the design document words them

    [find_connections] is compared with these below. *)

Definition author_signal (a b : Paper) : Z :=
  Z.min (set_len (shared_authors a b) * 3) 7.

Definition keyword_signal (a b : Paper) (keyword_threshold : Z) : Z :=
  let n := set_len (shared_keywords a b) in
  if keyword_threshold <=? n then Z.min n 5 else 0.

Definition title_signal (a b : Paper) : Z :=
  let n := set_len (shared_title_words a b) in
  if 2 <=? n then Z.min n 3 else 0.

Definition capped_total (a b : Paper) (keyword_threshold : Z) : Z :=
  Z.min (author_signal a b + keyword_signal a b keyword_threshold
         + title_signal a b) 10.

(** The same three signals said without the sets of [_calculate_connection]:
    what is shared is told from the fields of the two papers, and counted.

    [shared_name la lb n]: both lists hold [n], letter case aside. *)
Definition shared_name (la lb : list string) (n : string) : Prop :=
  (∃ x, x ∈ la ∧ PyStr.lower x = n) ∧ (∃ y, y ∈ lb ∧ PyStr.lower y = n).

(** A word of the lowercased title that is not a stop word. *)
Definition title_word (p : Paper) (wd : string) : Prop :=
  wd ∈ PyStr.split (PyStr.lower (title p)) ∧ wd ∉ title_common_words.

Definition shared_title_word (a b : Paper) (wd : string) : Prop :=
  title_word a wd ∧ title_word b wd.

(** [P] holds of [n] strings and no more. *)
Definition counts (P : string → Prop) (n : Z) : Prop :=
  ∃ l, NoDup l ∧ (∀ x, x ∈ l ↔ P x) ∧ n = Z.of_nat (length l).

(** What each count contributes. *)
Definition author_contribution (shared_count : Z) : Z :=
  Z.min (shared_count * 3) 7.

Definition keyword_contribution (keyword_threshold shared_count : Z) : Z :=
  if keyword_threshold <=? shared_count then Z.min shared_count 5 else 0.

Definition title_contribution (shared_word_count : Z) : Z :=
  if 2 <=? shared_word_count then Z.min shared_word_count 3 else 0.

(** ** The freshness window of [get_cached], in words

    The cutoff is taken from the reading of the clock that [get_cached] makes
    on entry. *)

Definition cutoff_at (max_age_hours : Z) (w : World) : Z :=
  clock w (ticks w) - max_age_hours * 3600000000.



(** The instants a [datetime] can hold, in microseconds: from the first of
    year 1 to the last of year 9999, which are 3652059 days.  A window whose
    cutoff is no such instant is no window: [datetime.now() -
    timedelta(hours=max_age_hours)] raises [OverflowError] for it. *)
Definition is_datetime (t : Z) : Prop := 0 ≤ t < 3652059 * 86400000000.

(** ** Papers that come from an upstream answer

    [parsed_from body p]: [p] is the successful parse of an item of [body];
    [upstream_parsed w p]: some answer of the network of [w] holds such an
    item. *)

Definition parsed_from (body : Body) (p : Paper) : Prop :=
  match body with
  | AtomFeed entries =>
      ∃ entry, entry ∈ entries ∧ ArXivSource._parse_entry entry = Done p
  | SemSearchJson (Has items) =>
      ∃ item, item ∈ items ∧ SemanticScholarSource._parse_paper item = Done p
  | RxivJson (Has items) =>
      ∃ item server, item ∈ items ∧
        BioRxivSource._parse_paper item server = Done p
  | ESummaryJson (Has docs) =>
      ∃ pmid doc abstract, docs !! pmid = Some (Some doc) ∧
        PubMedSource._parse_paper pmid doc abstract = Done p
  | _ => False
  end.

Definition upstream_parsed (w : World) (p : Paper) : Prop :=
  ∃ n req st body, net w n req = Resp st body ∧ parsed_from body p.

(** The papers a loop over [items] has appended when it stops: those parsed
    before the first item that raises. *)
Fixpoint parsed_before_failure {A} (parse : A -> outcome Paper) (items : list A)
  : list Paper :=
  match items with
  | [] => []
  | item :: rest =>
      match parse item with
      | Done paper => paper :: parsed_before_failure parse rest
      | Raised _ => []
      end
  end.

(** The same for a loop that passes over some items: [step] gives [None]
    for an item the loop skips. *)
Fixpoint kept_before_failure {A} (step : A -> outcome (option Paper))
  (items : list A) : list Paper :=
  match items with
  | [] => []
  | item :: rest =>
      match step item with
      | Done (Some paper) => paper :: kept_before_failure step rest
      | Done None => kept_before_failure step rest
      | Raised _ => []
      end
  end.

(** ** The subset of the results that a search returns, in words

    Each search is described here from the answers of the network alone:
    the answer to the request it sends first has the number
    [length (requests w)], the next ones follow.  An answer counts when it
    came, its status lets [raise_for_status] pass (or is 200 where the code
    asks for 200) and its body has the expected form; the papers returned
    are then those parsed from its items, in order, up to the first item
    whose parsing raises. *)

Definition status_ok (st : Z) : bool := negb ((400 <=? st) && (st <? 600)).

Definition arxiv_kept (query : string) (limit : Z) (w : World) : list Paper :=
  match net w (length (requests w)) (ArXivSource.search_request query limit) with
  | Resp st (AtomFeed entries) =>
      if status_ok st
      then parsed_before_failure ArXivSource._parse_entry entries
      else []
  | _ => []
  end.

Definition sem_kept (query : string) (limit : Z) (w : World) : list Paper :=
  match net w (length (requests w))
          (SemanticScholarSource.search_request query limit) with
  | Resp st (SemSearchJson (Has items)) =>
      if st =? 200
      then parsed_before_failure SemanticScholarSource._parse_paper items
      else []
  | _ => []
  end.

(** PubMed: the ids of the first answer, their summaries in the second,
    their abstracts in the third (no abstract when the third fails). *)
Definition pubmed_abstracts (idlist : list string) (n : nat) (w : World)
  : gmap string string :=
  match net w n (PubMedSource.fetch_request idlist) with
  | Resp st (EFetchXml articles) =>
      if status_ok st then PubMedSource.collect_abstracts articles ∅ else ∅
  | _ => ∅
  end.

Definition pubmed_step (result : jfield (gmap string (option SummaryDoc)))
  (abstracts : gmap string string) (pmid : string) : outcome (option Paper) :=
  doc ← PubMedSource.summary_doc result pmid;
  match doc with
  | Some doc =>
      paper ← PubMedSource._parse_paper pmid doc
                (default EmptyString (abstracts !! pmid));
      Done (Some paper)
  | None => Done None
  end.

Definition pubmed_kept (query : string) (limit : Z) (w : World) : list Paper :=
  let n := length (requests w) in
  match net w n (PubMedSource.search_request query limit) with
  | Resp st (ESearchJson (Has (Has idlist))) =>
      if status_ok st && bool_decide (idlist ≠ []) then
        match net w (S n) (PubMedSource.summary_request idlist) with
        | Resp st' (ESummaryJson result) =>
            if status_ok st'
            then kept_before_failure
                   (pubmed_step result (pubmed_abstracts idlist (S (S n)) w))
                   idlist
            else []
        | _ => []
        end
      else []
  | _ => []
  end.

(** bioRxiv: from each of the two servers the items that match the query,
    parsed up to the first failure and up to the number still wanted (one
    paper is kept before the number is looked at); the second server is
    asked when the first gave fewer than [limit], and the whole is cut at
    [limit]. *)
Definition rxiv_step (query_lower server : string) (item : RxivItem)
  : outcome (option Paper) :=
  wanted ← BioRxivSource.matches_query query_lower item;
  if (wanted : bool)
  then paper ← BioRxivSource._parse_paper item server; Done (Some paper)
  else Done None.

Definition rxiv_kept_from (server : string) (n : nat) (start_date end_date : Z)
  (query : string) (limit : Z) (w : World) : list Paper :=
  match net w n (BioRxivSource.details_request server start_date end_date) with
  | Resp st (RxivJson (Has items)) =>
      if status_ok st then
        let query_lower :=
          if PyStr.nonempty query then PyStr.lower query else EmptyString in
        take (Z.to_nat (Z.max 1 limit))
          (kept_before_failure (rxiv_step query_lower server) items)
      else []
  | _ => []
  end.

Definition rxiv_kept (query : string) (limit : Z) (w : World) : list Paper :=
  let n := length (requests w) in
  let end_date := clock w (ticks w) in
  let start_date := end_date - 365 * BioRxivSource.microseconds_per_day in
  let first := rxiv_kept_from "biorxiv" n start_date end_date query limit w in
  if Z.of_nat (length first) <? limit
  then PyStr.slice_to limit
         (first ++ rxiv_kept_from "medrxiv" (S n) start_date end_date query
                     (limit - Z.of_nat (length first)) w)
  else PyStr.slice_to limit first.

(** The subset for the adapter registered under [name]. *)
Definition kept_results (name query : string) (limit : Z) (w : World)
  : list Paper :=
  if String.eqb name "arxiv" then arxiv_kept query limit w
  else if String.eqb name "semantic_scholar" then sem_kept query limit w
  else if String.eqb name "pubmed" then pubmed_kept query limit w
  else rxiv_kept query limit w.

(** ** Notions used by the proofs *)

(** A character that [lower] leaves alone. *)
Definition not_upper (c : ascii) : bool := negb (PyStr.isupper c).

(** What the loops of the traversal keep true: the new papers have pairwise
    different keys, none of them among [old], and [seen_ids] holds every key
    of both. *)
Definition level_inv (old : list (string * string)) (new_papers : list Paper)
  (seen_ids : gset (string * string)) : Prop :=
  NoDup (paper_key <$> new_papers) ∧
  (∀ k, k ∈ paper_key <$> new_papers → k ∉ old) ∧
  (∀ k, k ∈ old ∨ k ∈ paper_key <$> new_papers → k ∈ seen_ids).

(** A call that returned a list of papers, all with [P], after at least one
    more request and with the same network. *)
Definition search_result (P : Paper → Prop) (w : World)
  (r : outcome (list Paper) * World) : Prop :=
  ∃ papers, r.1 = Done papers ∧ Forall P papers ∧ net r.2 = net w ∧
            (length (requests w) < length (requests r.2))%nat.

(** The last paper of a list with key [k], and its position. *)
Fixpoint last_saved (k : string * string) (papers : list Paper)
  : option (Paper * nat) :=
  match papers with
  | [] => None
  | p :: rest =>
      match last_saved k rest with
      | Some (p', i) => Some (p', S i)
      | None => if decide (paper_key p = k) then Some (p, O) else None
      end
  end.

(** Papers whose citation counts SQLite can hold. *)
Definition storable (papers : list Paper) : bool :=
  forallb (fun p => Cache.sqlite_int (citations p)) papers.

(** No two readings of the clock are [max_age_hours] apart. *)
Definition steady_clock (max_age_hours : Z) (w : World) : Prop :=
  ∀ i j, clock w i - max_age_hours * 3600000000 < clock w j.

(** [w'] differs from [w] by requests sent and readings of the clock made:
    the cache tables are those of [w]. *)
Definition network_only (w w' : World) : Prop :=
  net w' = net w ∧ clock w' = clock w ∧
  papers_table w' = papers_table w ∧ queries_table w' = queries_table w ∧
  ∃ sent, requests w' = requests w ++ sent.

(** [w'] has all the history of [w]: the query log of [w] starts that of
    [w'], and every paper key of [w] is still a key. *)
Definition history_kept (w w' : World) : Prop :=
  net w' = net w ∧ clock w' = clock w ∧
  queries_table w `prefix_of` queries_table w' ∧
  (∀ k, is_Some (papers_table w !! k) → is_Some (papers_table w' !! k)).

(** 1 + m + ... + m^levels: how many papers one paper can become in
    [levels] levels of at most [m] references each. *)
Fixpoint expansion_bound (m : Z) (levels : nat) : Z :=
  match levels with
  | O => 1
  | S k => 1 + m * expansion_bound m k
  end.

(** A character other than [sep]. *)
Definition is_not (sep c : ascii) : bool := negb (Ascii.eqb c sep).

(** The text a paper of the preprint servers was matched on: its title,
    or nothing when the item had no title, then its abstract. *)
Definition matches (query : string) (p : Paper) : Prop :=
  ∃ t, (t = title p ∨ (t = EmptyString ∧ title p = "Unknown")) ∧
       PyStr.contains (PyStr.lower query)
         (PyStr.lower (t ++ " " ++ abstract p)) = true.

(** What holds of every entry of the counter. *)
Definition counted (counter : gmap string Z) : Prop :=
  ∀ kw n, counter !! kw = Some n →
          kw ∈ notable_keywords ∧ kw ≠ "AI" ∧ 0 < n.

(** ** Sample data used to run the definitions *)

Definition sample_paper (i t : string) (au kw : list string) (s : string) : Paper :=
  mkPaper i t au EmptyString EmptyString EmptyString EmptyString s 0 [] kw.

Definition paper_one : Paper :=
  sample_paper "1" "Paper One" ["John Smith"; "Jane Doe"] [] "arxiv".
Definition paper_two : Paper :=
  sample_paper "2" "Paper Two" ["John Smith"; "Bob Wilson"] [] "semantic_scholar".
Definition connection_one_two : Connection :=
  mkConnection paper_one paper_two 3 "Shared authors: john smith".

(** Two papers of different sources that share an author, three keywords
    and two title words.  The shared author is written with capitals on one
    side; its first letter is U+00C9, whose small letter is U+00E9. *)
Definition emile_upper : string :=
  PyStr.of_codes [201; 77; 73; 76; 69; 32; 90; 79; 76; 65]%nat.
Definition emile_lower : string :=
  PyStr.of_codes [233; 109; 105; 108; 101; 32; 122; 111; 108; 97]%nat.

Definition rich_a : Paper :=
  sample_paper "r1" "Quantum Plasma waves in the corona"
    [emile_upper; "Jane Doe"] ["Plasma"; "corona"; "piezo"; "lattice"] "arxiv".
Definition rich_b : Paper :=
  sample_paper "r2" "The plasma waves" [emile_lower]
    ["plasma"; "Corona"; "piezo"] "pubmed".
Definition connection_rich : Connection :=
  List.hd connection_one_two (find_connections [rich_a; rich_b] 3).

(** The word of the keyword helper's example: S, o, c, i, U+00E9, t,
    U+00E9. *)
Definition societe : string :=
  PyStr.of_codes [83; 111; 99; 105; 233; 116; 233]%nat.
Definition societe_lower : string :=
  PyStr.of_codes [115; 111; 99; 105; 233; 116; 233]%nat.

(** A world whose network never answers and whose clock stands at [now]. *)
Definition offline_world (now : Z)
  (papers : gmap (string * string) PaperRow) (queries : list QueryRow) : World :=
  mkWorld (fun _ _ => NoResponse) (fun _ => now) [] 0 papers queries.

(** One hour is 3600000000 microseconds: the query and the first paper are
    one hour old, the second paper is two days old. *)
Definition cached_world : World :=
  offline_world 200000000000
    (<[("1", "arxiv") := Cache.paper_row paper_one 196400000000]>
       (<[("9", "arxiv") := Cache.paper_row
            (sample_paper "9" "Old" [] [] "arxiv") 27200000000]> ∅))
    [mkQueryRow "corona" "arxiv" 5 196400000000 1].


(** Twenty-one different words of four letters. *)
Definition long_text : string :=
  "aaaa bbbb cccc dddd eeee ffff gggg hhhh iiii jjjj kkkk llll mmmm nnnn oooo pppp qqqq rrrr ssss tttt uuuu".

Definition short_entry : AtomEntry :=
  mkAtomEntry (Some (Some "Quantum things")) (Some (Some "An abstract"))
    (Some (Some "http://arxiv.org/abs/2401.00001v2")) None
    [Some (Some "A B")] [Some "cs.AI"].

(** Two papers with the same key, and a registry whose only adapter
    answers every paper with the same three references. *)
Definition ref_b : Paper := sample_paper "B" "Paper B" [] [] "stub".
Definition ref_c : Paper := sample_paper "C" "Paper C" [] [] "stub".
Definition root_a : Paper := sample_paper "A" "Paper A" [] [] "stub".

Definition stub_class (name : string) : BaseSource :=
  mkSource name (fun _ _ w => (Done [], w))
    (fun _ w => (Done [ref_b; root_a; ref_c; ref_b], w)).

Definition stub_registry : gmap string (string -> BaseSource) :=
  register_source "stub" stub_class ∅.

Definition quiet_world : World := offline_world 0 ∅ [].

(** An entry whose title element has no text. *)
Definition broken_entry : AtomEntry :=
  mkAtomEntry (Some None) None None None [] [].

(** A feed of two entries, whatever the request. *)
Definition second_entry : AtomEntry :=
  mkAtomEntry (Some (Some "Plasma waves")) None
    (Some (Some "http://arxiv.org/abs/2401.00002v1")) None [] [].

Definition answering_world (answer : nat -> Request -> Response) : World :=
  mkWorld answer (fun _ => 200000000000) [] 0 ∅ [].

Definition feed_world : World :=
  answering_world (fun _ _ => Resp 200 (AtomFeed [short_entry; second_entry])).

(** The same feed with a broken entry in the middle. *)
Definition broken_feed_world : World :=
  answering_world (fun _ _ =>
    Resp 200 (AtomFeed [short_entry; broken_entry; second_entry])).

Definition sem_item (i t : string) : SemItem :=
  mkSemItem (Some i) (Has t) Missing None Missing Missing Missing Missing.

Definition sem_world : World :=
  answering_world (fun _ _ =>
    Resp 200 (SemSearchJson (Has [sem_item "s1" "Plasma"; sem_item "s2" "Corona"]))).

Definition summary_doc_of (t : string) : SummaryDoc :=
  mkSummaryDoc (Has t) Missing Missing Missing.

Definition pubmed_world : World :=
  answering_world (fun n _ =>
    match n with
    | O => Resp 200 (ESearchJson (Has (Has ["11"; "22"])))
    | S O => Resp 200 (ESummaryJson (Has
               (<["11" := Some (summary_doc_of "Plasma")]>
                  (<["22" := Some (summary_doc_of "Corona")]> ∅))))
    | _ => Resp 200 (EFetchXml [])
    end).

(** Both preprint servers hold one matching item. *)
Definition rxiv_item : RxivItem :=
  mkRxivItem (Some "10.1101/x") (Has "Cells and genes") (Has "Abstract text")
    (Has "A, B; C, D") (Has "2024-1-5").

Definition rxiv_world : World :=
  answering_world (fun _ _ => Resp 200 (RxivJson (Has [rxiv_item]))).

(** A third paper, from the source of the first, that shares two title
    words with the second. *)
Definition paper_three : Paper :=
  sample_paper "3" "Paper Two Revisited" [] [] "arxiv".

(** Papers that cite each other by id. *)
Definition citing_paper : Paper :=
  mkPaper "A" "Citing" [] EmptyString EmptyString EmptyString EmptyString
    "arxiv" 0 ["B"; "Z"] [].
Definition cited_paper : Paper :=
  mkPaper "B" "Cited" [] EmptyString EmptyString EmptyString EmptyString
    "pubmed" 0 [] [].

(** The biorxiv server holds two matching items, so that a search for one
    paper has enough with it. *)
Definition rxiv_rich_world : World :=
  answering_world (fun _ _ => Resp 200 (RxivJson (Has [rxiv_item; rxiv_item]))).

Definition ai_paper : Paper :=
  mkPaper "7" "Neural AI lattice" [] "Quantum plasma in a plasma" EmptyString
    EmptyString EmptyString "arxiv" 0 [] [].

(** What the bioRxiv search finds in [rxiv_world]. *)
Definition rxiv_found : list Paper :=
  match (BioRxivSource.search "cells" 2 rxiv_world).1 with
  | Done papers => papers
  | Raised _ => []
  end.

(** A paper with more citations than a 64-bit integer holds. *)
Definition huge_paper : Paper :=
  mkPaper "h" "Huge" [] EmptyString EmptyString EmptyString EmptyString
    "arxiv" (2 ^ 63) [] [].

(** The eleven keys of [to_dict]. *)
Definition paper_fields : list string :=
  ["id"; "title"; "authors"; "abstract"; "url"; "pdf_url"; "published";
   "source"; "citations"; "references"; "keywords"].


(** * Properties *)

(** C7. Serialising a paper with [to_dict] and rebuilding it with [from_dict]
    gives back the same paper: every one of the eleven fields (id, title,
    authors, abstract, url, pdf_url, published, source, citations, references,
    keywords) is recovered unchanged. *)
Theorem from_dict_to_dict (p : Paper) : from_dict (to_dict p) = Some p.
Proof.
  destruct p as [i t au ab u pu pb so ci re kw].
  unfold from_dict, get_str, get_int, get_list, to_dict; simpl.
  by simplify_map_eq.
Qed.

(** ** The connection engine *)

Lemma set_len_nonneg (s : gset string) : 0 ≤ set_len s.
Proof. unfold set_len. lia. Qed.

Lemma set_len_empty (s : gset string) : s = ∅ → set_len s = 0.
Proof. intros ->. reflexivity. Qed.

Lemma author_step_strength a b st :
  (author_step a b st).1 = st.1 + author_signal a b.
Proof.
  unfold author_step, author_signal.
  case_bool_decide as Hne; simpl; [reflexivity|].
  assert (shared_authors a b = ∅) as -> by (destruct (decide (shared_authors a b = ∅)); tauto).
  rewrite set_len_empty by reflexivity. simpl. lia.
Qed.

Lemma keyword_step_strength a b kt st :
  (keyword_step a b kt st).1 = st.1 + keyword_signal a b kt.
Proof.
  unfold keyword_step, keyword_signal.
  destruct (kt <=? set_len (shared_keywords a b)); simpl; lia.
Qed.

Lemma title_step_strength a b st :
  (title_step a b st).1 = st.1 + title_signal a b.
Proof.
  unfold title_step, title_signal.
  destruct (2 <=? set_len (shared_title_words a b)); simpl; lia.
Qed.

Lemma signals_nonneg a b kt :
  0 ≤ author_signal a b ∧ 0 ≤ keyword_signal a b kt ∧ 0 ≤ title_signal a b.
Proof.
  unfold author_signal, keyword_signal, title_signal.
  pose proof (set_len_nonneg (shared_authors a b)).
  pose proof (set_len_nonneg (shared_keywords a b)).
  pose proof (set_len_nonneg (shared_title_words a b)).
  repeat split.
  - lia.
  - destruct (kt <=? _); lia.
  - destruct (2 <=? _); lia.
Qed.

(** The strength computed for any pair is the capped sum of the signals. *)
Lemma calculate_connection_strength a b kt :
  (_calculate_connection a b kt).1 = capped_total a b kt.
Proof.
  unfold _calculate_connection, capped_total.
  rewrite title_step_strength, keyword_step_strength, author_step_strength.
  simpl.
  destruct (Z.eqb_spec (Z.min (0 + author_signal a b + keyword_signal a b kt
                               + title_signal a b) 10) 0) as [E|E]; simpl.
  - rewrite Z.add_0_l in E. lia.
  - rewrite Z.add_0_l. reflexivity.
Qed.

Lemma insert_desc_perm {A} (key : A → Z) x l : insert_desc key x l ≡ₚ x :: l.
Proof.
  induction l as [|y l IH]; simpl; [reflexivity|].
  destruct (key x <? key y); [|reflexivity].
  rewrite IH. apply Permutation_swap.
Qed.

Lemma sort_desc_perm {A} (key : A → Z) l : sort_desc key l ≡ₚ l.
Proof.
  induction l as [|x l IH]; simpl; [reflexivity|].
  rewrite insert_desc_perm. by rewrite IH.
Qed.

(** Every connection comes from one run of the innermost loop body. *)
Lemma elem_of_compare_groups d kt sa sb c :
  c ∈ compare_groups d kt sa sb →
  ∃ pa pb, pa ∈ group_of d sa ∧ pb ∈ group_of d sb ∧
    0 < (_calculate_connection pa pb kt).1 ∧
    c = mkConnection pa pb (_calculate_connection pa pb kt).1
          (_calculate_connection pa pb kt).2.
Proof.
  unfold compare_groups. intros Hc.
  apply list_elem_of_bind in Hc as (pa & Hc & Hpa).
  apply list_elem_of_bind in Hc as (pb & Hc & Hpb).
  exists pa, pb. destruct (_calculate_connection pa pb kt) as [st rs]; simpl.
  destruct (Z.ltb_spec 0 st) as [Hpos|Hpos].
  - apply list_elem_of_singleton in Hc. auto.
  - by apply elem_of_nil in Hc.
Qed.

Lemma elem_of_compare_sources d kt sources c :
  c ∈ compare_sources d kt sources →
  ∃ i j sa sb, (i < j)%nat ∧ sources !! i = Some sa ∧ sources !! j = Some sb ∧
    c ∈ compare_groups d kt sa sb.
Proof.
  induction sources as [|sa later IH]; simpl; intros Hc.
  - by apply elem_of_nil in Hc.
  - apply elem_of_app in Hc as [Hc|Hc].
    + apply list_elem_of_bind in Hc as (sb & Hc & Hsb).
      apply list_elem_of_lookup in Hsb as [j Hj].
      exists 0%nat, (S j), sa, sb. repeat split; [lia|done..].
    + destruct (IH Hc) as (i & j & sa' & sb' & Hij & Hi & Hj & Hc').
      exists (S i), (S j), sa', sb'. repeat split; [lia|done..].
Qed.

Lemma elem_of_find_connections papers kt c :
  c ∈ find_connections papers kt →
  ∃ i j sa sb pa pb,
    (i < j)%nat ∧
    (group_by_source papers).*1 !! i = Some sa ∧
    (group_by_source papers).*1 !! j = Some sb ∧
    pa ∈ group_of (group_by_source papers) sa ∧
    pb ∈ group_of (group_by_source papers) sb ∧
    0 < (_calculate_connection pa pb kt).1 ∧
    c = mkConnection pa pb (_calculate_connection pa pb kt).1
          (_calculate_connection pa pb kt).2.
Proof.
  unfold find_connections. rewrite sort_desc_perm. intros Hc.
  apply elem_of_compare_sources in Hc as (i & j & sa & sb & Hij & Hi & Hj & Hc).
  apply elem_of_compare_groups in Hc as (pa & pb & Hpa & Hpb & Hpos & ->).
  exists i, j, sa, sb, pa, pb. done.
Qed.

(** The sets of [_calculate_connection] hold what the two papers share. *)
Lemma elem_of_lower_set l n :
  n ∈ lower_set l ↔ ∃ x, x ∈ l ∧ PyStr.lower x = n.
Proof.
  unfold lower_set. rewrite elem_of_list_to_set, list_elem_of_fmap.
  split; intros (x & H1 & H2); exists x; done.
Qed.

Lemma shared_authors_spec a b n :
  n ∈ shared_authors a b ↔ shared_name (authors a) (authors b) n.
Proof.
  unfold shared_authors, shared_name.
  by rewrite elem_of_intersection, !elem_of_lower_set.
Qed.

Lemma shared_keywords_spec a b n :
  n ∈ shared_keywords a b ↔ shared_name (keywords a) (keywords b) n.
Proof.
  unfold shared_keywords, shared_name.
  by rewrite elem_of_intersection, !elem_of_lower_set.
Qed.

Lemma title_words_spec p wd : wd ∈ title_words p ↔ title_word p wd.
Proof.
  unfold title_words, title_word.
  by rewrite elem_of_difference, elem_of_list_to_set.
Qed.

Lemma shared_title_words_spec a b wd :
  wd ∈ shared_title_words a b ↔ shared_title_word a b wd.
Proof.
  unfold shared_title_words, shared_title_word.
  by rewrite elem_of_intersection, !title_words_spec.
Qed.

Lemma counts_set (X : gset string) (P : string → Prop) :
  (∀ x, x ∈ X ↔ P x) → counts P (set_len X).
Proof.
  intros H. exists (elements X). split_and!.
  - apply NoDup_elements.
  - intros x. rewrite elem_of_elements. apply H.
  - reflexivity.
Qed.

(** For lists of lowercase strings, as the keyword lists that the adapters
    build, a shared name is a string of both lists. *)
Lemma shared_name_lowercase la lb n :
  (∀ x, x ∈ la → PyStr.lower x = x) → (∀ y, y ∈ lb → PyStr.lower y = y) →
  shared_name la lb n ↔ n ∈ la ∧ n ∈ lb.
Proof.
  intros Ha Hb. unfold shared_name. split.
  - intros [(x & Hx & <-) (y & Hy & Hxy)].
    rewrite (Ha x Hx). split; [done|].
    rewrite (Hb y Hy), (Ha x Hx) in Hxy. by subst y.
  - intros [Hx Hy]. split; exists n; auto.
Qed.

(** A count is the count: two lists without repetition that hold the same
    strings have the same length. *)
Lemma counts_unique (P : string → Prop) n m : counts P n → counts P m → n = m.
Proof.
  intros (l & Hl & Hin & ->) (l' & Hl' & Hin' & ->).
  f_equal. apply Permutation_length, NoDup_Permutation; [done..|].
  intros x. by rewrite Hin, Hin'.
Qed.

(** C1. The strength that [_calculate_connection] computes for any two
    papers is the sum, capped at 10, of three contributions: min(3 * n, 7)
    for the [n] author names the two papers share letter case aside;
    min(n, 5) for the [n] keywords they share, counted only from
    [keyword_threshold] shared keywords on; min(n, 3) for the [n] words
    their lowercased titles share once the stop words are removed, counted
    only from two shared words on.  The three numbers are the numbers of
    shared values told from the fields of the two papers.  Every connection
    returned by [find_connections] carries the strength computed for its two
    papers, and that strength is not zero: it lies between 1 and 10. *)
Theorem find_connections_strength (papers : list Paper) (keyword_threshold : Z) :
  (∀ a b : Paper,
     ∃ shared_authors_count shared_keywords_count shared_words_count,
       counts (shared_name (authors a) (authors b)) shared_authors_count
       ∧ counts (shared_name (keywords a) (keywords b)) shared_keywords_count
       ∧ counts (shared_title_word a b) shared_words_count
       ∧ (_calculate_connection a b keyword_threshold).1 =
           Z.min (author_contribution shared_authors_count
                  + keyword_contribution keyword_threshold shared_keywords_count
                  + title_contribution shared_words_count) 10)
  ∧ (∀ c : Connection,
       c ∈ find_connections papers keyword_threshold →
       strength c =
         (_calculate_connection (paper_a c) (paper_b c) keyword_threshold).1
       ∧ 1 ≤ strength c ≤ 10).
Proof.
  split.
  - intros a b.
    exists (set_len (shared_authors a b)), (set_len (shared_keywords a b)),
      (set_len (shared_title_words a b)).
    split_and!.
    + apply counts_set. intros n. apply shared_authors_spec.
    + apply counts_set. intros n. apply shared_keywords_spec.
    + apply counts_set. intros wd. apply shared_title_words_spec.
    + apply calculate_connection_strength.
  - intros c Hc.
    apply elem_of_find_connections in Hc
      as (i & j & sa & sb & pa & pb & _ & _ & _ & _ & _ & Hpos & ->).
    simpl. split; [reflexivity|].
    rewrite calculate_connection_strength in *. unfold capped_total in *. lia.
Qed.

(** Grouping keeps a paper under its own source, and no key twice. *)
Lemma group_append_sources d paper :
  (∀ s ps p, (s, ps) ∈ d → p ∈ ps → source p = s) →
  ∀ s ps p, (s, ps) ∈ group_append d paper → p ∈ ps → source p = s.
Proof.
  induction d as [|[s0 ps0] d IH]; simpl; intros Hd s ps p Hin Hp.
  - apply list_elem_of_singleton in Hin. inversion Hin; subst.
    apply list_elem_of_singleton in Hp. by subst.
  - destruct (String.eqb_spec s0 (source paper)) as [E|E].
    + apply elem_of_cons in Hin as [Hin|Hin].
      * inversion Hin; subst.
        apply elem_of_app in Hp as [Hp|Hp].
        -- eapply Hd; [left|done].
        -- apply list_elem_of_singleton in Hp. by subst.
      * eapply Hd; [right; exact Hin|done].
    + apply elem_of_cons in Hin as [Hin|Hin].
      * inversion Hin; subst. eapply Hd; [left|done].
      * eapply IH; [|exact Hin|done].
        intros s' ps' p' H1 H2. eapply Hd; [right; exact H1|done].
Qed.

Lemma group_append_keys d paper :
  (group_append d paper).*1 =
    if bool_decide (source paper ∈ d.*1) then d.*1 else d.*1 ++ [source paper].
Proof.
  induction d as [|[s0 ps0] d IH]; [reflexivity|].
  cbn [group_append].
  destruct (String.eqb_spec s0 (source paper)) as [E|E]; rewrite !fmap_cons; cbn [fst].
  - subst. rewrite bool_decide_true by left. reflexivity.
  - rewrite IH. case_bool_decide as H1; case_bool_decide as H2; try reflexivity.
    + exfalso. apply H2. by right.
    + exfalso. apply elem_of_cons in H2 as [H2|H2]; [congruence|done].
Qed.

Lemma group_by_source_inv papers :
  NoDup (group_by_source papers).*1 ∧
  ∀ s ps p, (s, ps) ∈ group_by_source papers → p ∈ ps → source p = s.
Proof.
  unfold group_by_source.
  cut (∀ d, NoDup d.*1 →
            (∀ s ps p, (s, ps) ∈ d → p ∈ ps → source p = s) →
            NoDup (foldl group_append d papers).*1 ∧
            ∀ s ps p, (s, ps) ∈ foldl group_append d papers → p ∈ ps → source p = s).
  { intros H. apply H; [constructor|]. intros s ps p Hin. by apply elem_of_nil in Hin. }
  induction papers as [|paper papers IH]; simpl; intros d Hnd Hd; [done|].
  apply IH.
  - rewrite group_append_keys. case_bool_decide as Hin; [done|].
    apply NoDup_app. split_and!; [done| |apply NoDup_singleton].
    intros x Hx Hx'. apply list_elem_of_singleton in Hx'. by subst.
  - by apply group_append_sources.
Qed.

Lemma group_of_sources d s p :
  (∀ s ps p, (s, ps) ∈ d → p ∈ ps → source p = s) →
  p ∈ group_of d s → source p = s.
Proof.
  induction d as [|[s0 ps0] d IH]; simpl; intros Hd Hp.
  - by apply elem_of_nil in Hp.
  - destruct (String.eqb_spec s0 s) as [E|E].
    + subst. eapply Hd; [left|done].
    + apply IH; [|done]. intros s' ps' p' H1 H2. eapply Hd; [right; exact H1|done].
Qed.

(** C5. The two papers of a connection returned by [find_connections] never
    have the same source. *)
Theorem find_connections_cross_source (papers : list Paper)
  (keyword_threshold : Z) (c : Connection) :
  c ∈ find_connections papers keyword_threshold →
  source (paper_a c) ≠ source (paper_b c).
Proof.
  intros Hc.
  apply elem_of_find_connections in Hc
    as (i & j & sa & sb & pa & pb & Hij & Hi & Hj & Hpa & Hpb & _ & ->).
  destruct (group_by_source_inv papers) as [Hnd Hsrc].
  simpl.
  rewrite (group_of_sources _ _ _ Hsrc Hpa), (group_of_sources _ _ _ Hsrc Hpb).
  intros ->.
  pose proof (NoDup_lookup _ _ _ _ Hnd Hi Hj). lia.
Qed.

Lemma find_connections_strength_witness :
  connection_rich ∈ find_connections [rich_a; rich_b] 3 ∧
  strength connection_rich = (_calculate_connection rich_a rich_b 3).1 ∧
  ∃ shared_authors_count shared_keywords_count shared_words_count,
    counts (shared_name (authors rich_a) (authors rich_b)) shared_authors_count
    ∧ counts (shared_name (keywords rich_a) (keywords rich_b))
        shared_keywords_count
    ∧ counts (shared_title_word rich_a rich_b) shared_words_count
    ∧ (_calculate_connection rich_a rich_b 3).1 =
        Z.min (author_contribution shared_authors_count
               + keyword_contribution 3 shared_keywords_count
               + title_contribution shared_words_count) 10.
Proof.
  assert (H : connection_rich ∈ find_connections [rich_a; rich_b] 3)
    by (vm_compute; left).
  split; [exact H|].
  split.
  - exact (proj1 (proj2 (find_connections_strength [rich_a; rich_b] 3)
                    connection_rich H)).
  - exact (proj1 (find_connections_strength [rich_a; rich_b] 3) rich_a rich_b).
Defined.

(** In that pair one author is shared (a name with an accented capital on
    one side), three keywords and two title words: 3 + 3 + 2. *)
Example rich_pair_signals :
  strength connection_rich = 8
  ∧ counts (shared_name (authors rich_a) (authors rich_b)) 1
  ∧ counts (shared_name (keywords rich_a) (keywords rich_b)) 3
  ∧ counts (shared_title_word rich_a rich_b) 2.
Proof.
  split; [vm_compute; reflexivity|].
  split_and!.
  - replace 1 with (set_len (shared_authors rich_a rich_b))
      by (vm_compute; reflexivity).
    apply counts_set. intros n. apply shared_authors_spec.
  - replace 3 with (set_len (shared_keywords rich_a rich_b))
      by (vm_compute; reflexivity).
    apply counts_set. intros n. apply shared_keywords_spec.
  - replace 2 with (set_len (shared_title_words rich_a rich_b))
      by (vm_compute; reflexivity).
    apply counts_set. intros wd. apply shared_title_words_spec.
Qed.

Lemma find_connections_cross_source_witness :
  connection_one_two ∈ find_connections [paper_one; paper_two] 3 ∧
  source (paper_a connection_one_two) ≠ source (paper_b connection_one_two).
Proof.
  assert (H : connection_one_two ∈ find_connections [paper_one; paper_two] 3)
    by (vm_compute; left).
  split; [exact H|].
  exact (find_connections_cross_source [paper_one; paper_two] 3 connection_one_two H).
Defined.

(** ** The cache *)

Lemma existsb_query_matches query source cutoff (l : list QueryRow) :
  existsb (Cache.query_matches query source cutoff) l = true ↔
  ∃ q, q ∈ l ∧ q_query q = query ∧ q_source q = source ∧ cutoff < q_timestamp q.
Proof.
  rewrite existsb_exists. unfold Cache.query_matches.
  split; intros (q & Hin & H); exists q.
  - apply list_elem_of_In in Hin.
    apply andb_true_iff in H as [H H3]. apply andb_true_iff in H as [H1 H2].
    apply String.eqb_eq in H1. apply String.eqb_eq in H2. apply Z.ltb_lt in H3.
    done.
  - destruct H as (H1 & H2 & H3). split; [by apply list_elem_of_In|].
    rewrite !andb_true_iff, !String.eqb_eq, Z.ltb_lt. done.
Qed.

Lemma elem_of_select_papers source cutoff w key row :
  (key, row) ∈ Cache.select_papers source cutoff w ↔
  papers_table w !! key = Some row ∧ key.2 = source ∧ cutoff < fetched_at row.
Proof.
  unfold Cache.select_papers. rewrite sort_desc_perm.
  rewrite list_elem_of_In, filter_In, <- list_elem_of_In, elem_of_map_to_list.
  unfold Cache.paper_matches. simpl.
  rewrite andb_true_iff, String.eqb_eq, Z.ltb_lt. tauto.
Qed.

(** What [get_cached] returns, case by case. *)
Lemma get_cached_cases query source max_age_hours w :
  (Cache.get_cached query source max_age_hours w).1 =
    if existsb (Cache.query_matches query source (cutoff_at max_age_hours w))
         (queries_table w)
    then match Cache.select_papers source (cutoff_at max_age_hours w) w with
         | [] => None
         | rows => Some (Cache._row_to_paper <$> rows)
         end
    else None.
Proof.
  unfold Cache.get_cached, cutoff_at, datetime_now, Cache.microseconds_per_hour.
  simpl.
  destruct (existsb _ _); simpl; [|reflexivity].
  unfold Cache.select_papers. simpl.
  destruct (sort_desc _ _); reflexivity.
Qed.

Lemma get_cached_world query source max_age_hours w :
  (Cache.get_cached query source max_age_hours w).2 = set_ticks w (S (ticks w)).
Proof.
  unfold Cache.get_cached, datetime_now. simpl.
  destruct (existsb _ _); simpl; [|reflexivity].
  destruct (Cache.select_papers _ _ _); reflexivity.
Qed.



(** In that world the list is the one fresh paper; the paper of the same
    source that is two days old is left out. *)
Example get_cached_hit_example :
  (Cache.get_cached "corona" "arxiv" 24 cached_world).1 = Some [paper_one].
Proof. vm_compute. reflexivity. Qed.

(** ** Keyword extraction *)

Lemma lower_char_not_upper c : not_upper (PyStr.lower_char c) = true.
Proof.
  destruct c as [b0 b1 b2 b3 b4 b5 b6 b7].
  destruct b0, b1, b2, b3, b4, b5, b6, b7; reflexivity.
Qed.

Lemma lower_not_upper s : PyStr.all_chars not_upper (PyStr.lower s) = true.
Proof.
  induction s as [|c s IH]; simpl; [reflexivity|].
  by rewrite lower_char_not_upper, IH.
Qed.

Lemma lower_fixed s : PyStr.all_chars not_upper s = true → PyStr.lower s = s.
Proof.
  induction s as [|c s IH]; simpl; [reflexivity|].
  intros [Hc Hs]%andb_true_iff. rewrite (IH Hs).
  unfold PyStr.lower_char, not_upper in *.
  by destruct (PyStr.isupper c).
Qed.

Lemma all_chars_snoc P tok c :
  PyStr.all_chars P (PyStr.snoc tok c) = PyStr.all_chars P tok && P c.
Proof.
  unfold PyStr.snoc. induction tok as [|c' tok IH]; simpl.
  - by rewrite andb_true_r.
  - by rewrite IH, andb_assoc.
Qed.

Lemma split_go_all_chars P tok s :
  PyStr.all_chars P tok = true → PyStr.all_chars P s = true →
  Forall (λ t, PyStr.all_chars P t = true) (PyStr.split_go tok s).
Proof.
  revert tok. induction s as [|c s IH]; simpl; intros tok Htok Hs.
  - destruct (PyStr.nonempty tok); [by constructor|constructor].
  - apply andb_true_iff in Hs as [Hc Hs].
    destruct (PyStr.isspace c).
    + destruct (PyStr.nonempty tok); [constructor; [done|]|]; by apply IH.
    + apply IH; [|done]. by rewrite all_chars_snoc, Htok, Hc.
Qed.

Lemma filter_chars_keeps keep s :
  PyStr.all_chars keep (PyStr.filter_chars keep s) = true.
Proof.
  induction s as [|c s IH]; simpl; [reflexivity|].
  destruct (keep c) eqn:E; simpl; [by rewrite E|done].
Qed.

Lemma filter_chars_all_chars P keep s :
  PyStr.all_chars P s = true →
  PyStr.all_chars P (PyStr.filter_chars keep s) = true.
Proof.
  induction s as [|c s IH]; simpl; [done|].
  intros [Hc Hs]%andb_true_iff.
  destruct (keep c); simpl; [rewrite Hc|]; by apply IH.
Qed.

Lemma elem_of_collect_keywords words acc k :
  k ∈ collect_keywords words acc ↔
  k ∈ acc ∨ ∃ word, word ∈ words ∧ k = clean_word word ∧ keep_keyword k = true.
Proof.
  revert acc. induction words as [|word words IH]; simpl; intros acc.
  - split; [by left|]. intros [H|(w & Hw & _)]; [done|by apply elem_of_nil in Hw].
  - destruct (keep_keyword (clean_word word)) eqn:E; rewrite IH.
    + rewrite elem_of_app, list_elem_of_singleton. split.
      * intros [[H| ->]|(w & Hw & Hk)]; [by left| |].
        -- right. exists word. split; [left|done].
        -- right. destruct Hk. exists w. split; [by right|done].
      * intros [H|(w & [-> |Hw]%elem_of_cons & Hk & Hkeep)].
        -- by left; left.
        -- by left; right.
        -- right. by exists w.
    + split.
      * intros [H|(w & Hw & Hk)]; [by left|].
        right. exists w. split; [by right|done].
      * intros [H|(w & [-> |Hw]%elem_of_cons & Hk & Hkeep)]; [by left| |].
        -- subst k. congruence.
        -- right. by exists w.
Qed.

Lemma elem_of_extract_keywords text k :
  k ∈ _extract_keywords text ↔
  ∃ word, word ∈ PyStr.split (PyStr.lower text) ∧ k = clean_word word ∧
          keep_keyword k = true.
Proof.
  unfold _extract_keywords. rewrite elem_of_elements, elem_of_list_to_set.
  rewrite elem_of_collect_keywords. split; [|by right].
  intros [H|H]; [by apply elem_of_nil in H|done].
Qed.

Lemma take_length_le {A} (n : nat) (l : list A) : (length (take n l) ≤ n)%nat.
Proof. rewrite length_take. lia. Qed.

(** C9. The keyword helper returns, without repetition, exactly the cleaned
    words of the lowercased text that are longer than 3 characters and are
    not common words; each is left as it is by [lower] and is made of
    characters that [isalnum] accepts, letters with accents among them.
    The helper does not bound the number of keywords: the bound of 20 is
    applied by each adapter to the keyword list of the paper it builds. *)
Theorem extract_keywords_tokens (text : string) :
  NoDup (_extract_keywords text)
  ∧ (∀ k, k ∈ _extract_keywords text →
       PyStr.lower k = k ∧ PyStr.all_chars PyStr.isalnum k = true ∧
       3 < PyStr.len k ∧ (k ∉ keyword_common_words) ∧
       ∃ word, word ∈ PyStr.split (PyStr.lower text) ∧ k = clean_word word)
  ∧ (∀ entry p, ArXivSource._parse_entry entry = Done p →
       (length (keywords p) ≤ 20)%nat)
  ∧ (∀ data p, SemanticScholarSource._parse_paper data = Done p →
       (length (keywords p) ≤ 20)%nat)
  ∧ (∀ data server p, BioRxivSource._parse_paper data server = Done p →
       (length (keywords p) ≤ 20)%nat)
  ∧ (∀ pmid doc abstract p, PubMedSource._parse_paper pmid doc abstract = Done p →
       (length (keywords p) ≤ 20)%nat).
Proof.
  split_and!.
  - unfold _extract_keywords. apply NoDup_elements.
  - intros k (word & Hword & -> & Hkeep)%elem_of_extract_keywords.
    unfold keep_keyword in Hkeep.
    apply andb_true_iff in Hkeep as [Hlen Hstop].
    apply Z.ltb_lt in Hlen. apply bool_decide_eq_true in Hstop.
    split_and!; [|apply filter_chars_keeps|done|done|by exists word].
    apply lower_fixed, filter_chars_all_chars.
    pose proof (split_go_all_chars not_upper EmptyString (PyStr.lower text)
                  eq_refl (lower_not_upper text)) as Hall.
    rewrite Forall_forall in Hall. by apply Hall.
  - intros entry p. unfold ArXivSource._parse_entry.
    destruct (text_strip_or (atom_title entry) _); simpl; [|discriminate].
    destruct (text_strip_or (atom_summary entry) _); simpl; [|discriminate].
    destruct (text_strip_or (atom_id entry) _); simpl; [|discriminate].
    destruct (text_strip_or (atom_published entry) _); simpl; [|discriminate].
    destruct (ArXivSource.entry_authors _); simpl; [|discriminate].
    intros [= <-]. apply take_length_le.
  - intros data p. unfold SemanticScholarSource._parse_paper.
    destruct (author_names _); simpl; [|discriminate].
    destruct (concat_title _ _); simpl; [|discriminate].
    intros [= <-]. apply take_length_le.
  - intros data server p. unfold BioRxivSource._parse_paper.
    destruct (concat_title _ _); simpl; [|discriminate].
    intros [= <-]. apply take_length_le.
  - intros pmid doc abstract p. unfold PubMedSource._parse_paper.
    destruct (author_names _); simpl; [|discriminate].
    destruct (jget (doc_articleids doc) []); simpl; [|discriminate].
    destruct (concat_title _ _); simpl; [|discriminate].
    intros [= <-]. apply take_length_le.
Qed.

(** The helper alone returns 21 keywords for a text of 21 long words. *)
Lemma extract_keywords_not_capped :
  ¬ (length (_extract_keywords long_text) ≤ 20)%nat.
Proof. vm_compute. lia. Qed.

Lemma extract_keywords_tokens_witness :
  "quantumcomputing" ∈ _extract_keywords "The Quantum-Computing data!" ∧
  PyStr.all_chars PyStr.isalnum "quantumcomputing" = true.
Proof.
  assert (H : "quantumcomputing" ∈ _extract_keywords "The Quantum-Computing data!")
    by (vm_compute; left).
  split; [exact H|].
  destruct (extract_keywords_tokens "The Quantum-Computing data!")
    as (_ & Htok & _).
  exact (proj1 (proj2 (Htok "quantumcomputing" H))).
Defined.

(** Letters outside ASCII are lowercased and kept as Python does. *)
Example lower_emile : PyStr.lower emile_upper = emile_lower.
Proof. vm_compute. reflexivity. Qed.

Example extract_keywords_societe : _extract_keywords societe = [societe_lower].
Proof. vm_compute. reflexivity. Qed.

(** ** Reference traversal *)

Section Traversal.

Variable registry : gmap string (string -> BaseSource).

Lemma add_refs_inv old refs new_papers seen_ids :
  level_inv old new_papers seen_ids →
  level_inv old (add_refs refs new_papers seen_ids).1
    (add_refs refs new_papers seen_ids).2.
Proof.
  revert new_papers seen_ids.
  induction refs as [|ref refs IH]; simpl; intros new_papers seen_ids Hinv; [done|].
  case_bool_decide as Hseen; [|by apply IH].
  apply IH. destruct Hinv as (Hnd & Hold & Hsub).
  unfold level_inv. rewrite fmap_app. simpl. split_and!.
  - apply NoDup_app. split_and!; [done| |apply NoDup_singleton].
    intros k Hk ->%list_elem_of_singleton. apply Hseen, Hsub. by right.
  - intros k [Hk| ->%list_elem_of_singleton]%elem_of_app; [by apply Hold|].
    intros Hk. apply Hseen, Hsub. by left.
  - intros k [Hk|[Hk| ->%list_elem_of_singleton]%elem_of_app].
    + apply elem_of_union_r, Hsub. by left.
    + apply elem_of_union_r, Hsub. by right.
    + apply elem_of_union_l. by apply elem_of_singleton.
Qed.

Lemma dig_level_inv max_per_paper old papers new_papers seen_ids w :
  level_inv old new_papers seen_ids →
  level_inv old (dig_level registry max_per_paper papers new_papers seen_ids w).1.1
    (dig_level registry max_per_paper papers new_papers seen_ids w).1.2.
Proof.
  revert new_papers seen_ids w.
  induction papers as [|paper papers IH]; simpl; intros new_papers seen_ids w Hinv;
    [done|].
  destruct (get_source registry (source paper)) as [src|]; [|by apply IH].
  destruct (fetch_references src paper w) as [[refs|e] w']; [|by apply IH].
  pose proof (add_refs_inv old (PyStr.slice_to max_per_paper refs) _ _ Hinv) as H.
  destruct (add_refs _ new_papers seen_ids) as [new' seen']. by apply IH.
Qed.

(** The list grows at its end only, by papers with fresh keys. *)
Lemma dig_appends levels max_per_paper input papers added seen_ids w :
  level_inv (paper_key <$> input) added seen_ids →
  ∃ added',
    (dig registry levels max_per_paper papers (input ++ added) seen_ids w).1
      = input ++ added' ∧
    NoDup (paper_key <$> added') ∧
    ∀ k, k ∈ paper_key <$> added' → k ∉ paper_key <$> input.
Proof.
  revert papers added seen_ids w.
  induction levels as [|levels IH]; simpl; intros papers added seen_ids w Hinv.
  - exists added. destruct Hinv as (? & ? & ?). done.
  - assert (level_inv (paper_key <$> (input ++ added)) [] seen_ids) as Hstart.
    { destruct Hinv as (Hnd & Hold & Hsub). split_and!.
      - constructor.
      - intros k Hk. by apply elem_of_nil in Hk.
      - intros k [Hk|Hk]; [|by apply elem_of_nil in Hk].
        rewrite fmap_app in Hk. apply elem_of_app in Hk. apply Hsub. tauto. }
    pose proof (dig_level_inv max_per_paper _ papers [] seen_ids w Hstart) as Hlevel.
    destruct (dig_level registry max_per_paper papers [] seen_ids w)
      as [[new_papers seen'] w']. simpl in Hlevel.
    destruct new_papers as [|p new_papers].
    { exists added. destruct Hinv as (? & ? & ?). done. }
    rewrite <- (assoc_L (++)). apply IH.
    destruct Hinv as (Hnd & Hold & Hsub). destruct Hlevel as (Hnd' & Hold' & Hsub').
    split_and!.
    + rewrite fmap_app. apply NoDup_app. split_and!; [done| |done].
      intros k Hk Hk'. apply (Hold' k Hk'). rewrite fmap_app. apply elem_of_app. by right.
    + intros k Hk. rewrite fmap_app in Hk. apply elem_of_app in Hk as [Hk|Hk];
        [by apply Hold|].
      intros Hin. apply (Hold' k Hk). rewrite fmap_app. apply elem_of_app. by left.
    + intros k Hk. rewrite fmap_app in Hk.
      destruct Hk as [Hk|[Hk|Hk]%elem_of_app].
      * apply Hsub'. left. rewrite fmap_app. apply elem_of_app. by left.
      * apply Hsub'. left. rewrite fmap_app. apply elem_of_app. by right.
      * apply Hsub'. by right.
Qed.

Lemma fetch_references_recursive_appends papers depth max_per_paper w :
  ∃ added,
    (fetch_references_recursive registry papers depth max_per_paper w).1
      = papers ++ added ∧
    NoDup (paper_key <$> added) ∧
    ∀ k, k ∈ paper_key <$> added → k ∉ paper_key <$> papers.
Proof.
  unfold fetch_references_recursive.
  destruct (depth <=? 0).
  - exists []. simpl. rewrite app_nil_r. split_and!; [done|constructor|].
    intros k Hk. by apply elem_of_nil in Hk.
  - cbv zeta.
    pose proof (dig_appends (Z.to_nat depth) max_per_paper papers papers []
                  (list_to_set (paper_key <$> papers)) w) as H.
    rewrite app_nil_r in H. apply H. split_and!.
    + constructor.
    + intros k Hk. by apply elem_of_nil in Hk.
    + intros k [Hk|Hk]; [|by apply elem_of_nil in Hk].
      by apply elem_of_list_to_set.
Qed.

End Traversal.

(** C8. For any input the traversal returns the input list followed by the
    papers it found; the papers it adds have pairwise different (id, source)
    keys and none of them has the key of an input paper, at whatever level
    they were met again.  A key that the input holds twice stays twice: the
    result is free of repeated keys exactly when the input is. *)
Theorem fetch_references_recursive_dedup
  (registry : gmap string (string -> BaseSource)) (papers : list Paper)
  (depth max_per_paper : Z) (w : World) :
  (∃ added,
      (fetch_references_recursive registry papers depth max_per_paper w).1
        = papers ++ added ∧
      NoDup (paper_key <$> added) ∧
      ∀ k, k ∈ paper_key <$> added → k ∉ paper_key <$> papers)
  ∧ (NoDup (paper_key <$> papers) ↔
     NoDup (paper_key <$>
              (fetch_references_recursive registry papers depth max_per_paper w).1)).
Proof.
  destruct (fetch_references_recursive_appends registry papers depth
              max_per_paper w) as (added & Heq & Hadded & Hfresh).
  split; [by exists added|].
  rewrite Heq, fmap_app. split.
  - intros Hnd. apply NoDup_app. split_and!; [done| |done].
    intros k Hk Hk'. by apply (Hfresh k).
  - by intros (Hnd & _ & _)%NoDup_app.
Qed.

Lemma fetch_references_recursive_dedup_witness :
  NoDup (paper_key <$> [root_a]) ∧
  NoDup (paper_key <$>
           (fetch_references_recursive stub_registry [root_a] 2 5 quiet_world).1).
Proof.
  assert (H : NoDup (paper_key <$> [root_a])).
  { simpl. apply NoDup_singleton. }
  split; [exact H|].
  exact (proj1 (proj2 (fetch_references_recursive_dedup stub_registry [root_a] 2 5
                         quiet_world)) H).
Defined.

(** The stub answers every paper with B, A, C, B: from the input A the
    traversal adds B and C, once each. *)
Example fetch_references_recursive_example :
  (fetch_references_recursive stub_registry [root_a] 2 5 quiet_world).1
  = [root_a; ref_b; ref_c].
Proof. vm_compute. reflexivity. Qed.

(** An input that holds a key twice comes back with the key twice. *)
Lemma fetch_references_recursive_keeps_duplicates :
  ¬ NoDup (paper_key <$>
             (fetch_references_recursive stub_registry [root_a; root_a] 2 5
                quiet_world).1).
Proof.
  vm_compute. intros H. apply NoDup_cons in H as [H _].
  apply H. left.
Qed.

(** ** The adapters *)

Lemma append_parsed_Forall {A} (P : Paper → Prop) (parse : A → outcome Paper)
  items papers :
  Forall P papers →
  (∀ item p, item ∈ items → parse item = Done p → P p) →
  Forall P (append_parsed parse items papers).1.
Proof.
  revert papers. induction items as [|item items IH]; simpl; intros papers Hp Hparse;
    [done|].
  destruct (parse item) as [paper|e] eqn:E; [|done].
  apply IH.
  - apply Forall_app. split; [done|]. constructor; [|constructor].
    eapply Hparse; [left|done].
  - intros item' p Hin. apply Hparse. by right.
Qed.


Lemma collect_Forall (P : Paper → Prop) query_lower server limit collection papers :
  Forall P papers →
  (∀ item p, item ∈ collection →
     BioRxivSource._parse_paper item server = Done p → P p) →
  Forall P (BioRxivSource.collect query_lower server limit collection papers).1.
Proof.
  revert papers.
  induction collection as [|item items IH]; simpl; intros papers Hp Hparse; [done|].
  destruct (BioRxivSource.matches_query query_lower item) as [[|]|e]; [| |done].
  - destruct (BioRxivSource._parse_paper item server) as [paper|e] eqn:E; [|done].
    assert (Forall P (papers ++ [paper])) as Hp'.
    { apply Forall_app. split; [done|]. constructor; [|constructor].
      eapply Hparse; [left|done]. }
    destruct (limit <=? _); [done|].
    apply IH; [done|]. intros item' p Hin. apply Hparse. by right.
  - apply IH; [done|]. intros item' p Hin. apply Hparse. by right.
Qed.

Lemma append_docs_Forall (P : Paper → Prop) result abstracts idlist papers :
  Forall P papers →
  (∀ pmid doc abstract p,
     PubMedSource.summary_doc result pmid = Done (Some doc) →
     PubMedSource._parse_paper pmid doc abstract = Done p → P p) →
  Forall P (PubMedSource.append_docs result abstracts idlist papers).1.
Proof.
  revert papers. induction idlist as [|pmid idlist IH]; simpl; intros papers Hp Hparse;
    [done|].
  destruct (PubMedSource.summary_doc result pmid) as [[doc|]|e] eqn:Hdoc;
    [|by apply IH|done].
  destruct (PubMedSource._parse_paper pmid doc _) as [paper|e] eqn:E; [|done].
  apply IH; [|done].
  apply Forall_app. split; [done|]. constructor; [|constructor]. by eapply Hparse.
Qed.

Lemma slice_to_Forall {A} (P : A → Prop) n (l : list A) :
  Forall P l → Forall P (PyStr.slice_to n l).
Proof. unfold PyStr.slice_to. intros H. destruct (0 <=? n); by apply Forall_take. Qed.

Lemma slice_to_length {A} n (l : list A) :
  0 ≤ n → Z.of_nat (length (PyStr.slice_to n l)) ≤ n.
Proof.
  intros Hn. unfold PyStr.slice_to.
  destruct (Z.leb_spec 0 n); [|lia]. rewrite length_take. lia.
Qed.

(** The source written by each parser. *)
Lemma arxiv_parse_source entry p :
  ArXivSource._parse_entry entry = Done p → source p = "arxiv".
Proof.
  unfold ArXivSource._parse_entry.
  destruct (text_strip_or (atom_title entry) _); simpl; [|discriminate].
  destruct (text_strip_or (atom_summary entry) _); simpl; [|discriminate].
  destruct (text_strip_or (atom_id entry) _); simpl; [|discriminate].
  destruct (text_strip_or (atom_published entry) _); simpl; [|discriminate].
  destruct (ArXivSource.entry_authors _); simpl; [|discriminate].
  by intros [= <-].
Qed.

Lemma sem_parse_source data p :
  SemanticScholarSource._parse_paper data = Done p → source p = "semantic_scholar".
Proof.
  unfold SemanticScholarSource._parse_paper.
  destruct (author_names _); simpl; [|discriminate].
  destruct (concat_title _ _); simpl; [|discriminate].
  by intros [= <-].
Qed.

Lemma rxiv_parse_source data server p :
  BioRxivSource._parse_paper data server = Done p → source p = server.
Proof.
  unfold BioRxivSource._parse_paper.
  destruct (concat_title _ _); simpl; [|discriminate].
  by intros [= <-].
Qed.

Lemma pubmed_parse_source pmid doc abstract p :
  PubMedSource._parse_paper pmid doc abstract = Done p → source p = "pubmed".
Proof.
  unfold PubMedSource._parse_paper.
  destruct (author_names _); simpl; [|discriminate].
  destruct (jget (doc_articleids doc) []); simpl; [|discriminate].
  destruct (concat_title _ _); simpl; [|discriminate].
  by intros [= <-].
Qed.

(** [session_get] logs the request and leaves the rest of the world. *)
Lemma session_get_cases req w :
  (session_get req w).2 = set_requests w (requests w ++ [req]) ∧
  ((session_get req w).1 = Raised ConnectionError ∨
   ∃ st body, net w (length (requests w)) req = Resp st body ∧
              (session_get req w).1 = Done (st, body)).
Proof.
  unfold session_get.
  destruct (net w (length (requests w)) req) as [|st body]; simpl.
  - by split; [|left].
  - split; [done|right]. by exists st, body.
Qed.

Lemma upstream_parsed_net w w' p :
  net w' = net w → upstream_parsed w p → upstream_parsed w' p.
Proof. unfold upstream_parsed. by intros ->. Qed.

(** The case of a search that ends without a paper. *)
Ltac no_paper :=
  exists []; simpl; split_and!;
    [done|constructor|done|rewrite ?length_app; simpl; lia].

Lemma arxiv_search_result query limit w :
  search_result (λ p, source p = "arxiv" ∧ upstream_parsed w p) w
    (ArXivSource.search query limit w).
Proof.
  unfold search_result, ArXivSource.search.
  destruct (session_get_cases (ArXivSource.search_request query limit) w)
    as [Hw Hr].
  destruct (session_get _ w) as [got w']. simpl in *. subst w'.
  destruct Hr as [-> |(st & body & Hnet & ->)]; simpl; [no_paper|].
  destruct (raise_for_status (st, body)); simpl; [|no_paper].
  unfold ArXivSource.feed_entries. simpl.
  destruct body as [entries| | | | | | |]; simpl; try no_paper.
  eexists. split_and!; [reflexivity| |done|rewrite length_app; simpl; lia].
  apply append_parsed_Forall; [constructor|].
  intros entry p Hin Hparse. split; [by eapply arxiv_parse_source|].
  exists (length (requests w)), (ArXivSource.search_request query limit), st,
    (AtomFeed entries). split; [done|]. by exists entry.
Qed.

Lemma sem_search_result query limit w :
  search_result (λ p, source p = "semantic_scholar" ∧ upstream_parsed w p) w
    (SemanticScholarSource.search query limit w).
Proof.
  unfold search_result, SemanticScholarSource.search.
  destruct (session_get_cases (SemanticScholarSource.search_request query limit) w)
    as [Hw Hr].
  destruct (session_get _ w) as [got w']. simpl in *. subst w'.
  destruct Hr as [-> |(st & body & Hnet & ->)]; simpl; [no_paper|].
  destruct (st =? 200); [|no_paper].
  unfold SemanticScholarSource.search_items. simpl.
  destruct body as [|data| | | | | |]; simpl; try no_paper.
  destruct data as [| |items]; simpl; try no_paper.
  eexists. split_and!; [reflexivity| |done|rewrite length_app; simpl; lia].
  apply append_parsed_Forall; [constructor|].
  intros item p Hin Hparse. split; [by eapply sem_parse_source|].
  exists (length (requests w)), (SemanticScholarSource.search_request query limit),
    st, (SemSearchJson (Has items)). split; [done|]. by exists item.
Qed.


Lemma fetch_from_server_result server start_date end_date query limit w :
  Forall (λ p, source p = server ∧ upstream_parsed w p)
    (BioRxivSource._fetch_from_server server start_date end_date query limit w).1
  ∧ net (BioRxivSource._fetch_from_server server start_date end_date query limit w).2
      = net w
  ∧ (length (requests w) <
     length (requests (BioRxivSource._fetch_from_server server start_date
                         end_date query limit w).2))%nat.
Proof.
  unfold BioRxivSource._fetch_from_server.
  destruct (session_get_cases
              (BioRxivSource.details_request server start_date end_date) w)
    as [Hw Hr].
  destruct (session_get _ w) as [got w']. simpl in *. subst w'.
  assert (length (requests w) <
          length (requests w ++ [BioRxivSource.details_request server start_date
                                   end_date]))%nat as Hlen
    by (rewrite length_app; simpl; lia).
  destruct Hr as [-> |(st & body & Hnet & ->)]; simpl; [by split_and!|].
  destruct (raise_for_status (st, body)); simpl; [|by split_and!].
  unfold BioRxivSource.details_collection. simpl.
  destruct body as [| | |collection| | | |]; simpl; try by split_and!.
  destruct collection as [| |items]; simpl; try by split_and!.
  split_and!; [|done..].
  apply collect_Forall; [constructor|].
  intros item p Hin Hparse. split; [by eapply rxiv_parse_source|].
  exists (length (requests w)),
    (BioRxivSource.details_request server start_date end_date), st,
    (RxivJson (Has items)). split; [done|]. by exists item, server.
Qed.

Lemma rxiv_search_result query limit w :
  search_result
    (λ p, (source p = "biorxiv" ∨ source p = "medrxiv") ∧ upstream_parsed w p) w
    (BioRxivSource.search query limit w).
Proof.
  unfold search_result, BioRxivSource.search, datetime_now.
  set (w1 := set_ticks w (S (ticks w))).
  set (end_date := clock w (ticks w)).
  set (start_date := end_date - 365 * BioRxivSource.microseconds_per_day).
  destruct (fetch_from_server_result "biorxiv" start_date end_date query limit w1)
    as (Hp1 & Hn1 & Hl1).
  destruct (BioRxivSource._fetch_from_server "biorxiv" _ _ _ _ w1) as [found w2].
  simpl in *.
  assert (Forall (λ p, (source p = "biorxiv" ∨ source p = "medrxiv")
                       ∧ upstream_parsed w p) found) as Hfound.
  { eapply Forall_impl; [exact Hp1|]. intros p [Hs Hu]. split; [by left|].
    by apply (upstream_parsed_net w1). }
  destruct (Z.of_nat (length found) <? limit).
  - destruct (fetch_from_server_result "medrxiv" start_date end_date query
                (limit - Z.of_nat (length found)) w2) as (Hp2 & Hn2 & Hl2).
    destruct (BioRxivSource._fetch_from_server "medrxiv" _ _ _ _ w2) as [found' w3].
    simpl in *. eexists. split_and!; [reflexivity| |congruence|lia].
    apply slice_to_Forall, Forall_app. split; [done|].
    eapply Forall_impl; [exact Hp2|]. intros p [Hs Hu]. split; [by right|].
    apply (upstream_parsed_net w2); [|done]. congruence.
  - simpl. eexists. split_and!; [reflexivity| |done|lia].
    by apply slice_to_Forall.
Qed.

Lemma pubmed_search_result query limit w :
  search_result (λ p, source p = "pubmed" ∧ upstream_parsed w p) w
    (PubMedSource.search query limit w).
Proof.
  unfold search_result, PubMedSource.search.
  destruct (session_get_cases (PubMedSource.search_request query limit) w)
    as [Hw Hr].
  destruct (session_get _ w) as [got w1]. simpl in *. subst w1.
  destruct Hr as [-> |(st & body & Hnet & ->)]; simpl; [no_paper|].
  destruct (raise_for_status (st, body)); simpl; [|no_paper].
  destruct (PubMedSource.search_idlist (st, body)) as [[[|pmid idlist]|]|e];
    simpl; try no_paper.
  set (w1 := set_requests w _).
  destruct (session_get_cases (PubMedSource.summary_request (pmid :: idlist)) w1)
    as [Hw2 Hr2].
  destruct (session_get _ w1) as [got2 w2]. simpl in *. subst w2.
  assert (length (requests w) < length (requests w1 ++ [PubMedSource.summary_request (pmid :: idlist)]))%nat as Hlen
    by (unfold w1; simpl; rewrite !length_app; simpl; lia).
  destruct Hr2 as [-> |(st2 & body2 & Hnet2 & ->)]; simpl.
  { exists []. simpl. split_and!; [done|constructor|done|done]. }
  destruct (raise_for_status (st2, body2)); simpl.
  2:{ exists []. simpl. split_and!; [done|constructor|done|done]. }
  unfold PubMedSource.summary_json. simpl.
  destruct body2 as [| | | | |result| |]; simpl;
    try (exists []; simpl; split_and!; [done|constructor|done|done]).
  assert (∀ found,
    Forall (λ p, source p = "pubmed" ∧ upstream_parsed w p)
      (PubMedSource.append_docs result found (pmid :: idlist) []).1) as Hall.
  { intros found. apply append_docs_Forall; [constructor|].
    intros pmid' doc abstract p Hdoc Hparse.
    split; [by eapply pubmed_parse_source|].
    unfold PubMedSource.summary_doc in Hdoc.
    destruct result as [| |docs]; [discriminate..|].
    destruct (docs !! pmid') as [[doc'|]|] eqn:Hlook; [|discriminate..].
    destruct (PubMedSource.doc_nonempty doc'); [|discriminate].
    injection Hdoc as ->.
    exists (length (requests w1)), (PubMedSource.summary_request (pmid :: idlist)),
      st2, (ESummaryJson (Has docs)). split; [done|].
    by exists pmid', doc, abstract. }
  unfold PubMedSource._fetch_abstracts.
  set (w2 := set_requests w1 _) in *.
  destruct (session_get_cases (PubMedSource.fetch_request (pmid :: idlist)) w2)
    as [Hw3 _].
  destruct (session_get _ w2) as [got3 w3]. simpl in *. subst w3.
  assert (length (requests w) <
          length (requests w2 ++ [PubMedSource.fetch_request (pmid :: idlist)]))%nat
    as Hlen3 by (rewrite length_app; unfold w2; simpl; lia).
  match goal with
  | |- context [match ?m with Done _ => _ | Raised _ => _ end] => destruct m
  end; simpl; (eexists; split_and!; [reflexivity|apply Hall|done|done]).
Qed.

Lemma append_parsed_prefix {A} (parse : A → outcome Paper) items papers :
  (append_parsed parse items papers).1
  = papers ++ parsed_before_failure parse items.
Proof.
  revert papers. induction items as [|item items IH]; simpl; intros papers.
  - by rewrite app_nil_r.
  - destruct (parse item) as [paper|e]; simpl.
    + by rewrite IH, <- (assoc_L (++)).
    + by rewrite app_nil_r.
Qed.

(** An answered arXiv search returns the entries parsed before the first
    failure, however many they are and whatever [limit] is. *)
Lemma arxiv_search_answered query limit w st entries :
  net w (length (requests w)) (ArXivSource.search_request query limit)
    = Resp st (AtomFeed entries) →
  ¬ (400 ≤ st < 600) →
  (ArXivSource.search query limit w).1
  = Done (parsed_before_failure ArXivSource._parse_entry entries).
Proof.
  intros Hnet Hst. unfold ArXivSource.search, session_get. rewrite Hnet. simpl.
  unfold raise_for_status. simpl.
  destruct (Z.leb_spec 400 st), (Z.ltb_spec st 600); simpl; try lia;
    by rewrite append_parsed_prefix.
Qed.

Lemma sem_search_answered query limit w items :
  net w (length (requests w)) (SemanticScholarSource.search_request query limit)
    = Resp 200 (SemSearchJson (Has items)) →
  (SemanticScholarSource.search query limit w).1
  = Done (parsed_before_failure SemanticScholarSource._parse_paper items).
Proof.
  intros Hnet. unfold SemanticScholarSource.search, session_get. rewrite Hnet.
  simpl. by rewrite append_parsed_prefix.
Qed.

(** The entry after a broken one is not reached. *)
Example arxiv_search_partial :
  ∃ paper, (ArXivSource.search "plasma" 5 broken_feed_world).1 = Done [paper] ∧
           ArXivSource._parse_entry short_entry = Done paper.
Proof. eexists. split; vm_compute; reflexivity. Qed.

Lemma registry_cases name cls :
  SOURCE_REGISTRY !! name = Some cls →
  (name = "arxiv" ∧ cls = ArXivSource_class) ∨
  (name = "semantic_scholar" ∧ cls = SemanticScholarSource_class) ∨
  (name = "biorxiv" ∧ cls = BioRxivSource_class) ∨
  (name = "pubmed" ∧ cls = PubMedSource_class).
Proof.
  unfold SOURCE_REGISTRY, register_source. intros H.
  repeat (apply lookup_insert_Some in H as [[<- <-]|[_ H]]; [tauto|]).
  by rewrite lookup_empty in H.
Qed.

Lemma search_result_impl (P Q : Paper → Prop) w r :
  (∀ p, P p → Q p) → search_result P w r → search_result Q w r.
Proof.
  intros HPQ (papers & Hr & Hall & Hnet & Hlen). exists papers.
  split_and!; [done| |done..]. by eapply Forall_impl.
Qed.

(** What a search of a registered adapter returns. *)
Lemma registered_search_result name cls query limit w :
  SOURCE_REGISTRY !! name = Some cls →
  search_result
    (λ p, (source p = name ∨ (name = "biorxiv" ∧ source p = "medrxiv"))
          ∧ upstream_parsed w p) w
    (search (cls name) query limit w).
Proof.
  intros [[-> ->]|[[-> ->]|[[-> ->]|[-> ->]]]]%registry_cases; simpl.
  - eapply search_result_impl; [|apply arxiv_search_result].
    intros p [Hs Hu]. split; [by left|done].
  - eapply search_result_impl; [|apply sem_search_result].
    intros p [Hs Hu]. split; [by left|done].
  - eapply search_result_impl; [|apply rxiv_search_result].
    intros p [[Hs|Hs] Hu]; (split; [|done]); [by left|by right].
  - eapply search_result_impl; [|apply pubmed_search_result].
    intros p [Hs Hu]. split; [by left|done].
Qed.

(** What each search returns, told from the answers of the network. *)
Lemma arxiv_search_kept query limit w :
  (ArXivSource.search query limit w).1 = Done (arxiv_kept query limit w).
Proof.
  unfold ArXivSource.search, arxiv_kept, session_get.
  destruct (net w (length (requests w)) (ArXivSource.search_request query limit))
    as [|st body]; simpl; [done|].
  unfold raise_for_status, status_ok. simpl.
  destruct ((400 <=? st) && (st <? 600)); simpl; [by destruct body|].
  destruct body; simpl; try done. by rewrite append_parsed_prefix.
Qed.

Lemma sem_search_kept query limit w :
  (SemanticScholarSource.search query limit w).1 = Done (sem_kept query limit w).
Proof.
  unfold SemanticScholarSource.search, sem_kept, session_get.
  destruct (net w (length (requests w))
              (SemanticScholarSource.search_request query limit))
    as [|st body]; simpl; [done|].
  destruct (st =? 200); simpl.
  - unfold SemanticScholarSource.search_items. simpl.
    destruct body as [|data| | | | | |]; simpl; try done.
    destruct data as [| |items]; simpl; try done.
    by rewrite append_parsed_prefix.
  - destruct body as [|data| | | | | |]; try done. by destruct data.
Qed.

Lemma append_docs_kept result abstracts idlist papers :
  (PubMedSource.append_docs result abstracts idlist papers).1
  = papers ++ kept_before_failure (pubmed_step result abstracts) idlist.
Proof.
  revert papers. induction idlist as [|pmid idlist IH]; simpl; intros papers.
  - by rewrite app_nil_r.
  - unfold pubmed_step at 1.
    destruct (PubMedSource.summary_doc result pmid) as [[doc|]|e]; simpl.
    + destruct (PubMedSource._parse_paper pmid doc _) as [paper|e]; simpl.
      * by rewrite IH, <- (assoc_L (++)).
      * by rewrite app_nil_r.
    + apply IH.
    + by rewrite app_nil_r.
Qed.

Lemma fetch_abstracts_kept pmids w :
  (PubMedSource._fetch_abstracts pmids w).1
  = pubmed_abstracts pmids (length (requests w)) w.
Proof.
  unfold PubMedSource._fetch_abstracts, pubmed_abstracts, session_get.
  destruct (net w (length (requests w)) (PubMedSource.fetch_request pmids))
    as [|st body]; simpl; [done|].
  unfold raise_for_status, status_ok. simpl.
  destruct ((400 <=? st) && (st <? 600)); simpl; [by destruct body|].
  by destruct body.
Qed.

Lemma pubmed_abstracts_net idlist n w w' :
  net w' = net w → pubmed_abstracts idlist n w' = pubmed_abstracts idlist n w.
Proof. unfold pubmed_abstracts. by intros ->. Qed.

Lemma pubmed_search_kept query limit w :
  (PubMedSource.search query limit w).1 = Done (pubmed_kept query limit w).
Proof.
  unfold PubMedSource.search, pubmed_kept, session_get at 1.
  destruct (net w (length (requests w)) (PubMedSource.search_request query limit))
    as [|st body]; simpl; [done|].
  unfold raise_for_status at 1, status_ok at 1. simpl.
  destruct ((400 <=? st) && (st <? 600)); simpl.
  { destruct body as [| | | |es| | |]; try done.
    destruct es as [| |idl]; try done. by destruct idl. }
  unfold PubMedSource.search_idlist. simpl.
  destruct body as [| | | |es| | |]; simpl; try done.
  destruct es as [| |idl]; simpl; try done.
  destruct idl as [| |idlist]; simpl; try done.
  destruct idlist as [|pmid idlist]; [done|].
  rewrite bool_decide_true by done. cbn [andb]. cbv beta iota.
  generalize (pmid :: idlist) as ids. clear pmid idlist. intros ids.
  set (w1 := set_requests w _).
  unfold session_get at 1.
  assert (length (requests w1) = S (length (requests w))) as Hlen
    by (unfold w1; simpl; rewrite length_app; simpl; lia).
  change (net w1) with (net w). rewrite Hlen.
  destruct (net w (S (length (requests w))) (PubMedSource.summary_request ids))
    as [|st' body']; simpl; [done|].
  unfold raise_for_status, status_ok. simpl.
  destruct ((400 <=? st') && (st' <? 600)); simpl; [by destruct body'|].
  unfold PubMedSource.summary_json. simpl.
  destruct body' as [| | | | |result| |]; simpl; try done.
  set (w2 := set_requests w1 _).
  pose proof (fetch_abstracts_kept ids w2) as Habs.
  assert (length (requests w2) = S (S (length (requests w)))) as Hlen2
    by (unfold w2, w1; simpl; rewrite !length_app; simpl; lia).
  rewrite Hlen2 in Habs.
  rewrite (pubmed_abstracts_net ids _ w w2) in Habs by done.
  destruct (PubMedSource._fetch_abstracts ids w2) as [abstracts w3].
  cbn [fst] in Habs. subst abstracts.
  cbn [fst]. by rewrite append_docs_kept.
Qed.

Lemma collect_kept query_lower server limit collection papers :
  (BioRxivSource.collect query_lower server limit collection papers).1
  = papers ++ take (Z.to_nat (Z.max 1 (limit - Z.of_nat (length papers))))
                (kept_before_failure (rxiv_step query_lower server) collection).
Proof.
  revert papers. induction collection as [|item items IH]; simpl; intros papers.
  - by rewrite take_nil, app_nil_r.
  - unfold rxiv_step at 1.
    destruct (BioRxivSource.matches_query query_lower item) as [[|]|e]; simpl.
    + destruct (BioRxivSource._parse_paper item server) as [paper|e]; simpl.
      * rewrite length_app. simpl.
        destruct (Z.leb_spec limit (Z.of_nat (length papers + 1))) as [Hle|Hgt];
          simpl.
        -- replace (Z.to_nat (Z.max 1 (limit - Z.of_nat (length papers))))
             with 1%nat by lia.
           simpl. by rewrite take_0.
        -- rewrite IH, length_app, <- (assoc_L (++)). simpl.
           replace (Z.to_nat (Z.max 1 (limit - Z.of_nat (length papers))))
             with (S (Z.to_nat (Z.max 1 (limit - Z.of_nat (length papers + 1)))))
             by lia.
           done.
      * by rewrite take_nil, app_nil_r.
    + apply IH.
    + by rewrite take_nil, app_nil_r.
Qed.

Lemma fetch_from_server_kept server start_date end_date query limit w :
  (BioRxivSource._fetch_from_server server start_date end_date query limit w).1
  = rxiv_kept_from server (length (requests w)) start_date end_date query limit w.
Proof.
  unfold BioRxivSource._fetch_from_server, rxiv_kept_from, session_get.
  destruct (net w (length (requests w))
              (BioRxivSource.details_request server start_date end_date))
    as [|st body]; simpl; [done|].
  unfold raise_for_status, status_ok. simpl.
  destruct ((400 <=? st) && (st <? 600)); simpl.
  { destruct body as [| | |c| | | |]; try done. by destruct c. }
  unfold BioRxivSource.details_collection. simpl.
  destruct body as [| | |c| | | |]; simpl; try done.
  destruct c as [| |items]; simpl; try done.
  rewrite collect_kept. simpl. by rewrite Z.sub_0_r.
Qed.

Lemma fetch_from_server_requests server start_date end_date query limit w :
  requests (BioRxivSource._fetch_from_server server start_date end_date query
              limit w).2
  = requests w ++ [BioRxivSource.details_request server start_date end_date].
Proof.
  unfold BioRxivSource._fetch_from_server.
  destruct (session_get_cases
              (BioRxivSource.details_request server start_date end_date) w)
    as [Hw _].
  destruct (session_get _ w) as [got w1]. simpl in Hw. subst w1.
  by destruct (got ≫= _).
Qed.

Lemma rxiv_kept_from_net server n start_date end_date query limit w w' :
  net w' = net w →
  rxiv_kept_from server n start_date end_date query limit w'
  = rxiv_kept_from server n start_date end_date query limit w.
Proof. unfold rxiv_kept_from. by intros ->. Qed.

Lemma rxiv_search_kept query limit w :
  (BioRxivSource.search query limit w).1 = Done (rxiv_kept query limit w).
Proof.
  unfold BioRxivSource.search, rxiv_kept, datetime_now.
  set (w1 := set_ticks w (S (ticks w))).
  set (end_date := clock w (ticks w)).
  set (start_date := end_date - 365 * BioRxivSource.microseconds_per_day).
  pose proof (fetch_from_server_kept "biorxiv" start_date end_date query limit w1)
    as H1.
  pose proof (fetch_from_server_requests "biorxiv" start_date end_date query
                limit w1) as Hreq.
  destruct (fetch_from_server_result "biorxiv" start_date end_date query
              limit w1) as (_ & Hnet & _).
  destruct (BioRxivSource._fetch_from_server "biorxiv" _ _ _ _ w1) as [found w2].
  simpl in *. subst found.
  change (length (requests w1)) with (length (requests w)).
  rewrite (rxiv_kept_from_net "biorxiv" _ _ _ _ _ w w1) by done.
  set (first := rxiv_kept_from "biorxiv" _ _ _ _ _ w).
  destruct (Z.of_nat (length first) <? limit); [|done].
  pose proof (fetch_from_server_kept "medrxiv" start_date end_date query
                (limit - Z.of_nat (length first)) w2) as H2.
  destruct (BioRxivSource._fetch_from_server "medrxiv" _ _ _ _ w2) as [found' w3].
  simpl in *. subst found'. do 2 f_equal.
  rewrite Hreq, length_app. simpl.
  replace (length (requests w) + 1)%nat with (S (length (requests w))) by lia.
  f_equal. by apply rxiv_kept_from_net.
Qed.

Lemma registered_search_kept name cls query limit w :
  SOURCE_REGISTRY !! name = Some cls →
  (search (cls name) query limit w).1 = Done (kept_results name query limit w).
Proof.
  intros [[-> ->]|[[-> ->]|[[-> ->]|[-> ->]]]]%registry_cases; simpl.
  - apply arxiv_search_kept.
  - apply sem_search_kept.
  - apply rxiv_search_kept.
  - apply pubmed_search_kept.
Qed.

(** C6. The search of every registered adapter returns a list and never an
    exception, whatever the network answers.  The list is the subset of the
    results that parsed successfully: the papers parsed from the items of
    the upstream answer, in order, up to the first item whose parsing fails
    (the failure ends the loop, and what was appended before it is
    returned).  Every paper of the list is the successful parse of an item
    of an upstream answer, and the list is empty when no request is
    answered. *)
Theorem search_never_raises (name : string) (cls : string → BaseSource)
  (query : string) (limit : Z) (w : World) :
  SOURCE_REGISTRY !! name = Some cls →
  (search (cls name) query limit w).1 = Done (kept_results name query limit w)
  ∧ (∀ p, p ∈ kept_results name query limit w → upstream_parsed w p)
  ∧ ((∀ n req, net w n req = NoResponse) → kept_results name query limit w = []).
Proof.
  intros Hreg.
  destruct (registered_search_result name cls query limit w Hreg)
    as (papers & Hr & Hall & _ & _).
  rewrite (registered_search_kept name cls query limit w Hreg) in Hr.
  injection Hr as <-.
  rewrite Forall_forall in Hall.
  split_and!; [by apply registered_search_kept|intros p Hp; by apply Hall|].
  intros Hdown.
  destruct (kept_results name query limit w) as [|p papers]; [done|].
  destruct (Hall p) as [_ (n & req & st & body & Hnet & _)]; [left|].
  rewrite Hdown in Hnet. discriminate.
Qed.

Lemma search_never_raises_witness :
  SOURCE_REGISTRY !! "arxiv" = Some ArXivSource_class ∧
  (search (ArXivSource_class "arxiv") "plasma" 5 broken_feed_world).1
  = Done (kept_results "arxiv" "plasma" 5 broken_feed_world).
Proof.
  assert (H : SOURCE_REGISTRY !! "arxiv" = Some ArXivSource_class)
    by reflexivity.
  split; [exact H|].
  exact (proj1 (search_never_raises "arxiv" ArXivSource_class "plasma" 5
                  broken_feed_world H)).
Defined.

(** Of a feed of three entries whose second is broken the subset is the
    first entry: the third is not reached. *)
Example kept_results_broken_feed :
  ∃ paper, ArXivSource._parse_entry short_entry = Done paper ∧
           kept_results "arxiv" "plasma" 5 broken_feed_world = [paper].
Proof. eexists. split; vm_compute; reflexivity. Qed.




(** The bioRxiv adapter cuts its list at [limit]. *)
Lemma biorxiv_search_within_limit query limit w papers :
  0 ≤ limit →
  (BioRxivSource.search query limit w).1 = Done papers →
  Z.of_nat (length papers) ≤ limit.
Proof.
  intros Hlimit. unfold BioRxivSource.search.
  destruct (datetime_now w) as [end_date w1].
  destruct (BioRxivSource._fetch_from_server "biorxiv" _ _ _ _ w1) as [found w2].
  simpl. destruct (Z.of_nat (length found) <? limit).
  - destruct (BioRxivSource._fetch_from_server "medrxiv" _ _ _ _ w2) as [found' w3].
    simpl. intros [= <-]. by apply slice_to_length.
  - simpl. intros [= <-]. by apply slice_to_length.
Qed.

(** C3. With [limit] 1 and an upstream answer of two items, the arXiv, the
    Semantic Scholar and the PubMed search each return two papers: they pass
    [limit] upstream and do not cut the list they build. *)
Theorem search_exceeds_limit :
  (∃ papers, (ArXivSource.search "plasma" 1 feed_world).1 = Done papers ∧
             length papers = 2%nat)
  ∧ (∃ papers, (SemanticScholarSource.search "plasma" 1 sem_world).1 = Done papers ∧
               length papers = 2%nat)
  ∧ (∃ papers, (PubMedSource.search "plasma" 1 pubmed_world).1 = Done papers ∧
               length papers = 2%nat).
Proof.
  split_and!; eexists; (split; [vm_compute; reflexivity|reflexivity]).
Qed.

(** ** The scan and the cache *)

(** The writes to the cache leave the network, the clock and the log of
    requests as they are. *)
Lemma insert_papers_world papers w :
  net (Cache.insert_papers papers w).2 = net w ∧
  clock (Cache.insert_papers papers w).2 = clock w ∧
  requests (Cache.insert_papers papers w).2 = requests w ∧
  queries_table (Cache.insert_papers papers w).2 = queries_table w.
Proof.
  revert w. induction papers as [|paper papers IH]; intros w; simpl; [done|].
  destruct (Cache.sqlite_int (citations paper)); simpl; [|done].
  destruct (IH (set_papers_table (set_ticks w (S (ticks w)))
                  (<[(id paper, source paper)
                     := Cache.paper_row paper (clock w (ticks w))]>
                     (papers_table w)))) as (H1 & H2 & H3 & H4).
  done.
Qed.

Lemma save_papers_world papers w :
  net (Cache.save_papers papers w).2 = net w ∧
  clock (Cache.save_papers papers w).2 = clock w ∧
  requests (Cache.save_papers papers w).2 = requests w ∧
  queries_table (Cache.save_papers papers w).2 = queries_table w.
Proof.
  unfold Cache.save_papers. pose proof (insert_papers_world papers w) as H.
  by destruct (Cache.insert_papers papers w) as [[[]|e] w'].
Qed.

Lemma record_query_world query source max_results result_count w :
  net (Cache.record_query query source max_results result_count w).2 = net w ∧
  clock (Cache.record_query query source max_results result_count w).2 = clock w ∧
  requests (Cache.record_query query source max_results result_count w).2
    = requests w ∧
  papers_table (Cache.record_query query source max_results result_count w).2
    = papers_table w.
Proof.
  unfold Cache.record_query, datetime_now.
  by destruct (Cache.sqlite_int max_results && Cache.sqlite_int result_count).
Qed.





(** * Further properties *)

(** ** The connection engine, continued *)

Lemma insert_desc_sorted {A} (key : A → Z) x l :
  StronglySorted (λ a b, key b ≤ key a) l →
  StronglySorted (λ a b, key b ≤ key a) (insert_desc key x l).
Proof.
  induction l as [|y l IH]; simpl; intros Hl.
  - repeat constructor.
  - apply StronglySorted_inv in Hl as [Hl Hy].
    destruct (Z.ltb_spec (key x) (key y)) as [Hlt|Hge].
    + constructor; [by apply IH|].
      rewrite insert_desc_perm. constructor; [lia|done].
    + constructor; [by constructor|].
      constructor; [lia|].
      eapply Forall_impl; [exact Hy|]. simpl. intros z Hz. lia.
Qed.

Lemma sort_desc_sorted {A} (key : A → Z) l :
  StronglySorted (λ a b, key b ≤ key a) (sort_desc key l).
Proof.
  induction l as [|x l IH]; simpl; [constructor|]. by apply insert_desc_sorted.
Qed.

(** X1. The connections come out in descending order of strength. *)
Theorem find_connections_sorted (papers : list Paper) (keyword_threshold : Z) :
  StronglySorted (λ c1 c2, strength c2 ≤ strength c1)
    (find_connections papers keyword_threshold).
Proof. unfold find_connections. apply sort_desc_sorted. Qed.

(** The group of a source is the sublist of the papers of that source. *)
Lemma group_of_group_append d paper s :
  group_of (group_append d paper) s =
    if String.eqb (source paper) s then group_of d s ++ [paper] else group_of d s.
Proof.
  induction d as [|[s0 ps0] d IH]; simpl.
  - destruct (String.eqb_spec (source paper) s); reflexivity.
  - destruct (String.eqb_spec s0 (source paper)) as [E|E]; simpl.
    + subst s0. destruct (String.eqb_spec (source paper) s); reflexivity.
    + destruct (String.eqb_spec s0 s) as [E'|E'].
      * subst s0. destruct (String.eqb_spec (source paper) s); [congruence|done].
      * apply IH.
Qed.

Lemma group_of_foldl papers d s :
  group_of (foldl group_append d papers) s =
    group_of d s ++ List.filter (λ p, String.eqb (source p) s) papers.
Proof.
  revert d. induction papers as [|paper papers IH]; simpl; intros d.
  - by rewrite app_nil_r.
  - rewrite IH, group_of_group_append.
    destruct (String.eqb (source paper) s); [|done].
    by rewrite <- (assoc_L (++)).
Qed.

Lemma group_of_group_by_source papers s :
  group_of (group_by_source papers) s =
    List.filter (λ p, String.eqb (source p) s) papers.
Proof. unfold group_by_source. by rewrite group_of_foldl. Qed.

Lemma elem_of_group papers s p :
  p ∈ group_of (group_by_source papers) s ↔ p ∈ papers ∧ source p = s.
Proof.
  rewrite group_of_group_by_source, list_elem_of_In, filter_In,
    <- list_elem_of_In, String.eqb_eq. done.
Qed.

Lemma group_keys_foldl papers d s :
  s ∈ (foldl group_append d papers).*1 ↔
  s ∈ d.*1 ∨ ∃ p, p ∈ papers ∧ source p = s.
Proof.
  revert d. induction papers as [|paper papers IH]; simpl; intros d.
  - split; [by left|]. intros [H|(p & Hp & _)]; [done|by apply elem_of_nil in Hp].
  - rewrite IH, group_append_keys. split.
    + intros [H|(p & Hp & Hs)].
      * case_bool_decide; [by left|].
        apply elem_of_app in H as [H|H]; [by left|].
        apply list_elem_of_singleton in H. right. exists paper. split; [left|done].
      * right. exists p. split; [by right|done].
    + intros [H|(p & Hp & Hs)].
      * left. case_bool_decide; [done|]. apply elem_of_app. by left.
      * apply elem_of_cons in Hp as [->|Hp]; [|right; by exists p].
        left. subst s. case_bool_decide; [done|].
        apply elem_of_app. right. by left.
Qed.

Lemma elem_of_group_keys papers s :
  s ∈ (group_by_source papers).*1 ↔ ∃ p, p ∈ papers ∧ source p = s.
Proof.
  unfold group_by_source. rewrite group_keys_foldl. split; [|by right].
  intros [H|H]; [by apply elem_of_nil in H|done].
Qed.

(** X2. Both papers of a connection are papers of the input list. *)
Theorem find_connections_endpoints (papers : list Paper) (keyword_threshold : Z)
  (c : Connection) :
  c ∈ find_connections papers keyword_threshold →
  paper_a c ∈ papers ∧ paper_b c ∈ papers.
Proof.
  intros Hc.
  apply elem_of_find_connections in Hc
    as (i & j & sa & sb & pa & pb & _ & _ & _ & Hpa & Hpb & _ & ->).
  simpl. apply elem_of_group in Hpa as [Hpa _]. apply elem_of_group in Hpb as [Hpb _].
  done.
Qed.

Lemma find_connections_endpoints_witness :
  connection_one_two ∈ find_connections [paper_one; paper_two] 3 ∧
  paper_a connection_one_two ∈ [paper_one; paper_two].
Proof.
  assert (H : connection_one_two ∈ find_connections [paper_one; paper_two] 3)
    by (vm_compute; left).
  split; [exact H|].
  exact (proj1 (find_connections_endpoints [paper_one; paper_two] 3
                  connection_one_two H)).
Defined.

(** X3. Papers that all come from one source give no connection; so do the
    empty list and a single paper. *)
Theorem find_connections_one_source (papers : list Paper) (keyword_threshold : Z)
  (s : string) :
  (∀ p, p ∈ papers → source p = s) →
  find_connections papers keyword_threshold = [].
Proof.
  intros Hs.
  destruct (find_connections papers keyword_threshold) as [|c l] eqn:E; [done|].
  assert (c ∈ find_connections papers keyword_threshold) as Hc by (rewrite E; left).
  apply elem_of_find_connections in Hc
    as (i & j & sa & sb & pa & pb & Hij & Hi & Hj & Hpa & Hpb & _ & _).
  apply elem_of_group in Hpa as [Hpa <-]. apply elem_of_group in Hpb as [Hpb <-].
  destruct (group_by_source_inv papers) as [Hnd _].
  rewrite (Hs pa Hpa) in Hi. rewrite (Hs pb Hpb) in Hj.
  pose proof (NoDup_lookup _ _ _ _ Hnd Hi Hj). lia.
Qed.

Lemma find_connections_one_source_witness :
  (∀ p, p ∈ [paper_one; paper_three] → source p = "arxiv") ∧
  find_connections [paper_one; paper_three] 3 = [].
Proof.
  assert (H : ∀ p, p ∈ [paper_one; paper_three] → source p = "arxiv").
  { intros p Hp. repeat (apply elem_of_cons in Hp as [->|Hp]; [reflexivity|]).
    by apply elem_of_nil in Hp. }
  split; [exact H|].
  exact (find_connections_one_source [paper_one; paper_three] 3 "arxiv" H).
Defined.

Lemma capped_total_comm a b kt : capped_total a b kt = capped_total b a kt.
Proof.
  unfold capped_total, author_signal, keyword_signal, title_signal,
    shared_authors, shared_keywords, shared_title_words.
  rewrite (comm_L (∩) (lower_set (authors a))),
    (comm_L (∩) (lower_set (keywords a))), (comm_L (∩) (title_words a)).
  reflexivity.
Qed.

(** X4. The strength does not depend on the order of the two papers. *)
Theorem calculate_connection_symmetric (a b : Paper) (keyword_threshold : Z) :
  (_calculate_connection a b keyword_threshold).1
  = (_calculate_connection b a keyword_threshold).1.
Proof. rewrite !calculate_connection_strength. apply capped_total_comm. Qed.

Lemma compare_groups_complete d kt sa sb pa pb :
  pa ∈ group_of d sa → pb ∈ group_of d sb →
  0 < (_calculate_connection pa pb kt).1 →
  mkConnection pa pb (_calculate_connection pa pb kt).1
    (_calculate_connection pa pb kt).2 ∈ compare_groups d kt sa sb.
Proof.
  intros Hpa Hpb Hpos. unfold compare_groups.
  apply list_elem_of_bind. exists pa. split; [|done].
  apply list_elem_of_bind. exists pb. split; [|done].
  destruct (_calculate_connection pa pb kt) as [st rs]. simpl in *.
  destruct (Z.ltb_spec 0 st); [left|lia].
Qed.

Lemma compare_sources_complete d kt sources i j sa sb c :
  (i < j)%nat → sources !! i = Some sa → sources !! j = Some sb →
  c ∈ compare_groups d kt sa sb → c ∈ compare_sources d kt sources.
Proof.
  revert i j. induction sources as [|s0 later IH]; intros i j Hij Hi Hj Hc.
  - by rewrite lookup_nil in Hi.
  - simpl. apply elem_of_app. destruct i as [|i].
    + left. simpl in Hi. injection Hi as ->.
      destruct j as [|j]; [lia|]. simpl in Hj.
      apply list_elem_of_bind. exists sb. split; [done|].
      by eapply list_elem_of_lookup_2.
    + right. destruct j as [|j]; [lia|]. simpl in Hi, Hj.
      apply (IH i j); [lia|done..].
Qed.

(** X5. Two papers of the input that come from different sources and whose
    capped total is positive are joined by a connection of that strength, in
    one order of the two or the other. *)
Theorem find_connections_complete (papers : list Paper) (keyword_threshold : Z)
  (a b : Paper) :
  a ∈ papers → b ∈ papers → source a ≠ source b →
  0 < capped_total a b keyword_threshold →
  ∃ c, c ∈ find_connections papers keyword_threshold ∧
       strength c = capped_total a b keyword_threshold ∧
       ((paper_a c = a ∧ paper_b c = b) ∨ (paper_a c = b ∧ paper_b c = a)).
Proof.
  intros Ha Hb Hne Hpos.
  assert (source a ∈ (group_by_source papers).*1) as Hka
    by (apply elem_of_group_keys; by exists a).
  assert (source b ∈ (group_by_source papers).*1) as Hkb
    by (apply elem_of_group_keys; by exists b).
  apply list_elem_of_lookup in Hka as [i Hi].
  apply list_elem_of_lookup in Hkb as [j Hj].
  assert (a ∈ group_of (group_by_source papers) (source a)) as Hga
    by (by apply elem_of_group).
  assert (b ∈ group_of (group_by_source papers) (source b)) as Hgb
    by (by apply elem_of_group).
  assert (i ≠ j) as Hij by (intros ->; congruence).
  pose proof (calculate_connection_strength a b keyword_threshold) as Hab.
  pose proof (calculate_connection_strength b a keyword_threshold) as Hba.
  assert ((_calculate_connection a b keyword_threshold).1
          = (_calculate_connection b a keyword_threshold).1) as Hsym
    by (rewrite Hab, Hba; apply capped_total_comm).
  destruct (Nat.lt_ge_cases i j) as [Hlt|Hge].
  - exists (mkConnection a b (_calculate_connection a b keyword_threshold).1
              (_calculate_connection a b keyword_threshold).2).
    split_and!; [| |left; split; reflexivity].
    + unfold find_connections. rewrite sort_desc_perm.
      eapply compare_sources_complete; [exact Hlt|exact Hi|exact Hj|].
      apply compare_groups_complete; [done..|]. by rewrite Hab.
    + simpl. done.
  - exists (mkConnection b a (_calculate_connection b a keyword_threshold).1
              (_calculate_connection b a keyword_threshold).2).
    split_and!; [| |right; split; reflexivity].
    + unfold find_connections. rewrite sort_desc_perm.
      eapply (compare_sources_complete _ _ _ j i); [lia|exact Hj|exact Hi|].
      apply compare_groups_complete; [done..|]. rewrite <- Hsym, Hab. done.
    + simpl. by rewrite <- Hsym.
Qed.

Lemma find_connections_complete_witness :
  paper_two ∈ [paper_one; paper_two; paper_three] ∧
  ∃ c, c ∈ find_connections [paper_one; paper_two; paper_three] 3 ∧
       strength c = capped_total paper_two paper_three 3.
Proof.
  assert (H2 : paper_two ∈ [paper_one; paper_two; paper_three]) by (right; left).
  assert (H3 : paper_three ∈ [paper_one; paper_two; paper_three])
    by (right; right; left).
  assert (Hne : source paper_two ≠ source paper_three) by (simpl; discriminate).
  assert (Hpos : 0 < capped_total paper_two paper_three 3)
    by (vm_compute; reflexivity).
  split; [exact H2|].
  destruct (find_connections_complete [paper_one; paper_two; paper_three] 3
              paper_two paper_three H2 H3 Hne Hpos) as (c & Hc & Hs & _).
  exists c. split; [exact Hc|exact Hs].
Defined.

(** ** Citation trails *)

Lemma nonempty_iff s : PyStr.nonempty s = true ↔ s ≠ EmptyString.
Proof. destruct s; simpl; split; try done. Qed.

Lemma index_foldl_lookup papers m k p :
  foldl index_paper m papers !! k = Some p →
  m !! k = Some p ∨ (p ∈ papers ∧ paper_key p = k ∧ id p ≠ EmptyString).
Proof.
  revert m. induction papers as [|paper papers IH]; simpl; intros m H; [by left|].
  apply IH in H as [H|(Hp & Hk & Hid)]; [|right; split_and!; [by right|done..]].
  unfold index_paper in H.
  destruct (PyStr.nonempty (id paper)) eqn:E; [|by left].
  apply lookup_insert_Some in H as [[<- <-]|[_ H]]; [|by left].
  right. split_and!; [left|done|by apply nonempty_iff].
Qed.

Lemma index_foldl_known papers m k :
  is_Some (m !! k) ∨ (∃ p, p ∈ papers ∧ paper_key p = k ∧ id p ≠ EmptyString) →
  is_Some (foldl index_paper m papers !! k).
Proof.
  revert m. induction papers as [|paper papers IH]; simpl; intros m H.
  - destruct H as [H|(p & Hp & _)]; [done|by apply elem_of_nil in Hp].
  - apply IH. destruct H as [H|(p & Hp & Hk & Hid)].
    + left. unfold index_paper. destruct (PyStr.nonempty (id paper)); [|done].
      destruct (decide ((id paper, source paper) = k)) as [<-|Hne].
      * rewrite lookup_insert_eq. by eexists.
      * by rewrite lookup_insert_ne.
    + apply elem_of_cons in Hp as [->|Hp]; [|right; by exists p].
      left. unfold index_paper. apply nonempty_iff in Hid. rewrite Hid.
      unfold paper_key in Hk. rewrite Hk, lookup_insert_eq. by eexists.
Qed.

Lemma first_known_Some m ref_id sources cited :
  first_known m ref_id sources = Some cited →
  ∃ s, s ∈ sources ∧ m !! (ref_id, s) = Some cited.
Proof.
  induction sources as [|s sources IH]; simpl; [done|].
  destruct (m !! (ref_id, s)) as [c|] eqn:E.
  - intros [= <-]. exists s. split; [left|done].
  - intros (s' & Hs' & H)%IH. exists s'. split; [by right|done].
Qed.

Lemma first_known_is_Some m ref_id sources s :
  s ∈ sources → is_Some (m !! (ref_id, s)) →
  ∃ cited s', first_known m ref_id sources = Some cited ∧
              m !! (ref_id, s') = Some cited.
Proof.
  induction sources as [|s0 sources IH]; simpl; intros Hs Hm.
  - by apply elem_of_nil in Hs.
  - destruct (m !! (ref_id, s0)) as [c|] eqn:E; [by exists c, s0|].
    apply elem_of_cons in Hs as [->|Hs]; [rewrite E in Hm; by destruct Hm|].
    by apply IH.
Qed.

(** X6. In a trail the citing paper is a paper of the list one of whose
    references is the id of the cited paper, and the cited paper is a paper
    of the list with an id that is not empty. *)
Theorem find_citation_trails_sound (papers : list Paper) (citing cited : Paper) :
  (citing, cited) ∈ find_citation_trails papers →
  citing ∈ papers ∧ cited ∈ papers ∧ id cited ∈ references citing ∧
  id cited ≠ EmptyString.
Proof.
  unfold find_citation_trails. intros H.
  apply list_elem_of_bind in H as (paper & H & Hpaper).
  apply list_elem_of_bind in H as (ref_id & H & Href).
  destruct (first_known _ ref_id _) as [c|] eqn:E; [|by apply elem_of_nil in H].
  apply list_elem_of_singleton in H. injection H as -> ->.
  apply first_known_Some in E as (s & _ & E).
  apply index_foldl_lookup in E as [E|(Hc & Hk & Hid)];
    [by rewrite lookup_empty in E|].
  injection Hk as Hk _. subst ref_id. done.
Qed.

Lemma find_citation_trails_sound_witness :
  (citing_paper, cited_paper) ∈ find_citation_trails [citing_paper; cited_paper] ∧
  id cited_paper ∈ references citing_paper.
Proof.
  assert (H : (citing_paper, cited_paper)
              ∈ find_citation_trails [citing_paper; cited_paper])
    by (vm_compute; left).
  split; [exact H|].
  destruct (find_citation_trails_sound [citing_paper; cited_paper]
              citing_paper cited_paper H) as (_ & _ & Href & _).
  exact Href.
Defined.

(** X7. A reference of a paper of the list that is the non-empty id of a
    paper of the list gives a trail from the first to a paper with that id. *)
Theorem find_citation_trails_complete (papers : list Paper)
  (citing target : Paper) :
  citing ∈ papers → target ∈ papers → id target ≠ EmptyString →
  id target ∈ references citing →
  ∃ cited, (citing, cited) ∈ find_citation_trails papers ∧ id cited = id target.
Proof.
  intros Hciting Htarget Hid Href.
  destruct (first_known_is_Some (index_by_id papers) (id target)
              (elements (list_to_set (source <$> papers) : gset string))
              (source target)) as (cited & s' & Hfirst & Hlook).
  { apply elem_of_elements, elem_of_list_to_set, list_elem_of_fmap.
    by exists target. }
  { apply index_foldl_known. right. by exists target. }
  exists cited. split.
  - unfold find_citation_trails.
    apply list_elem_of_bind. exists citing. split; [|done].
    apply list_elem_of_bind. exists (id target). split; [|done].
    rewrite Hfirst. left.
  - apply index_foldl_lookup in Hlook as [E|(_ & Hk & _)];
      [by rewrite lookup_empty in E|].
    by injection Hk.
Qed.

Lemma find_citation_trails_complete_witness :
  citing_paper ∈ [citing_paper; cited_paper] ∧
  ∃ cited, (citing_paper, cited) ∈ find_citation_trails [citing_paper; cited_paper].
Proof.
  assert (H1 : citing_paper ∈ [citing_paper; cited_paper]) by left.
  assert (H2 : cited_paper ∈ [citing_paper; cited_paper]) by (right; left).
  assert (H3 : id cited_paper ≠ EmptyString) by (simpl; discriminate).
  assert (H4 : id cited_paper ∈ references citing_paper) by (simpl; left).
  split; [exact H1|].
  destruct (find_citation_trails_complete [citing_paper; cited_paper]
              citing_paper cited_paper H1 H2 H3 H4) as (cited & Hc & _).
  exists cited. exact Hc.
Defined.

(** ** The cache, continued *)

Lemma row_round_trip paper now :
  Cache._row_to_paper (paper_key paper, Cache.paper_row paper now) = paper.
Proof. by destruct paper. Qed.

Lemma last_saved_None k papers :
  last_saved k papers = None ↔ k ∉ paper_key <$> papers.
Proof.
  induction papers as [|p papers IH]; simpl.
  - split; [intros _ H; by apply elem_of_nil in H|done].
  - rewrite not_elem_of_cons, <- IH.
    destruct (last_saved k papers) as [[p' i]|].
    + split; [done|]. by intros [_ ?].
    + destruct (decide (paper_key p = k)); split; try done.
      * by intros [? _].
Qed.


Lemma last_saved_last k ps1 p ps2 :
  paper_key p = k → k ∉ paper_key <$> ps2 →
  last_saved k (ps1 ++ p :: ps2) = Some (p, length ps1).
Proof.
  intros Hk Hnot. induction ps1 as [|p0 ps1 IH]; simpl.
  - apply last_saved_None in Hnot. rewrite Hnot.
    by destruct (decide (paper_key p = k)).
  - by rewrite IH.
Qed.

(** What [save_papers] leaves in the world: every paper stored under its
    key when all of them can be stored, and the table as it was when one of
    them cannot. *)
Lemma insert_papers_stored papers w :
  storable papers = true →
  (Cache.insert_papers papers w).1 = Done () ∧
  ticks (Cache.insert_papers papers w).2 = (ticks w + length papers)%nat ∧
  ∀ k, papers_table (Cache.insert_papers papers w).2 !! k =
         match last_saved k papers with
         | Some (p, i) => Some (Cache.paper_row p (clock w (ticks w + i)))
         | None => papers_table w !! k
         end.
Proof.
  revert w. induction papers as [|p papers IH]; intros w; simpl.
  - intros _. split_and!; [done|lia|done].
  - intros [Hp Hps]%andb_true_iff. rewrite Hp.
    destruct (IH (set_papers_table (set_ticks w (S (ticks w)))
                    (<[(id p, source p) := Cache.paper_row p (clock w (ticks w))]>
                       (papers_table w))) Hps) as (H1 & H2 & H3).
    simpl in *. split_and!; [done|rewrite H2; lia|].
    intros k. rewrite H3.
    destruct (last_saved k papers) as [[p' i]|].
    + do 3 f_equal. lia.
    + unfold paper_key. destruct (decide ((id p, source p) = k)) as [<-|Hne].
      * rewrite lookup_insert_eq. do 3 f_equal. lia.
      * by rewrite lookup_insert_ne.
Qed.

Lemma insert_papers_overflow papers w :
  storable papers = false →
  (Cache.insert_papers papers w).1 = Raised OverflowError.
Proof.
  revert w. induction papers as [|p papers IH]; intros w; simpl; [done|].
  destruct (Cache.sqlite_int (citations p)); simpl; [|done].
  intros H. by apply IH.
Qed.

Lemma save_papers_stored papers w :
  storable papers = true →
  (Cache.save_papers papers w).1 = Done () ∧
  ticks (Cache.save_papers papers w).2 = (ticks w + length papers)%nat ∧
  ∀ k, papers_table (Cache.save_papers papers w).2 !! k =
         match last_saved k papers with
         | Some (p, i) => Some (Cache.paper_row p (clock w (ticks w + i)))
         | None => papers_table w !! k
         end.
Proof.
  intros Hall. unfold Cache.save_papers.
  destruct (insert_papers_stored papers w Hall) as (H1 & H2 & H3).
  destruct (Cache.insert_papers papers w) as [[[]|e] w']; simpl in *; done.
Qed.

Lemma save_papers_overflow papers w :
  storable papers = false →
  (Cache.save_papers papers w).1 = Raised OverflowError ∧
  papers_table (Cache.save_papers papers w).2 = papers_table w.
Proof.
  intros Hall. unfold Cache.save_papers.
  pose proof (insert_papers_overflow papers w Hall) as H.
  destruct (Cache.insert_papers papers w) as [[[]|e] w']; simpl in *;
    [done|]. by injection H as ->.
Qed.

Lemma save_papers_lookup papers w k :
  papers_table (Cache.save_papers papers w).2 !! k =
    if storable papers then
      match last_saved k papers with
      | Some (p, i) => Some (Cache.paper_row p (clock w (ticks w + i)))
      | None => papers_table w !! k
      end
    else papers_table w !! k.
Proof.
  destruct (storable papers) eqn:Hall.
  - by destruct (save_papers_stored papers w Hall) as (_ & _ & ->).
  - by destruct (save_papers_overflow papers w Hall) as (_ & ->).
Qed.

(** What [record_query] leaves in the world. *)
Lemma record_query_cases query src max_results result_count w :
  ticks (Cache.record_query query src max_results result_count w).2
    = S (ticks w) ∧
  if Cache.sqlite_int max_results && Cache.sqlite_int result_count
  then (Cache.record_query query src max_results result_count w).1 = Done () ∧
       queries_table (Cache.record_query query src max_results result_count w).2
       = queries_table w
         ++ [mkQueryRow query src max_results (clock w (ticks w)) result_count]
  else (Cache.record_query query src max_results result_count w).1
       = Raised OverflowError ∧
       queries_table (Cache.record_query query src max_results result_count w).2
       = queries_table w.
Proof.
  unfold Cache.record_query, datetime_now.
  by destruct (Cache.sqlite_int max_results && Cache.sqlite_int result_count).
Qed.

(** X8. After [save_papers], [get_paper_by_id] gives back a saved paper as
    it was saved, the last one of the list when several have its key: this
    when every citation count of the list fits the 64-bit integer of
    SQLite.  When one does not, [save_papers] raises [OverflowError],
    nothing of the list is stored and the lookup gives what it gave
    before. *)
Theorem get_paper_by_id_saved (ps1 ps2 : list Paper) (p : Paper) (w : World) :
  paper_key p ∉ paper_key <$> ps2 →
  (storable (ps1 ++ p :: ps2) = true →
   (Cache.save_papers (ps1 ++ p :: ps2) w).1 = Done () ∧
   Cache.get_paper_by_id (id p) (source p)
     (Cache.save_papers (ps1 ++ p :: ps2) w).2 = Some p)
  ∧ (storable (ps1 ++ p :: ps2) = false →
     (Cache.save_papers (ps1 ++ p :: ps2) w).1 = Raised OverflowError ∧
     Cache.get_paper_by_id (id p) (source p)
       (Cache.save_papers (ps1 ++ p :: ps2) w).2
     = Cache.get_paper_by_id (id p) (source p) w).
Proof.
  intros Hlast. split; intros Hall.
  - destruct (save_papers_stored _ w Hall) as (Hdone & _ & Hlook).
    split; [done|]. unfold Cache.get_paper_by_id. rewrite Hlook.
    rewrite (last_saved_last (id p, source p) ps1 p ps2 eq_refl Hlast).
    f_equal. apply row_round_trip.
  - destruct (save_papers_overflow _ w Hall) as (Hraised & Htable).
    split; [done|]. unfold Cache.get_paper_by_id. by rewrite Htable.
Qed.

Lemma get_paper_by_id_saved_witness :
  (paper_key paper_one ∉ paper_key <$> [paper_two]) ∧
  storable [paper_three; paper_one; paper_two] = true ∧
  Cache.get_paper_by_id "1" "arxiv"
    (Cache.save_papers [paper_three; paper_one; paper_two] quiet_world).2
  = Some paper_one.
Proof.
  assert (H : paper_key paper_one ∉ paper_key <$> [paper_two]).
  { simpl. intros Hin. apply list_elem_of_singleton in Hin. discriminate. }
  assert (H' : storable [paper_three; paper_one; paper_two] = true)
    by reflexivity.
  split; [exact H|]. split; [exact H'|].
  exact (proj2 (proj1 (get_paper_by_id_saved [paper_three] [paper_two] paper_one
                         quiet_world H) H')).
Defined.

(** A paper with 2^63 citations makes the whole save fail: its neighbour in
    the list is not stored either. *)
Example save_papers_overflow_example :
  (Cache.save_papers [paper_one; huge_paper] quiet_world).1 = Raised OverflowError
  ∧ Cache.get_paper_by_id "1" "arxiv"
      (Cache.save_papers [paper_one; huge_paper] quiet_world).2 = None.
Proof. split; vm_compute; reflexivity. Qed.

(** X9. [save_papers] changes no row but those of the keys it is given. *)
Theorem get_paper_by_id_not_saved (papers : list Paper) (paper_id src : string)
  (w : World) :
  (paper_id, src) ∉ paper_key <$> papers →
  Cache.get_paper_by_id paper_id src (Cache.save_papers papers w).2
  = Cache.get_paper_by_id paper_id src w.
Proof.
  intros Hnot. unfold Cache.get_paper_by_id.
  rewrite save_papers_lookup. apply last_saved_None in Hnot. rewrite Hnot.
  by destruct (storable papers).
Qed.

Lemma get_paper_by_id_not_saved_witness :
  (("1", "arxiv") ∉ paper_key <$> [paper_two]) ∧
  Cache.get_paper_by_id "1" "arxiv" (Cache.save_papers [paper_two] cached_world).2
  = Cache.get_paper_by_id "1" "arxiv" cached_world.
Proof.
  assert (H : ("1", "arxiv") ∉ paper_key <$> [paper_two]).
  { simpl. intros Hin. apply list_elem_of_singleton in Hin. discriminate. }
  split; [exact H|].
  exact (get_paper_by_id_not_saved [paper_two] "1" "arxiv" cached_world H).
Defined.

(** X10. Papers saved and a query recorded are found again by [get_cached]
    for that query and source: the list it returns holds every saved paper
    of the source as it was last saved, and no other paper under that key.
    This holds when the numbers fit the 64-bit integers of SQLite, no two
    readings of the clock are [max_age_hours] apart, and the cutoff is an
    instant of the calendar. *)
Theorem get_cached_after_save (query src : string)
  (max_results result_count max_age_hours : Z) (ps1 ps2 : list Paper)
  (w : World) (p : Paper) :
  steady_clock max_age_hours w →
  (∀ i, is_datetime (clock w i - max_age_hours * 3600000000)) →
  storable (ps1 ++ p :: ps2) = true →
  Cache.sqlite_int max_results = true →
  Cache.sqlite_int result_count = true →
  source p = src →
  paper_key p ∉ paper_key <$> ps2 →
  ∃ cached,
    (Cache.get_cached query src max_age_hours
       (Cache.record_query query src max_results result_count
          (Cache.save_papers (ps1 ++ p :: ps2) w).2).2).1 = Some cached
    ∧ p ∈ cached
    ∧ ∀ p', p' ∈ cached → paper_key p' = paper_key p → p' = p.
Proof.
  intros Hclock _ Hall Hmax Hcount Hsrc Hlast.
  set (papers := ps1 ++ p :: ps2) in *.
  destruct (save_papers_world papers w) as (Hnet & Hclk & _ & Hq).
  destruct (save_papers_stored papers w Hall) as (_ & Hticks & Hlook).
  set (w1 := (Cache.save_papers papers w).2) in *.
  pose proof (record_query_world query src max_results result_count w1)
    as (Hnet2 & Hclk2 & _ & Htab2).
  pose proof (record_query_cases query src max_results result_count w1)
    as (Hticks2 & Hrec).
  rewrite Hmax, Hcount in Hrec. simpl in Hrec. destruct Hrec as (_ & Hq2).
  set (w2 := (Cache.record_query query src max_results result_count w1).2) in *.
  assert (cutoff_at max_age_hours w2
          = clock w (S (ticks w1)) - max_age_hours * 3600000000) as Hcut
    by (unfold cutoff_at; by rewrite Hclk2, Hclk, Hticks2).
  pose proof (last_saved_last (paper_key p) ps1 p ps2 eq_refl Hlast) as Hsaved.
  fold papers in Hsaved.
  assert (papers_table w2 !! paper_key p
          = Some (Cache.paper_row p (clock w (ticks w + length ps1)))) as Hrowp
    by (by rewrite Htab2, Hlook, Hsaved).
  assert ((paper_key p, Cache.paper_row p (clock w (ticks w + length ps1)))
          ∈ Cache.select_papers src (cutoff_at max_age_hours w2) w2) as Hrow.
  { apply elem_of_select_papers. split_and!; [done|done|].
    rewrite Hcut. simpl. apply Hclock. }
  exists (Cache._row_to_paper <$>
            Cache.select_papers src (cutoff_at max_age_hours w2) w2).
  split_and!.
  - rewrite get_cached_cases.
    assert (existsb (Cache.query_matches query src (cutoff_at max_age_hours w2))
              (queries_table w2) = true) as ->.
    { apply existsb_query_matches.
      exists (mkQueryRow query src max_results (clock w1 (ticks w1)) result_count).
      split_and!; [|done..|].
      - rewrite Hq2. apply elem_of_app. right. left.
      - rewrite Hcut, Hclk. simpl. apply Hclock. }
    destruct (Cache.select_papers _ _ _); [by apply elem_of_nil in Hrow|done].
  - apply list_elem_of_fmap. eexists. split; [|exact Hrow].
    symmetry. apply row_round_trip.
  - intros p' Hp' Hkey.
    apply list_elem_of_fmap in Hp' as ([k row] & -> & Hin).
    apply elem_of_select_papers in Hin as (Hl & _ & _).
    assert (k = paper_key p) as -> by (by destruct k).
    rewrite Hrowp in Hl. injection Hl as <-. apply row_round_trip.
Qed.

Lemma get_cached_after_save_witness :
  steady_clock 24 feed_world ∧
  (∀ i, is_datetime (clock feed_world i - 24 * 3600000000)) ∧
  ∃ cached,
    (Cache.get_cached "corona" "arxiv" 24
       (Cache.record_query "corona" "arxiv" 5 1
          (Cache.save_papers [paper_three; paper_one] feed_world).2).2).1
    = Some cached
    ∧ paper_one ∈ cached.
Proof.
  assert (H1 : steady_clock 24 feed_world) by (intros i j; simpl; lia).
  assert (H2 : ∀ i, is_datetime (clock feed_world i - 24 * 3600000000))
    by (intros i; unfold is_datetime; simpl; lia).
  assert (H3 : paper_key paper_one ∉ paper_key <$> []).
  { simpl. intros Hin. by apply elem_of_nil in Hin. }
  split; [exact H1|]. split; [exact H2|].
  destruct (get_cached_after_save "corona" "arxiv" 5 1 24 [paper_three] []
              feed_world paper_one H1 H2 eq_refl eq_refl eq_refl eq_refl H3)
    as (cached & Hc & Hin & _).
  exists cached. split; [exact Hc|exact Hin].
Defined.

(** After [clear_cache] no query is a hit, no paper is found by its key and
    the list of all papers is empty. *)
Lemma clear_cache_forgets (query src paper_id : string)
  (max_age_hours limit : Z) (w : World) :
  (Cache.get_cached query src max_age_hours (Cache.clear_cache w)).1 = None
  ∧ Cache.get_paper_by_id paper_id src (Cache.clear_cache w) = None
  ∧ (Cache.sqlite_int limit = true →
     Cache.get_all_papers limit (Cache.clear_cache w) = Done []).
Proof.
  split_and!.
  - by rewrite get_cached_cases.
  - unfold Cache.get_paper_by_id, Cache.clear_cache. simpl.
    by rewrite lookup_empty.
  - intros Hlimit.
    unfold Cache.get_all_papers, Cache.clear_cache, Cache.sql_limit.
    rewrite Hlimit. simpl.
    rewrite map_to_list_empty. simpl. destruct (limit <? 0); [done|].
    by rewrite take_nil.
Qed.

Lemma count_rows_lookup (rows : list ((string * string) * PaperRow)) s :
  foldr Cache.count_row ∅ rows !! s =
    let n := length (List.filter (λ row, String.eqb row.1.2 s) rows) in
    if Nat.eqb n 0 then None else Some (Z.of_nat n).
Proof.
  induction rows as [|row rows IH]; simpl; [done|].
  unfold Cache.count_row at 1.
  destruct (String.eqb_spec row.1.2 s) as [->|Hne]; simpl.
  - rewrite lookup_insert_eq, IH. simpl.
    destruct (length _) as [|n]; simpl; f_equal; lia.
  - by rewrite lookup_insert_ne.
Qed.

(** X12. The statistics count, for each source, the rows of the papers
    table with that source, and hold no entry for a source without rows;
    the total is the number of rows. *)
Theorem get_stats_counts (self_db_path : string) (w : World) (s : string) :
  Cache.by_source (Cache.get_stats self_db_path w) !! s =
    (let n := length (List.filter (λ row, String.eqb row.1.2 s)
                        (map_to_list (papers_table w))) in
     if Nat.eqb n 0 then None else Some (Z.of_nat n))
  ∧ Cache.total_papers (Cache.get_stats self_db_path w)
    = Z.of_nat (length (map_to_list (papers_table w))).
Proof.
  split; [apply count_rows_lookup|].
  simpl. by rewrite length_map_to_list.
Qed.

(** X13. For a [limit] that fits the 64-bit integer of SQLite
    [get_all_papers] returns [limit] papers, or all of them when there are
    fewer or when [limit] is negative; for any other [limit] the binding of
    the parameter raises [OverflowError]. *)
Theorem get_all_papers_length (limit : Z) (w : World) :
  match Cache.get_all_papers limit w with
  | Done papers =>
      - 2 ^ 63 ≤ limit < 2 ^ 63 ∧
      length papers =
        (if limit <? 0 then size (papers_table w)
         else Nat.min (Z.to_nat limit) (size (papers_table w)))
  | Raised e =>
      ¬ (- 2 ^ 63 ≤ limit < 2 ^ 63) ∧ e = OverflowError
  end.
Proof.
  unfold Cache.get_all_papers, Cache.sqlite_int.
  destruct (Z.leb_spec (- 2 ^ 63) limit), (Z.ltb_spec limit (2 ^ 63)); simpl;
    try (split; [lia|reflexivity]).
  split; [lia|].
  unfold Cache.sql_limit. rewrite length_fmap.
  assert (length (sort_desc (λ row : (string * string) * PaperRow, fetched_at row.2)
                    (map_to_list (papers_table w))) = size (papers_table w)) as Hlen
    by (by rewrite sort_desc_perm, length_map_to_list).
  destruct (limit <? 0); [done|]. by rewrite length_take, Hlen.
Qed.

(** X14. Every paper listed by [get_all_papers] is the one that
    [get_paper_by_id] finds under its id and source. *)
Theorem get_all_papers_by_id (limit : Z) (w : World) (papers : list Paper)
  (p : Paper) :
  Cache.get_all_papers limit w = Done papers →
  p ∈ papers →
  Cache.get_paper_by_id (id p) (source p) w = Some p.
Proof.
  unfold Cache.get_all_papers.
  destruct (Cache.sqlite_int limit); [|discriminate].
  intros [= <-] Hp.
  apply list_elem_of_fmap in Hp as ([[i s] row] & -> & Hrow).
  assert (((i, s), row) ∈ map_to_list (papers_table w)) as Hin.
  { rewrite <- (sort_desc_perm (λ row, fetched_at row.2)).
    unfold Cache.sql_limit in Hrow. destruct (limit <? 0); [done|].
    apply elem_of_take in Hrow as (k & Hk & _). by eapply list_elem_of_lookup_2. }
  apply elem_of_map_to_list in Hin.
  unfold Cache.get_paper_by_id. simpl. by rewrite Hin.
Qed.

Lemma get_all_papers_by_id_witness :
  Cache.get_all_papers 1 cached_world = Done [paper_one] ∧
  Cache.get_paper_by_id "1" "arxiv" cached_world = Some paper_one.
Proof.
  assert (H : Cache.get_all_papers 1 cached_world = Done [paper_one])
    by (vm_compute; reflexivity).
  assert (H' : paper_one ∈ [paper_one]) by left.
  split; [exact H|].
  exact (get_all_papers_by_id 1 cached_world [paper_one] paper_one H H').
Defined.

(** ** The adapters leave the cache alone *)

Lemma network_only_refl w : network_only w w.
Proof. split_and!; [done..|]. exists []. by rewrite app_nil_r. Qed.

Lemma network_only_trans w1 w2 w3 :
  network_only w1 w2 → network_only w2 w3 → network_only w1 w3.
Proof.
  intros (H1 & H2 & H3 & H4 & s1 & H5) (K1 & K2 & K3 & K4 & s2 & K5).
  split_and!; [congruence..|]. exists (s1 ++ s2).
  by rewrite K5, H5, <- (assoc_L (++)).
Qed.

Lemma session_get_network_only req w : network_only w (session_get req w).2.
Proof.
  destruct (session_get_cases req w) as [-> _].
  split_and!; [done..|]. by exists [req].
Qed.

Lemma set_ticks_network_only w n : network_only w (set_ticks w n).
Proof. split_and!; [done..|]. exists []. simpl. by rewrite app_nil_r. Qed.

Lemma arxiv_search_network_only query limit w :
  network_only w (ArXivSource.search query limit w).2.
Proof.
  unfold ArXivSource.search.
  pose proof (session_get_network_only (ArXivSource.search_request query limit) w) as H.
  destruct (session_get _ w) as [got w1]. simpl in H.
  by destruct (got ≫= _).
Qed.

Lemma sem_search_network_only query limit w :
  network_only w (SemanticScholarSource.search query limit w).2.
Proof.
  unfold SemanticScholarSource.search.
  pose proof (session_get_network_only
                (SemanticScholarSource.search_request query limit) w) as H.
  destruct (session_get _ w) as [[resp|e] w1]; simpl in H; [|done].
  destruct (resp.1 =? 200); [|done].
  by destruct (SemanticScholarSource.search_items resp).
Qed.

Lemma fetch_from_server_network_only server start_date end_date query limit w :
  network_only w
    (BioRxivSource._fetch_from_server server start_date end_date query limit w).2.
Proof.
  unfold BioRxivSource._fetch_from_server.
  pose proof (session_get_network_only
                (BioRxivSource.details_request server start_date end_date) w) as H.
  destruct (session_get _ w) as [got w1]. simpl in H.
  by destruct (got ≫= _).
Qed.

Lemma rxiv_search_network_only query limit w :
  network_only w (BioRxivSource.search query limit w).2.
Proof.
  unfold BioRxivSource.search, datetime_now.
  set (w1 := set_ticks w (S (ticks w))).
  set (end_date := clock w (ticks w)).
  set (start_date := end_date - 365 * BioRxivSource.microseconds_per_day).
  pose proof (fetch_from_server_network_only "biorxiv" start_date end_date
                query limit w1) as H1.
  destruct (BioRxivSource._fetch_from_server "biorxiv" _ _ _ _ w1) as [found w2].
  simpl in *. destruct (Z.of_nat (length found) <? limit).
  - pose proof (fetch_from_server_network_only "medrxiv" start_date end_date
                  query (limit - Z.of_nat (length found)) w2) as H2.
    destruct (BioRxivSource._fetch_from_server "medrxiv" _ _ _ _ w2) as [found' w3].
    simpl in *. eapply network_only_trans; [|exact H2].
    eapply network_only_trans; [|exact H1]. apply set_ticks_network_only.
  - simpl. eapply network_only_trans; [|exact H1]. apply set_ticks_network_only.
Qed.

Lemma pubmed_search_network_only query limit w :
  network_only w (PubMedSource.search query limit w).2.
Proof.
  unfold PubMedSource.search.
  pose proof (session_get_network_only (PubMedSource.search_request query limit) w)
    as H1.
  destruct (session_get _ w) as [got w1]. simpl in H1.
  destruct (got ≫= _) as [[[|pmid idlist]|]|e]; [done| |done..].
  pose proof (session_get_network_only
                (PubMedSource.summary_request (pmid :: idlist)) w1) as H2.
  destruct (session_get _ w1) as [got2 w2]. simpl in H2.
  destruct (got2 ≫= _) as [summary_data|e];
    [|by eapply network_only_trans].
  unfold PubMedSource._fetch_abstracts.
  pose proof (session_get_network_only
                (PubMedSource.fetch_request (pmid :: idlist)) w2) as H3.
  destruct (session_get _ w2) as [got3 w3]. simpl in H3.
  assert (network_only w w3) as H
    by (eapply network_only_trans; [|exact H3]; by eapply network_only_trans).
  by destruct (got3 ≫= _).
Qed.

Lemma registered_search_network_only name cls query limit w :
  SOURCE_REGISTRY !! name = Some cls →
  network_only w (search (cls name) query limit w).2.
Proof.
  intros [[-> ->]|[[-> ->]|[[-> ->]|[-> ->]]]]%registry_cases; simpl.
  - apply arxiv_search_network_only.
  - apply sem_search_network_only.
  - apply rxiv_search_network_only.
  - apply pubmed_search_network_only.
Qed.

(** ** The scan, continued *)

Lemma cache_flag_off : CACHE_AVAILABLE = false.
Proof. reflexivity. Qed.

(** With the cache off, the scan of a registered source is the search of
    its adapter. *)
Lemma scan_one_source_off name cls avail query limit use_cache all_papers w :
  use_cache && avail = false →
  SOURCE_REGISTRY !! name = Some cls →
  ∃ papers,
    (search (cls name) query limit w).1 = Done papers ∧
    fetch_loop SOURCE_REGISTRY avail query limit use_cache [name] all_papers w
    = (all_papers ++ papers, (search (cls name) query limit w).2).
Proof.
  intros Hoff Hreg. simpl. unfold get_source. rewrite Hreg, Hoff.
  destruct (registered_search_result name cls query limit w Hreg)
    as (papers & Hr & _).
  exists papers. split; [done|].
  destruct (search (cls name) query limit w) as [r w2]. simpl in *. by subst r.
Qed.

(** X15. In the module as it is written [CACHE_AVAILABLE] is [False], so a
    scan never reads the cache, whatever [use_cache] is and whatever the
    cache holds: the scan of a registered source is the search of its
    adapter.  It returns the papers of that search, leaves the world that
    the search leaves, and so sends at least one request, even when
    [get_cached] has a list for the query and the source. *)
Theorem scan_never_reads_cache (name : string) (cls : string → BaseSource)
  (query : string) (limit : Z) (use_cache : bool) (w : World) :
  SOURCE_REGISTRY !! name = Some cls →
  (search (cls name) query limit w).1
  = Done (fetch_from_sources SOURCE_REGISTRY CACHE_AVAILABLE query [name] limit
            use_cache w).1
  ∧ (fetch_from_sources SOURCE_REGISTRY CACHE_AVAILABLE query [name] limit
       use_cache w).2
    = (search (cls name) query limit w).2
  ∧ (length (requests w) <
     length (requests (fetch_from_sources SOURCE_REGISTRY CACHE_AVAILABLE query
                         [name] limit use_cache w).2))%nat.
Proof.
  intros Hreg. unfold fetch_from_sources.
  destruct (scan_one_source_off name cls CACHE_AVAILABLE query limit use_cache
              [] w) as (papers & Hr & ->);
    [by rewrite cache_flag_off, andb_false_r|done|].
  simpl. split_and!; [done|done|].
  by destruct (registered_search_result name cls query limit w Hreg)
    as (papers' & _ & _ & _ & Hlen).
Qed.

Lemma scan_never_reads_cache_witness :
  SOURCE_REGISTRY !! "arxiv" = Some ArXivSource_class ∧
  (Cache.get_cached "corona" "arxiv" 24 cached_world).1 = Some [paper_one] ∧
  (length (requests cached_world) <
   length (requests (fetch_from_sources SOURCE_REGISTRY CACHE_AVAILABLE "corona"
                       ["arxiv"] 5 true cached_world).2))%nat.
Proof.
  assert (H : SOURCE_REGISTRY !! "arxiv" = Some ArXivSource_class)
    by reflexivity.
  split; [exact H|]. split; [vm_compute; reflexivity|].
  exact (proj2 (proj2 (scan_never_reads_cache "arxiv" ArXivSource_class "corona"
                         5 true cached_world H))).
Defined.

(** In that world the cache holds a fresh list for the query, and the scan
    asks the network, which is silent, and returns no paper. *)
Example scan_never_reads_cache_example :
  fetch_from_sources SOURCE_REGISTRY CACHE_AVAILABLE "corona" ["arxiv"] 5 true
    cached_world
  = ([], set_requests cached_world [ArXivSource.search_request "corona" 5]).
Proof. vm_compute. reflexivity. Qed.

Lemma fetch_loop_off_network_only avail use_cache query sources limit
  all_papers w :
  use_cache && avail = false →
  network_only w
    (fetch_loop SOURCE_REGISTRY avail query limit use_cache sources all_papers w).2.
Proof.
  intros Hoff. revert w all_papers.
  induction sources as [|source_name sources IH]; simpl;
    intros w all_papers; [apply network_only_refl|].
  unfold get_source.
  destruct (SOURCE_REGISTRY !! source_name) as [cls|] eqn:Hreg; [|apply IH].
  rewrite Hoff.
  pose proof (registered_search_network_only source_name cls query limit w Hreg)
    as Hsearch.
  destruct (search (cls source_name) query limit w) as [[papers|e] w2];
    simpl in Hsearch; (eapply network_only_trans; [exact Hsearch|apply IH]).
Qed.

(** X16. A scan over the registered adapters that does not use the cache
    leaves both cache tables as they were. *)
Theorem scan_without_cache (avail use_cache : bool) (query : string)
  (sources : list string) (limit : Z) (w : World) :
  use_cache && avail = false →
  network_only w
    (fetch_from_sources SOURCE_REGISTRY avail query sources limit use_cache w).2.
Proof. intros Hoff. by apply fetch_loop_off_network_only. Qed.

Lemma scan_without_cache_witness :
  true && false = false ∧
  papers_table
    (fetch_from_sources SOURCE_REGISTRY false "plasma" ["arxiv"] 5 true
       feed_world).2 = papers_table feed_world.
Proof.
  assert (H : true && false = false) by reflexivity.
  split; [exact H|].
  destruct (scan_without_cache false true "plasma" ["arxiv"] 5 feed_world H)
    as (_ & _ & Ht & _).
  exact Ht.
Defined.

Lemma history_kept_refl w : history_kept w w.
Proof. by split_and!. Qed.

Lemma history_kept_trans w1 w2 w3 :
  history_kept w1 w2 → history_kept w2 w3 → history_kept w1 w3.
Proof.
  intros (H1 & H2 & H3 & H4) (K1 & K2 & K3 & K4).
  split_and!; [congruence..| |by auto]. by etrans.
Qed.

Lemma network_only_history_kept w w' : network_only w w' → history_kept w w'.
Proof.
  intros (H1 & H2 & H3 & H4 & _). split_and!; [done..| |].
  - by rewrite H4.
  - intros k. by rewrite H3.
Qed.

Lemma save_papers_history_kept papers w :
  history_kept w (Cache.save_papers papers w).2.
Proof.
  destruct (save_papers_world papers w) as (H1 & H2 & _ & H4).
  split_and!; [done..|by rewrite H4|].
  intros k Hk. rewrite save_papers_lookup.
  destruct (storable papers); [|done].
  by destruct (last_saved k papers) as [[p i]|].
Qed.

Lemma record_query_history_kept query src max_results result_count w :
  history_kept w (Cache.record_query query src max_results result_count w).2.
Proof.
  destruct (record_query_world query src max_results result_count w)
    as (H1 & H2 & _ & H4).
  pose proof (record_query_cases query src max_results result_count w)
    as (_ & Hq).
  split_and!; [done..| |by rewrite H4].
  destruct (Cache.sqlite_int max_results && Cache.sqlite_int result_count);
    destruct Hq as (_ & ->); [by apply prefix_app_r|done].
Qed.

Lemma cache_writes_history_kept query source_name limit papers w :
  history_kept w (cache_writes query source_name limit papers w).2.
Proof.
  unfold cache_writes.
  pose proof (save_papers_history_kept papers w) as H.
  destruct (Cache.save_papers papers w) as [[[]|e] w1]; simpl in *; [|done].
  eapply history_kept_trans; [exact H|apply record_query_history_kept].
Qed.

(** X17. Whatever the flags, a scan over the registered adapters only adds
    to the cache: the query log it finds is the beginning of the log it
    leaves, and no key of the papers table is lost. *)
Theorem scan_keeps_history (avail use_cache : bool) (query : string)
  (sources : list string) (limit : Z) (w : World) :
  history_kept w
    (fetch_from_sources SOURCE_REGISTRY avail query sources limit use_cache w).2.
Proof.
  unfold fetch_from_sources. generalize (@nil Paper) as all_papers.
  revert w. induction sources as [|source_name sources IH]; simpl;
    intros w all_papers; [apply history_kept_refl|].
  unfold get_source.
  destruct (SOURCE_REGISTRY !! source_name) as [cls|] eqn:Hreg; [|apply IH].
  destruct (if use_cache && avail then Cache.get_cached query source_name 24 w
            else (None, w)) as [cached w1] eqn:Hc.
  assert (history_kept w w1) as Hw1.
  { destruct (use_cache && avail).
    - pose proof (get_cached_world query source_name 24 w) as Hw.
      rewrite Hc in Hw. simpl in Hw. subst w1.
      apply network_only_history_kept, set_ticks_network_only.
    - injection Hc as _ <-. apply history_kept_refl. }
  destruct cached as [[|paper more]|].
  2:{ eapply history_kept_trans; [exact Hw1|apply IH]. }
  all: pose proof (registered_search_network_only source_name cls query limit
                     w1 Hreg) as Hsearch;
       destruct (search (cls source_name) query limit w1) as [[papers|e] w2];
       simpl in Hsearch; apply network_only_history_kept in Hsearch;
       [|eapply history_kept_trans; [|apply IH]; by eapply history_kept_trans];
       destruct (if use_cache && avail
                 then cache_writes query source_name limit papers w2
                 else (Done (), w2)) as [written w3] eqn:Hwr;
       assert (history_kept w2 w3) as Hw3
         by (destruct (use_cache && avail);
             [pose proof (cache_writes_history_kept query source_name limit
                            papers w2) as H; by rewrite Hwr in H
             |injection Hwr as _ <-; apply history_kept_refl]);
       destruct written; (eapply history_kept_trans; [|apply IH]);
       (eapply history_kept_trans; [exact Hw1|]);
       by eapply history_kept_trans.
Qed.

Lemma fetch_loop_skips_unknown registry avail query limit use_cache sources
  all_papers w :
  fetch_loop registry avail query limit use_cache sources all_papers w =
  fetch_loop registry avail query limit use_cache
    (List.filter (λ s, bool_decide (is_Some (registry !! s))) sources)
    all_papers w.
Proof.
  revert all_papers w.
  induction sources as [|source_name sources IH]; intros all_papers w; [done|].
  cbn [fetch_loop List.filter]. unfold get_source at 1.
  destruct (registry !! source_name) as [cls|] eqn:Hreg.
  - rewrite bool_decide_true by (by eexists).
    cbn [fetch_loop]. unfold get_source at 1. rewrite Hreg.
    destruct (if use_cache && avail then _ else _) as [cached w1].
    destruct cached as [[|paper more]|]; try apply IH;
      destruct (search (cls source_name) query limit w1) as [[papers|e] w2];
      try apply IH;
      destruct (if use_cache && avail then _ else _) as [written w3];
      destruct written; apply IH.
  - rewrite bool_decide_false by (by intros [? ?]).
    apply IH.
Qed.

(** X18. Names that are not registered are passed over: a scan gives what
    the scan of the registered names of the list gives, and a list without
    a registered name gives no paper and leaves the world as it is. *)
Theorem scan_skips_unknown_sources (registry : gmap string (string → BaseSource))
  (avail use_cache : bool) (query : string) (sources : list string)
  (limit : Z) (w : World) :
  fetch_from_sources registry avail query sources limit use_cache w =
  fetch_from_sources registry avail query
    (List.filter (λ s, bool_decide (is_Some (registry !! s))) sources)
    limit use_cache w
  ∧ ((∀ s, s ∈ sources → registry !! s = None) →
     fetch_from_sources registry avail query sources limit use_cache w = ([], w)).
Proof.
  unfold fetch_from_sources. split; [apply fetch_loop_skips_unknown|].
  intros Hnone. rewrite fetch_loop_skips_unknown.
  assert (List.filter (λ s, bool_decide (is_Some (registry !! s))) sources = [])
    as ->; [|done].
  induction sources as [|s sources IH]; [done|]. simpl.
  rewrite bool_decide_false.
  - apply IH. intros s' Hs'. apply Hnone. by right.
  - rewrite (Hnone s) by left. by intros [? ?].
Qed.

Lemma scan_skips_unknown_sources_witness :
  (∀ s, s ∈ ["medrxiv"; "scholar"] → SOURCE_REGISTRY !! s = None) ∧
  fetch_from_sources SOURCE_REGISTRY true "plasma" ["medrxiv"; "scholar"] 5 true
    feed_world = ([], feed_world).
Proof.
  assert (H : ∀ s, s ∈ ["medrxiv"; "scholar"] → SOURCE_REGISTRY !! s = None).
  { intros s Hs. repeat (apply elem_of_cons in Hs as [->|Hs]; [reflexivity|]).
    by apply elem_of_nil in Hs. }
  split; [exact H|].
  exact (proj2 (scan_skips_unknown_sources SOURCE_REGISTRY true true "plasma"
                  ["medrxiv"; "scholar"] 5 feed_world) H).
Defined.


(** With the cache off, every registered name of the list costs a request
    at least. *)
Lemma scan_requests_off avail query limit use_cache sources all_papers w :
  use_cache && avail = false →
  (length (requests w)
   + length (List.filter (λ s, bool_decide (is_Some (SOURCE_REGISTRY !! s)))
               sources)
   ≤ length (requests (fetch_loop SOURCE_REGISTRY avail query limit use_cache
                         sources all_papers w).2))%nat.
Proof.
  intros Hoff. revert all_papers w.
  induction sources as [|source_name sources IH]; intros all_papers w.
  - simpl. lia.
  - cbn [fetch_loop List.filter]. unfold get_source.
    destruct (SOURCE_REGISTRY !! source_name) as [cls|] eqn:Hreg.
    + rewrite bool_decide_true by (by eexists). rewrite Hoff.
      destruct (registered_search_result source_name cls query limit w Hreg)
        as (papers & Hr & _ & _ & Hlen).
      destruct (search (cls source_name) query limit w) as [r w2].
      simpl in Hr, Hlen. subst r. cbn [length].
      etrans; [|apply IH]. lia.
    + rewrite bool_decide_false by (by intros [? ?]). apply IH.
Qed.

(** X19. In the module as it is written a scan repeated at once goes to the
    network again: the first scan and the second each send at least one
    request for every registered name of the list, and after both the cache
    tables are those found at the start. *)
Theorem second_scan_asks_again (query : string) (sources : list string)
  (limit : Z) (use_cache : bool) (w : World) :
  let registered :=
    List.filter (λ s, bool_decide (is_Some (SOURCE_REGISTRY !! s))) sources in
  let w1 :=
    (fetch_from_sources SOURCE_REGISTRY CACHE_AVAILABLE query sources limit
       use_cache w).2 in
  let w2 :=
    (fetch_from_sources SOURCE_REGISTRY CACHE_AVAILABLE query sources limit
       use_cache w1).2 in
  (length (requests w) + length registered ≤ length (requests w1))%nat
  ∧ (length (requests w1) + length registered ≤ length (requests w2))%nat
  ∧ papers_table w2 = papers_table w
  ∧ queries_table w2 = queries_table w.
Proof.
  intros registered w1 w2.
  assert (use_cache && CACHE_AVAILABLE = false) as Hoff
    by (by rewrite cache_flag_off, andb_false_r).
  split_and!.
  - by apply scan_requests_off.
  - by apply scan_requests_off.
  - destruct (fetch_loop_off_network_only CACHE_AVAILABLE use_cache query
                sources limit [] w Hoff) as (_ & _ & Ht & _).
    destruct (fetch_loop_off_network_only CACHE_AVAILABLE use_cache query
                sources limit [] w1 Hoff) as (_ & _ & Ht' & _).
    fold (fetch_from_sources SOURCE_REGISTRY CACHE_AVAILABLE query sources limit
            use_cache w) in Ht.
    fold (fetch_from_sources SOURCE_REGISTRY CACHE_AVAILABLE query sources limit
            use_cache w1) in Ht'.
    fold w1 in Ht. fold w2 in Ht'. congruence.
  - destruct (fetch_loop_off_network_only CACHE_AVAILABLE use_cache query
                sources limit [] w Hoff) as (_ & _ & _ & Hq & _).
    destruct (fetch_loop_off_network_only CACHE_AVAILABLE use_cache query
                sources limit [] w1 Hoff) as (_ & _ & _ & Hq' & _).
    fold (fetch_from_sources SOURCE_REGISTRY CACHE_AVAILABLE query sources limit
            use_cache w) in Hq.
    fold (fetch_from_sources SOURCE_REGISTRY CACHE_AVAILABLE query sources limit
            use_cache w1) in Hq'.
    fold w1 in Hq. fold w2 in Hq'. congruence.
Qed.

(** ** Reference traversal, continued *)

Lemma slice_to_nil {A} n : PyStr.slice_to n (@nil A) = [].
Proof. unfold PyStr.slice_to. destruct (0 <=? n); by rewrite take_nil. Qed.

Lemma dig_level_nothing max_per_paper papers new_papers seen_ids w :
  (∀ p, p ∈ papers → source p ≠ "semantic_scholar" ∨ id p = EmptyString) →
  dig_level SOURCE_REGISTRY max_per_paper papers new_papers seen_ids w
  = (new_papers, seen_ids, w).
Proof.
  induction papers as [|paper papers IH]; simpl; intros Hno; [done|].
  assert (∀ p, p ∈ papers → source p ≠ "semantic_scholar" ∨ id p = EmptyString)
    as Hrest by (intros p Hp; apply Hno; by right).
  unfold get_source.
  destruct (SOURCE_REGISTRY !! source paper) as [cls|] eqn:Hreg; [|by apply IH].
  apply registry_cases in Hreg as [[Hs ->]|[[Hs ->]|[[Hs ->]|[Hs ->]]]]; simpl;
    try (rewrite slice_to_nil; simpl; by apply IH).
  unfold SemanticScholarSource.fetch_references.
  destruct (Hno paper) as [Hne|Hid]; [left|congruence|].
  rewrite Hid. simpl. rewrite slice_to_nil. simpl. by apply IH.
Qed.

(** X20. With the registered adapters only a Semantic Scholar paper with an
    id has references to follow: a list without such a paper comes back as
    it is, whatever the depth, and no request is sent. *)
Theorem traversal_needs_semantic_scholar (papers : list Paper)
  (depth max_per_paper : Z) (w : World) :
  (∀ p, p ∈ papers → source p ≠ "semantic_scholar" ∨ id p = EmptyString) →
  fetch_references_recursive SOURCE_REGISTRY papers depth max_per_paper w
  = (papers, w).
Proof.
  intros Hno. unfold fetch_references_recursive.
  destruct (depth <=? 0); [done|]. cbv zeta.
  destruct (Z.to_nat depth) as [|levels]; simpl; [done|].
  by rewrite dig_level_nothing.
Qed.

Lemma traversal_needs_semantic_scholar_witness :
  (∀ p, p ∈ [paper_one; paper_three] →
        source p ≠ "semantic_scholar" ∨ id p = EmptyString) ∧
  fetch_references_recursive SOURCE_REGISTRY [paper_one; paper_three] 3 5 feed_world
  = ([paper_one; paper_three], feed_world).
Proof.
  assert (H : ∀ p, p ∈ [paper_one; paper_three] →
                   source p ≠ "semantic_scholar" ∨ id p = EmptyString).
  { intros p Hp.
    repeat (apply elem_of_cons in Hp as [->|Hp]; [left; simpl; discriminate|]).
    by apply elem_of_nil in Hp. }
  split; [exact H|].
  exact (traversal_needs_semantic_scholar [paper_one; paper_three] 3 5 feed_world H).
Defined.

Lemma add_refs_length (refs new_papers : list Paper)
  (seen_ids : gset (string * string)) :
  (length (add_refs refs new_papers seen_ids).1 ≤ length new_papers + length refs)%nat.
Proof.
  revert new_papers seen_ids.
  induction refs as [|ref refs IH]; simpl; intros new_papers seen_ids; [lia|].
  case_bool_decide.
  - etrans; [apply IH|]. rewrite length_app. simpl. lia.
  - etrans; [apply IH|]. lia.
Qed.

Lemma dig_level_length registry max_per_paper papers new_papers seen_ids w :
  0 ≤ max_per_paper →
  Z.of_nat (length (dig_level registry max_per_paper papers new_papers
                      seen_ids w).1.1)
  ≤ Z.of_nat (length new_papers) + Z.of_nat (length papers) * max_per_paper.
Proof.
  intros Hm. revert new_papers seen_ids w.
  induction papers as [|paper papers IH]; intros new_papers seen_ids w.
  - simpl. lia.
  - cbn [dig_level].
    destruct (get_source registry (source paper)) as [src|].
    2:{ etrans; [apply IH|]. rewrite length_cons. nia. }
    destruct (fetch_references src paper w) as [[refs|e] w'].
    2:{ etrans; [apply IH|]. rewrite length_cons. nia. }
    pose proof (add_refs_length (PyStr.slice_to max_per_paper refs) new_papers
                  seen_ids) as Hadd.
    pose proof (slice_to_length max_per_paper refs Hm) as Hslice.
    destruct (add_refs _ new_papers seen_ids) as [new' seen']. simpl in Hadd.
    etrans; [apply IH|]. rewrite length_cons. nia.
Qed.

Lemma expansion_bound_pos m levels : 0 ≤ m → 1 ≤ expansion_bound m levels.
Proof. intros Hm. induction levels as [|k IH]; simpl; nia. Qed.

Lemma dig_length registry levels max_per_paper papers all_papers seen_ids w :
  0 ≤ max_per_paper →
  Z.of_nat (length (dig registry levels max_per_paper papers all_papers
                      seen_ids w).1)
  ≤ Z.of_nat (length all_papers)
    + Z.of_nat (length papers) * (expansion_bound max_per_paper levels - 1).
Proof.
  intros Hm. revert papers all_papers seen_ids w.
  induction levels as [|k IH]; intros papers all_papers seen_ids w.
  - simpl. lia.
  - cbn [dig expansion_bound].
    pose proof (dig_level_length registry max_per_paper papers [] seen_ids w Hm)
      as Hlevel.
    pose proof (expansion_bound_pos max_per_paper k Hm) as Hpos.
    destruct (dig_level registry max_per_paper papers [] seen_ids w)
      as [[new_papers seen'] w']. simpl in Hlevel.
    destruct new_papers as [|p new_papers]; [simpl; nia|].
    etrans; [apply IH|]. rewrite length_app.
    set (n := Z.of_nat (length (p :: new_papers))) in *.
    rewrite Nat2Z.inj_add. fold n. nia.
Qed.

(** X21. With a [max_per_paper] that is not negative, a traversal of
    [depth] levels returns at most 1 + m + ... + m^depth papers for each
    paper it was given. *)
Theorem traversal_bounded (registry : gmap string (string → BaseSource))
  (papers : list Paper) (depth max_per_paper : Z) (w : World) :
  0 ≤ max_per_paper →
  Z.of_nat (length (fetch_references_recursive registry papers depth
                      max_per_paper w).1)
  ≤ Z.of_nat (length papers) * expansion_bound max_per_paper (Z.to_nat depth).
Proof.
  intros Hm. unfold fetch_references_recursive.
  pose proof (expansion_bound_pos max_per_paper (Z.to_nat depth) Hm).
  destruct (depth <=? 0); [simpl; nia|]. cbv zeta.
  etrans; [by apply dig_length|]. nia.
Qed.

Lemma traversal_bounded_witness :
  0 ≤ 1 ∧
  Z.of_nat (length (fetch_references_recursive stub_registry [root_a] 2 1
                      quiet_world).1) ≤ 1 * 3.
Proof.
  assert (H : 0 ≤ 1) by lia.
  split; [exact H|].
  exact (traversal_bounded stub_registry [root_a] 2 1 quiet_world H).
Defined.

(** ** The adapters, continued *)

(** X22. The bioRxiv search returns at most [limit] papers when [limit] is
    not negative. *)
Theorem biorxiv_search_at_most_limit (query : string) (limit : Z) (w : World) :
  0 ≤ limit →
  ∃ papers, (BioRxivSource.search query limit w).1 = Done papers ∧
            Z.of_nat (length papers) ≤ limit.
Proof.
  intros Hlimit.
  destruct (rxiv_search_result query limit w) as (papers & Hr & _).
  exists papers. split; [done|]. by eapply biorxiv_search_within_limit.
Qed.

Lemma biorxiv_search_at_most_limit_witness :
  0 ≤ 1 ∧
  ∃ papers, (BioRxivSource.search "cells" 1 rxiv_rich_world).1 = Done papers ∧
            Z.of_nat (length papers) ≤ 1.
Proof.
  assert (H : 0 ≤ 1) by lia.
  split; [exact H|].
  exact (biorxiv_search_at_most_limit "cells" 1 rxiv_rich_world H).
Defined.

(** X23. The bioRxiv search asks the biorxiv server first, and the medrxiv
    server after it exactly when biorxiv gave fewer than [limit] papers; it
    sends no other request. *)
Theorem biorxiv_search_requests (query : string) (limit : Z) (w : World) :
  let end_date := clock w (ticks w) in
  let start_date := end_date - 365 * BioRxivSource.microseconds_per_day in
  let found :=
    (BioRxivSource._fetch_from_server "biorxiv" start_date end_date query limit
       (set_ticks w (S (ticks w)))).1 in
  requests (BioRxivSource.search query limit w).2 =
    requests w
    ++ BioRxivSource.details_request "biorxiv" start_date end_date
       :: (if Z.of_nat (length found) <? limit
           then [BioRxivSource.details_request "medrxiv" start_date end_date]
           else []).
Proof.
  intros end_date start_date found.
  unfold BioRxivSource.search, datetime_now. fold end_date. fold start_date.
  set (w1 := set_ticks w (S (ticks w))) in *.
  pose proof (fetch_from_server_requests "biorxiv" start_date end_date query
                limit w1) as H1.
  unfold found.
  destruct (BioRxivSource._fetch_from_server "biorxiv" _ _ _ _ w1) as [f w2].
  simpl in *. destruct (Z.of_nat (length f) <? limit).
  - pose proof (fetch_from_server_requests "medrxiv" start_date end_date query
                  (limit - Z.of_nat (length f)) w2) as H2.
    destruct (BioRxivSource._fetch_from_server "medrxiv" _ _ _ _ w2) as [f' w3].
    simpl in *. rewrite H2, H1. by rewrite <- (assoc_L (++)).
  - simpl. by rewrite H1.
Qed.

Lemma collect_matching (P : Paper → Prop) query_lower server limit collection
  papers :
  Forall P papers →
  (∀ item p, BioRxivSource.matches_query query_lower item = Done true →
     BioRxivSource._parse_paper item server = Done p → P p) →
  Forall P (BioRxivSource.collect query_lower server limit collection papers).1.
Proof.
  intros Hp Hparse. revert papers Hp.
  induction collection as [|item items IH]; simpl; intros papers Hp; [done|].
  destruct (BioRxivSource.matches_query query_lower item) as [[|]|e] eqn:Hm;
    [| by apply IH |done].
  destruct (BioRxivSource._parse_paper item server) as [paper|e] eqn:E; [|done].
  assert (Forall P (papers ++ [paper])) as Hp'.
  { apply Forall_app. split; [done|]. constructor; [|constructor].
    by eapply Hparse. }
  destruct (limit <=? _); [done|]. by apply IH.
Qed.

Lemma fetch_from_server_matching server start_date end_date query limit w :
  PyStr.nonempty query = true →
  Forall (matches query)
    (BioRxivSource._fetch_from_server server start_date end_date query limit w).1.
Proof.
  intros Hq. unfold BioRxivSource._fetch_from_server.
  destruct (session_get _ w) as [got w1].
  destruct (got ≫= _) as [collection|e]; simpl; [|constructor].
  rewrite Hq. apply collect_matching; [constructor|].
  intros item p Hm Hparse.
  unfold BioRxivSource.matches_query in Hm.
  assert (PyStr.nonempty (PyStr.lower query) = true) as Hql
    by (by destruct query).
  rewrite Hql in Hm.
  unfold BioRxivSource._parse_paper in Hparse.
  destruct (rx_title item) as [| |t]; simpl in *; [|done|].
  - injection Hparse as <-. injection Hm as Hm.
    exists EmptyString. simpl. split; [by right|done].
  - injection Hparse as <-. injection Hm as Hm.
    exists t. simpl. split; [by left|done].
Qed.

(** X24. With a query that is not empty, every paper the bioRxiv search
    returns holds the lowercased query in its lowercased title and abstract
    (the title counted as empty when the item had none). *)
Theorem biorxiv_search_matches_query (query : string) (limit : Z) (w : World)
  (papers : list Paper) (p : Paper) :
  query ≠ EmptyString →
  (BioRxivSource.search query limit w).1 = Done papers →
  p ∈ papers →
  matches query p.
Proof.
  intros Hq%nonempty_iff. unfold BioRxivSource.search, datetime_now.
  set (w1 := set_ticks w (S (ticks w))).
  set (end_date := clock w (ticks w)).
  set (start_date := end_date - 365 * BioRxivSource.microseconds_per_day).
  pose proof (fetch_from_server_matching "biorxiv" start_date end_date query
                limit w1 Hq) as H1.
  destruct (BioRxivSource._fetch_from_server "biorxiv" _ _ _ _ w1) as [found w2].
  simpl in *. destruct (Z.of_nat (length found) <? limit).
  - pose proof (fetch_from_server_matching "medrxiv" start_date end_date query
                  (limit - Z.of_nat (length found)) w2 Hq) as H2.
    destruct (BioRxivSource._fetch_from_server "medrxiv" _ _ _ _ w2) as [found' w3].
    simpl in *. intros [= <-] Hp.
    assert (Forall (matches query) (PyStr.slice_to limit (found ++ found'))) as H
      by (apply slice_to_Forall, Forall_app; by split).
    rewrite Forall_forall in H. by apply H.
  - simpl. intros [= <-] Hp.
    pose proof (slice_to_Forall (matches query) limit found H1) as H.
    rewrite Forall_forall in H. by apply H.
Qed.

Lemma biorxiv_search_matches_query_witness :
  "cells" ≠ EmptyString ∧ matches "cells" (List.hd paper_one rxiv_found).
Proof.
  assert (H1 : "cells" ≠ EmptyString) by discriminate.
  assert (H2 : (BioRxivSource.search "cells" 2 rxiv_world).1 = Done rxiv_found)
    by (vm_compute; reflexivity).
  assert (H3 : List.hd paper_one rxiv_found ∈ rxiv_found) by (vm_compute; left).
  split; [exact H1|].
  exact (biorxiv_search_matches_query "cells" 2 rxiv_world rxiv_found
           (List.hd paper_one rxiv_found) H1 H2 H3).
Defined.

Lemma split_on_go_all_chars P sep tok s :
  PyStr.all_chars P tok = true → PyStr.all_chars P s = true →
  Forall (λ t, PyStr.all_chars P t = true) (PyStr.split_on_go sep tok s).
Proof.
  revert tok. induction s as [|c s IH]; simpl; intros tok Htok Hs.
  - by constructor.
  - apply andb_true_iff in Hs as [Hc Hs].
    destruct (Ascii.eqb c sep).
    + constructor; [done|]. by apply IH.
    + apply IH; [|done]. by rewrite all_chars_snoc, Htok, Hc.
Qed.

Lemma split_on_go_no_sep sep tok s :
  PyStr.all_chars (is_not sep) tok = true →
  Forall (λ t, PyStr.all_chars (is_not sep) t = true) (PyStr.split_on_go sep tok s).
Proof.
  revert tok. induction s as [|c s IH]; simpl; intros tok Htok.
  - by constructor.
  - destruct (Ascii.eqb c sep) eqn:E.
    + constructor; [done|]. by apply IH.
    + apply IH. rewrite all_chars_snoc, Htok. unfold is_not. by rewrite E.
Qed.

Lemma contains_char_false sep s :
  PyStr.all_chars (is_not sep) s = true →
  PyStr.contains (String sep EmptyString) s = false.
Proof.
  induction s as [|c s IH]; simpl; [done|].
  intros [Hc Hs]%andb_true_iff. rewrite (IH Hs), orb_false_r.
  unfold is_not in Hc. apply negb_true_iff, Ascii.eqb_neq in Hc.
  destruct (ascii_dec sep c); [congruence|done].
Qed.

Lemma Forall_last (P : string → Prop) l d : P d → Forall P l → P (List.last l d).
Proof.
  intros Hd Hl. induction Hl as [|x l Hx Hl IH]; simpl; [done|].
  destruct l; [done|]. exact IH.
Qed.

(** X25. The id of a paper parsed from an arXiv entry holds neither a slash
    nor the letter v: it is the last segment of the entry's URL, cut at its
    first v. *)
Theorem arxiv_id_shape (entry : AtomEntry) (p : Paper) :
  ArXivSource._parse_entry entry = Done p →
  PyStr.contains "/" (id p) = false ∧ PyStr.contains "v" (id p) = false.
Proof.
  unfold ArXivSource._parse_entry.
  destruct (text_strip_or (atom_title entry) _); simpl; [|discriminate].
  destruct (text_strip_or (atom_summary entry) _); simpl; [|discriminate].
  destruct (text_strip_or (atom_id entry) _) as [url|]; simpl; [|discriminate].
  destruct (text_strip_or (atom_published entry) _); simpl; [|discriminate].
  destruct (ArXivSource.entry_authors _); simpl; [|discriminate].
  intros [= <-]. simpl.
  set (segment := if PyStr.nonempty url
                  then PyStr.last_or EmptyString (PyStr.split_on "/" url)
                  else EmptyString).
  assert (PyStr.all_chars (is_not "/") segment = true) as Hseg.
  { unfold segment. destruct (PyStr.nonempty url); [|done].
    unfold PyStr.last_or.
    apply (Forall_last (λ t, PyStr.all_chars (is_not "/") t = true)); [done|].
    by apply split_on_go_no_sep. }
  destruct (PyStr.contains "v" segment) eqn:Hv.
  - pose proof (split_on_go_no_sep "v" EmptyString segment eq_refl) as H1.
    pose proof (split_on_go_all_chars (is_not "/") "v" EmptyString segment
                  eq_refl Hseg) as H2.
    fold (PyStr.split_on "v" segment) in H1, H2.
    destruct (PyStr.split_on "v" segment) as [|t ts]; simpl; [done|].
    apply Forall_cons in H1 as [H1 _]. apply Forall_cons in H2 as [H2 _].
    split; by apply contains_char_false.
  - split; [by apply contains_char_false|done].
Qed.

Lemma arxiv_id_shape_witness :
  ArXivSource._parse_entry short_entry
  = Done (match ArXivSource._parse_entry short_entry with
          | Done p => p
          | Raised _ => paper_one
          end) ∧
  PyStr.contains "v" (id (match ArXivSource._parse_entry short_entry with
                          | Done p => p
                          | Raised _ => paper_one
                          end)) = false.
Proof.
  assert (H : ArXivSource._parse_entry short_entry
              = Done (match ArXivSource._parse_entry short_entry with
                      | Done p => p
                      | Raised _ => paper_one
                      end)) by (vm_compute; reflexivity).
  split; [exact H|].
  exact (proj2 (arxiv_id_shape short_entry _ H)).
Defined.

(** ** Patterns and keyword counts *)

Lemma prefix_AI_false s :
  PyStr.all_chars not_upper s = true → String.prefix "AI" s = false.
Proof.
  destruct s as [|c s]; [done|]. cbn [String.prefix PyStr.all_chars].
  intros [Hc _]%andb_true_iff.
  destruct (ascii_dec "A" c) as [<-|]; [by vm_compute in Hc|done].
Qed.

Lemma contains_AI_false s :
  PyStr.all_chars not_upper s = true → PyStr.contains "AI" s = false.
Proof.
  induction s as [|c s IH]; [done|].
  intros H. cbn [PyStr.contains]. rewrite (prefix_AI_false _ H).
  simpl in H. apply andb_true_iff in H as [_ H]. by apply IH.
Qed.

Lemma count_from_AI skip s :
  PyStr.all_chars not_upper s = true → PyStr.count_from "AI" skip s = 0.
Proof.
  revert skip. induction s as [|c s IH]; intros skip H; [done|].
  cbn [PyStr.count_from]. rewrite (prefix_AI_false _ H).
  simpl in H. apply andb_true_iff in H as [_ H].
  destruct skip; by apply IH.
Qed.

Lemma count_from_nonneg sub skip s : 0 ≤ PyStr.count_from sub skip s.
Proof.
  revert skip. induction s as [|c s IH]; intros skip; [done|].
  cbn [PyStr.count_from].
  destruct skip; [|apply IH].
  destruct (String.prefix sub (String c s)); [|apply IH].
  specialize (IH (String.length sub - 1)%nat). lia.
Qed.

Lemma count_nonneg sub s : 0 ≤ PyStr.count sub s.
Proof.
  unfold PyStr.count, PyStr.len. destruct (PyStr.nonempty sub); [|lia].
  apply count_from_nonneg.
Qed.

Lemma paper_text_not_upper paper :
  PyStr.all_chars not_upper (paper_text paper) = true.
Proof. apply lower_not_upper. Qed.

Lemma count_keyword_counted txt counter kw :
  PyStr.all_chars not_upper txt = true →
  kw ∈ notable_keywords → counted counter →
  counted (count_keyword txt counter kw).
Proof.
  intros Htxt Hkw Hc. unfold count_keyword.
  destruct (Z.eqb_spec (PyStr.count kw txt) 0) as [E|E]; [done|].
  intros kw' n Hn.
  destruct (decide (kw = kw')) as [<-|Hne].
  - rewrite lookup_insert_eq in Hn. injection Hn as <-.
    pose proof (count_nonneg kw txt) as Hnn.
    split_and!; [done| |].
    + intros ->. apply E. unfold PyStr.count. simpl. by apply count_from_AI.
    + destruct (counter !! kw) as [old|] eqn:Hold; simpl; [|lia].
      destruct (Hc kw old Hold) as (_ & _ & Hpos). lia.
  - rewrite lookup_insert_ne in Hn by done. by apply Hc.
Qed.

Lemma count_keywords_counted txt counter kws :
  PyStr.all_chars not_upper txt = true →
  (∀ kw, kw ∈ kws → kw ∈ notable_keywords) → counted counter →
  counted (foldl (count_keyword txt) counter kws).
Proof.
  intros Htxt. revert counter.
  induction kws as [|kw kws IH]; simpl; intros counter Hkws Hc; [done|].
  apply IH; [intros kw' Hkw'; apply Hkws; by right|].
  apply count_keyword_counted; [done|apply Hkws; left|done].
Qed.

(** X26. Every entry of the keyword counter is for one of the notable
    keywords and has a positive count; there is never an entry for AI, as
    the text is lowercased before it is searched. *)
Theorem build_keyword_counter_entries (papers : list Paper) (kw : string) (n : Z) :
  build_keyword_counter papers !! kw = Some n →
  kw ∈ notable_keywords ∧ kw ≠ "AI" ∧ 0 < n.
Proof.
  unfold build_keyword_counter.
  assert (counted (∅ : gmap string Z)) as Hempty
    by (intros kw' n' H; by rewrite lookup_empty in H).
  revert Hempty. generalize (∅ : gmap string Z) as counter.
  induction papers as [|paper papers IH]; simpl; intros counter Hc Hn;
    [by apply Hc|].
  apply (IH (count_paper counter paper)); [|done].
  unfold count_paper.
  apply count_keywords_counted; [apply paper_text_not_upper|done|done].
Qed.

Lemma build_keyword_counter_entries_witness :
  build_keyword_counter [ai_paper] !! "plasma" = Some 2 ∧
  "plasma" ∈ notable_keywords.
Proof.
  assert (H : build_keyword_counter [ai_paper] !! "plasma" = Some 2)
    by (vm_compute; reflexivity).
  split; [exact H|].
  exact (proj1 (build_keyword_counter_entries [ai_paper] "plasma" 2 H)).
Defined.

(** X27. The pattern AI physics is found only for a paper whose lowercased
    title and abstract hold neural or machine learning: the word AI never
    matches a lowercased text. *)
Theorem detect_patterns_ai (papers : list Paper) (pat : Pattern) :
  pat ∈ detect_patterns papers →
  pattern pat = "AI physics" →
  ∃ paper, paper ∈ papers ∧
    (PyStr.contains "neural" (paper_text paper) = true ∨
     PyStr.contains "machine learning" (paper_text paper) = true).
Proof.
  unfold detect_patterns. intros Hpat Hname.
  apply list_elem_of_bind in Hpat as (paper & Hpat & Hpaper).
  exists paper. split; [done|].
  unfold paper_patterns in Hpat.
  repeat (apply elem_of_app in Hpat as [Hpat|Hpat];
          [destruct (any_in _ _);
           [apply list_elem_of_singleton in Hpat; subst pat; discriminate
           |by apply elem_of_nil in Hpat]|]).
  destruct (any_in _ _) eqn:Hany; [|by apply elem_of_nil in Hpat].
  unfold any_in in Hany. simpl in Hany.
  rewrite (contains_AI_false _ (paper_text_not_upper paper)) in Hany.
  simpl in Hany. rewrite orb_false_r in Hany.
  apply orb_true_iff in Hany. done.
Qed.

Lemma detect_patterns_ai_witness :
  (List.last (detect_patterns [ai_paper]) (mkPattern "none" "none" "none" "none"))
    ∈ detect_patterns [ai_paper] ∧
  ∃ paper, paper ∈ [ai_paper] ∧
    (PyStr.contains "neural" (paper_text paper) = true ∨
     PyStr.contains "machine learning" (paper_text paper) = true).
Proof.
  assert (H1 : (List.last (detect_patterns [ai_paper])
                  (mkPattern "none" "none" "none" "none"))
               ∈ detect_patterns [ai_paper]) by (vm_compute; right; left).
  assert (H2 : pattern (List.last (detect_patterns [ai_paper])
                          (mkPattern "none" "none" "none" "none"))
               = "AI physics") by (vm_compute; reflexivity).
  split; [exact H1|].
  exact (detect_patterns_ai [ai_paper] _ H1 H2).
Defined.

(** ** The registry and the dictionary of a paper *)

(** X28. [get_source] gives an adapter exactly for the names that
    [list_sources] lists, and the adapter is the registered class built
    with that name. *)
Theorem get_source_listed (registry : gmap string (string → BaseSource))
  (name : string) :
  (is_Some (get_source registry name) ↔ name ∈ list_sources registry)
  ∧ (∀ src, get_source registry name = Some src →
       ∃ cls, registry !! name = Some cls ∧ src = cls name).
Proof.
  unfold get_source, list_sources. split.
  - rewrite list_elem_of_fmap. split.
    + destruct (registry !! name) as [cls|] eqn:E; [|by intros [? ?]].
      intros _. exists (name, cls). split; [done|]. by apply elem_of_map_to_list.
    + intros ([n cls] & -> & H%elem_of_map_to_list). simpl. rewrite H. by eexists.
  - intros src. destruct (registry !! name) as [cls|]; [|done].
    intros [= <-]. by exists cls.
Qed.

(** X29. The dictionary of a paper has the eleven keys of the paper's
    fields and no other. *)
Theorem to_dict_keys (p : Paper) (k : string) :
  is_Some (to_dict p !! k) ↔ k ∈ paper_fields.
Proof.
  unfold to_dict, paper_fields.
  rewrite !lookup_insert_is_Some, lookup_empty, !elem_of_cons, elem_of_nil.
  split.
  - intros H.
    repeat (destruct H as [<-|[_ H]];
            [by repeat (first [left; reflexivity|right])|]).
    by destruct H.
  - intros H.
    repeat (destruct H as [->|H];
            [by repeat (first [left; reflexivity|right; split; [discriminate|]])|]).
    by destruct H.
Qed.

(** X30. [from_dict] does not look at a key that is not a field of the
    paper. *)
Theorem from_dict_ignores_other_keys (d : gmap string pyval) (k : string)
  (v : pyval) :
  k ∉ paper_fields →
  from_dict (<[k := v]> d) = from_dict d.
Proof.
  intros Hk. unfold paper_fields in Hk.
  repeat (apply not_elem_of_cons in Hk as [? Hk]).
  unfold from_dict, get_str, get_int, get_list.
  by rewrite !lookup_insert_ne by done.
Qed.

Lemma from_dict_ignores_other_keys_witness :
  ("doi" ∉ paper_fields) ∧
  from_dict (<["doi" := PStr "10.1/x"]> (to_dict paper_one))
  = from_dict (to_dict paper_one).
Proof.
  assert (H : "doi" ∉ paper_fields).
  { unfold paper_fields. intros Hin.
    repeat (apply elem_of_cons in Hin as [Hin|Hin]; [discriminate|]).
    by apply elem_of_nil in Hin. }
  split; [exact H|].
  exact (from_dict_ignores_other_keys (to_dict paper_one) "doi" (PStr "10.1/x") H).
Defined.

Lemma get_source_listed_witness :
  get_source SOURCE_REGISTRY "pubmed" = Some (PubMedSource_class "pubmed") ∧
  ∃ cls, SOURCE_REGISTRY !! "pubmed" = Some cls ∧
         PubMedSource_class "pubmed" = cls "pubmed".
Proof.
  assert (H : get_source SOURCE_REGISTRY "pubmed"
              = Some (PubMedSource_class "pubmed")) by reflexivity.
  split; [exact H|].
  exact (proj2 (get_source_listed SOURCE_REGISTRY "pubmed") _ H).
Defined.


